(** * Libertas Infinita: the graph engine of the node editor

    A shallow embedding of the graph store, the propagation engine, the
    data processors and the history manager of [libertas-infinita.js],
    followed by the properties of the specification that were checked
    against them.

    Conventions of the embedding.
    - JavaScript data are values of the inductive type [JS.value]; objects
      are association lists kept in property enumeration order.
    - Numbers are exact rationals together with [NaN] and the two
      infinities; rounding of doubles and the negative zero are not
      represented.
    - A string is a [string] of characters of eight bits, one for each
      code unit of the string of the program: text with a code unit above
      255 has no counterpart here.
    - Values carry no identity.  Where the program compares two objects
      by reference, or evaluates text that the user wrote and that does
      more than compute a value, or counts beyond the integers a double
      holds exactly, or hands to the HTML parser a text that is more than
      plain characters, the embedding reports that it does not follow
      the program ([Astray]) and says no more.
    - A DOM node element is represented by the part of it that the engine
      reads and writes: its id, position, size, the form controls of its
      content and the text of its status line.  Markup is not parsed: a
      template is followed when the texts it pastes are plain characters,
      and the text pasted in a control is then the value of the control.
    - An abrupt completion ([throw]) is an explicit result; mutations made
      before the throw are kept, as they are in the program.
    - The recursion of [processNodeData] has no bound in the program; here
      it takes the depth it may use as an argument, and reports it when
      that depth does not suffice.
    - What the program takes from the browser (the interpreter behind
      [new Function], the JSON codec, the processors that drive browser
      facilities) is a parameter of the development, the class [Host]. *)

From Stdlib Require Import ZArith QArith List String Ascii Bool Arith Lia.
From Stdlib Require Import DecimalString.
From Stdlib Require DecimalPos.
Import ListNotations.
Close Scope Q_scope.
Open Scope string_scope.
Open Scope list_scope.
Open Scope nat_scope.
Set Warnings "-register-all".

(** ** JavaScript values and the built-ins the engine uses *)

Module JS.

(** Numbers. *)
Inductive number : Type :=
| NaN
| Inf (negative : bool)
| Fin (q : Q).

Definition num_of_Z (z : Z) : number := Fin (z # 1).
Definition num_of_nat (n : nat) : number := num_of_Z (Z.of_nat n).

Definition num_is_zero (n : number) : bool :=
  match n with Fin q => Qeq_bool q 0 | _ => false end.

(** [a + b] on numbers. *)
Definition num_add (a b : number) : number :=
  match a, b with
  | NaN, _ | _, NaN => NaN
  | Inf s, Inf t => if Bool.eqb s t then Inf s else NaN
  | Inf s, Fin _ | Fin _, Inf s => Inf s
  | Fin p, Fin q => Fin (Qred (Qplus p q))
  end.

Definition q_negative (q : Q) : bool := (Qnum q <? 0)%Z.

(** [a / b] on numbers. *)
Definition num_div (a b : number) : number :=
  match a, b with
  | NaN, _ | _, NaN => NaN
  | Inf _, Inf _ => NaN
  | Inf s, Fin q => Inf (xorb s (q_negative q))
  | Fin _, Inf _ => Fin 0
  | Fin p, Fin q =>
      if Qeq_bool q 0
      then (if Qeq_bool p 0 then NaN else Inf (q_negative p))
      else Fin (Qred (Qdiv p q))
  end.

(** Equality of numbers as [SameValueZero] sees it: [NaN] equals itself. *)
Definition num_eqb (a b : number) : bool :=
  match a, b with
  | NaN, NaN => true
  | Inf s, Inf t => Bool.eqb s t
  | Fin p, Fin q => Qeq_bool p q
  | _, _ => false
  end.

(** Values.  [VBuiltin name] is the function object (or, for [__proto__],
    the prototype object) that every ordinary object inherits under that
    name from [Object.prototype]. *)
Inductive value : Type :=
| VUndefined
| VNull
| VBool (b : bool)
| VNum (n : number)
| VStr (s : string)
| VArr (elems : list value)
| VObj (props : list (string * value))
| VBuiltin (name : string).

(** The result of an evaluation step that may throw. *)
Inductive result (A : Type) : Type :=
| Ok (a : A)
| Raise (message : string).
Arguments Ok {A} a.
Arguments Raise {A} message.

(** *** Strings *)

Definition is_digit (c : ascii) : bool :=
  (48 <=? nat_of_ascii c) && (nat_of_ascii c <=? 57).

Definition digit_value (c : ascii) : Z := Z.of_nat (nat_of_ascii c - 48).

(** White space and line terminators, as [trim] and [parseFloat] strip
    them, among the code units below 256: tab, line feed, vertical tab,
    form feed, carriage return, space and the no-break space. *)
Definition is_space (c : ascii) : bool :=
  let n := nat_of_ascii c in
  (n =? 9) || (n =? 10) || (n =? 11) || (n =? 12) || (n =? 13) || (n =? 32)
  || (n =? 160).

Fixpoint trimStart (s : string) : string :=
  match s with
  | String c r => if is_space c then trimStart r else s
  | EmptyString => EmptyString
  end.

Fixpoint string_rev_onto (s acc : string) : string :=
  match s with
  | EmptyString => acc
  | String c r => string_rev_onto r (String c acc)
  end.

Definition string_rev (s : string) : string := string_rev_onto s EmptyString.

Definition trimEnd (s : string) : string :=
  string_rev (trimStart (string_rev s)).

(** [s.trim()] *)
Definition trim (s : string) : string := trimEnd (trimStart s).

(** [s.split(sep)] for a separator of one character. *)
Fixpoint split_onto (sep : ascii) (s : string) (cur : string) : list string :=
  match s with
  | EmptyString => [string_rev cur]
  | String c r =>
      if Ascii.eqb c sep
      then string_rev cur :: split_onto sep r EmptyString
      else split_onto sep r (String c cur)
  end.

Definition split (sep : ascii) (s : string) : list string :=
  split_onto sep s EmptyString.

(** [s.includes(c)] for one character. *)
Fixpoint includes (c : ascii) (s : string) : bool :=
  match s with
  | EmptyString => false
  | String d r => Ascii.eqb c d || includes c r
  end.

Fixpoint starts_with (p s : string) : bool :=
  match p, s with
  | EmptyString, _ => true
  | String a p', String b s' => Ascii.eqb a b && starts_with p' s'
  | String _ _, EmptyString => false
  end.

Fixpoint drop (n : nat) (s : string) : string :=
  match n, s with
  | O, _ => s
  | S k, String _ r => drop k r
  | S _, EmptyString => EmptyString
  end.

(** The longest prefix of decimal digits, and what follows it. *)
Fixpoint span_digits (s : string) : list ascii * string :=
  match s with
  | String c r =>
      if is_digit c
      then let (ds, rest) := span_digits r in (c :: ds, rest)
      else ([], s)
  | EmptyString => ([], EmptyString)
  end.

Definition digits_value (ds : list ascii) : Z :=
  fold_left (fun acc c => (acc * 10 + digit_value c)%Z) ds 0%Z.

Definition string_of_nat (n : nat) : string :=
  NilEmpty.string_of_uint (Nat.to_uint n).

Definition string_of_Z (z : Z) : string :=
  match z with
  | Zneg p => ("-" ++ NilEmpty.string_of_uint (Pos.to_uint p))%string
  | Zpos p => NilEmpty.string_of_uint (Pos.to_uint p)
  | Z0 => "0"
  end.

(** *** [parseFloat] and [parseInt] *)

Definition scale10 (m e : Z) : Q :=
  match e with
  | Zneg p => Qred (m # (10 ^ p))
  | _ => ((m * 10 ^ e)%Z # 1)
  end.

(** The optional exponent part of a decimal literal: it counts only when
    at least one digit follows the [e] and its sign. *)
Definition exponent_part (s : string) : Z :=
  match s with
  | String c r =>
      if Ascii.eqb c "e" || Ascii.eqb c "E" then
        match r with
        | String "+" r' =>
            match span_digits r' with
            | ([], _) => 0%Z
            | (ds, _) => digits_value ds
            end
        | String "-" r' =>
            match span_digits r' with
            | ([], _) => 0%Z
            | (ds, _) => (- digits_value ds)%Z
            end
        | _ =>
            match span_digits r with
            | ([], _) => 0%Z
            | (ds, _) => digits_value ds
            end
        end
      else 0%Z
  | EmptyString => 0%Z
  end.

(** The unsigned part of [parseFloat]: [Infinity] or the longest prefix
    that is a decimal literal. *)
Definition parse_unsigned (s : string) : option number :=
  if starts_with "Infinity" s then Some (Inf false) else
  let (ip, r1) := span_digits s in
  match r1 with
  | String "." r2 =>
      let (fp, r3) := span_digits r2 in
      match ip, fp with
      | [], [] => None
      | _, _ =>
          Some (Fin (scale10 (digits_value (ip ++ fp))
                             (exponent_part r3 - Z.of_nat (List.length fp))))
      end
  | _ =>
      match ip with
      | [] => None
      | _ => Some (Fin (scale10 (digits_value ip) (exponent_part r1)))
      end
  end.

Definition num_neg (n : number) : number :=
  match n with
  | NaN => NaN
  | Inf s => Inf (negb s)
  | Fin q => Fin (Qopp q)
  end.

(** [parseFloat(s)] on a string. *)
Definition parseFloat_string (s : string) : number :=
  match trimStart s with
  | String "-" r =>
      match parse_unsigned r with Some n => num_neg n | None => NaN end
  | String "+" r =>
      match parse_unsigned r with Some n => n | None => NaN end
  | r =>
      match parse_unsigned r with Some n => n | None => NaN end
  end.

Definition is_hex_digit (c : ascii) : bool :=
  let n := nat_of_ascii c in
  is_digit c || ((65 <=? n) && (n <=? 70)) || ((97 <=? n) && (n <=? 102)).

Definition hex_value (c : ascii) : Z :=
  let n := nat_of_ascii c in
  if is_digit c then digit_value c
  else if n <=? 70 then Z.of_nat (n - 55) else Z.of_nat (n - 87).

Fixpoint span_hex (s : string) : list ascii * string :=
  match s with
  | String c r =>
      if is_hex_digit c
      then let (ds, rest) := span_hex r in (c :: ds, rest)
      else ([], s)
  | EmptyString => ([], EmptyString)
  end.

Definition hex_digits_value (ds : list ascii) : Z :=
  fold_left (fun acc c => (acc * 16 + hex_value c)%Z) ds 0%Z.

(** The unsigned part of [parseInt] without a radix argument: a [0x]
    prefix selects base sixteen.  [None] stands for [NaN]. *)
Definition parseInt_unsigned (s : string) : option Z :=
  if starts_with "0x" s || starts_with "0X" s then
    match span_hex (drop 2 s) with
    | ([], _) => None
    | (ds, _) => Some (hex_digits_value ds)
    end
  else
    match span_digits s with
    | ([], _) => None
    | (ds, _) => Some (digits_value ds)
    end.

(** [parseInt(s)] on a string; [None] stands for [NaN]. *)
Definition parseInt_string (s : string) : option Z :=
  match trimStart s with
  | String "-" r => option_map Z.opp (parseInt_unsigned r)
  | String "+" r => parseInt_unsigned r
  | r => parseInt_unsigned r
  end.

(** *** Conversions *)

(** The digits of the fraction [r / d] ([r < d]), at most [n] of them. *)
Fixpoint fraction_digits (n : nat) (r d : Z) : string :=
  match n with
  | O => ""
  | S k =>
      if (r =? 0)%Z then ""
      else (string_of_Z (r * 10 / d) ++ fraction_digits k ((r * 10) mod d) d)%string
  end.

(** [String(n)] for a number.  An integer prints as its decimal digits; a
    fraction prints as its decimal expansion, cut after twenty places (the
    exponent notation of very large and very small doubles is not
    represented). *)
Definition numberToString (n : number) : string :=
  match n with
  | NaN => "NaN"
  | Inf false => "Infinity"
  | Inf true => "-Infinity"
  | Fin q =>
      let q' := Qred q in
      let num := Qnum q' in
      let den := Zpos (Qden q') in
      if (den =? 1)%Z then string_of_Z num
      else
        ((if (num <? 0)%Z then "-" else "") ++
         string_of_Z (Z.abs num / den) ++ "." ++
         fraction_digits 20 (Z.abs num mod den) den)%string
  end.

(** [!!v] *)
Definition truthy (v : value) : bool :=
  match v with
  | VUndefined | VNull => false
  | VBool b => b
  | VNum NaN => false
  | VNum n => negb (num_is_zero n)
  | VStr s => negb (String.eqb s "")
  | VArr _ | VObj _ | VBuiltin _ => true
  end.

(** [a || b] *)
Definition or_else (a b : value) : value := if truthy a then a else b.

Fixpoint assoc {A : Type} (k : string) (l : list (string * A)) : option A :=
  match l with
  | [] => None
  | (k', a) :: r => if String.eqb k k' then Some a else assoc k r
  end.

Definition has_key {A : Type} (k : string) (l : list (string * A)) : bool :=
  match assoc k l with Some _ => true | None => false end.

(** The names every ordinary object inherits from [Object.prototype]. *)
Definition objectPrototypeNames : list string :=
  [ "constructor"; "__defineGetter__"; "__defineSetter__"; "hasOwnProperty";
    "__lookupGetter__"; "__lookupSetter__"; "isPrototypeOf";
    "propertyIsEnumerable"; "toString"; "valueOf"; "__proto__";
    "toLocaleString" ].

Definition inherited (k : string) : bool :=
  existsb (String.eqb k) objectPrototypeNames.

(** [String(v)], which throws for an object that shadows [toString] with
    a value that is not a function (no value of this embedding is a
    function of the program's own). *)
Fixpoint toString (v : value) : result string :=
  match v with
  | VUndefined => Ok "undefined"
  | VNull => Ok "null"
  | VBool true => Ok "true"
  | VBool false => Ok "false"
  | VNum n => Ok (numberToString n)
  | VStr s => Ok s
  | VArr l =>
      (fix join (l : list value) : result string :=
         match l with
         | [] => Ok ""
         | x :: r =>
             let piece :=
               match x with
               | VUndefined | VNull => Ok ""
               | _ => toString x
               end in
             match piece with
             | Raise m => Raise m
             | Ok p =>
                 match r with
                 | [] => Ok p
                 | _ =>
                     match join r with
                     | Raise m => Raise m
                     | Ok q => Ok (p ++ "," ++ q)%string
                     end
                 end
             end
         end) l
  | VObj props =>
      if has_key "toString" props
      then Raise "Cannot convert object to primitive value"
      else Ok "[object Object]"
  | VBuiltin "__proto__" => Ok "[object Object]"
  | VBuiltin "constructor" => Ok "function Object() { [native code] }"
  | VBuiltin name => Ok ("function " ++ name ++ "() { [native code] }")%string
  end.

(** *** Properties *)

(** An array index: the canonical decimal form of an integer below
    [2^32 - 1]. *)
Definition array_index (k : string) : option Z :=
  match span_digits k with
  | (c :: ds, EmptyString) =>
      let n := digits_value (c :: ds) in
      if (negb (Ascii.eqb c "0") || match ds with [] => true | _ => false end)
         && (n <? 4294967295)%Z
      then Some n else None
  | _ => None
  end.

Fixpoint string_nth (n : nat) (s : string) : option ascii :=
  match s, n with
  | EmptyString, _ => None
  | String c _, O => Some c
  | String _ r, S k => string_nth k r
  end.

(** [v[k]] for a property name [k].  Reading a property of [undefined] or
    [null] throws.  An object yields its own property, else the member it
    inherits from [Object.prototype], else [undefined].  Of arrays and
    strings the length and the indexed elements are represented; the
    methods they inherit, and the members of numbers and booleans, are
    not. *)
Definition get (v : value) (k : string) : result value :=
  match v with
  | VUndefined =>
      Raise ("Cannot read properties of undefined (reading '" ++ k ++ "')")%string
  | VNull =>
      Raise ("Cannot read properties of null (reading '" ++ k ++ "')")%string
  | VObj props =>
      match assoc k props with
      | Some x => Ok x
      | None => Ok (if inherited k then VBuiltin k else VUndefined)
      end
  | VArr l =>
      if String.eqb k "length" then Ok (VNum (num_of_nat (List.length l)))
      else match array_index k with
           | Some i => Ok (nth (Z.to_nat i) l VUndefined)
           | None => Ok VUndefined
           end
  | VStr s =>
      if String.eqb k "length" then Ok (VNum (num_of_nat (String.length s)))
      else match array_index k with
           | Some i =>
               match string_nth (Z.to_nat i) s with
               | Some c => Ok (VStr (String c EmptyString))
               | None => Ok VUndefined
               end
           | None => Ok VUndefined
           end
  | VBool _ | VNum _ | VBuiltin _ => Ok VUndefined
  end.

Fixpoint replace_prop {A : Type} (k : string) (a : A) (l : list (string * A))
  : list (string * A) :=
  match l with
  | [] => []
  | (k', a') :: r =>
      if String.eqb k k' then (k', a) :: r else (k', a') :: replace_prop k a r
  end.

(** Where a new index key goes: before the first key that is not an index
    or is a larger index. *)
Fixpoint insert_index {A : Type} (i : Z) (k : string) (a : A)
  (l : list (string * A)) : list (string * A) :=
  match l with
  | [] => [(k, a)]
  | (k', a') :: r =>
      match array_index k' with
      | Some j =>
          if (j <? i)%Z then (k', a') :: insert_index i k a r
          else (k, a) :: l
      | None => (k, a) :: l
      end
  end.

(** Defining the own property [k] of an object, keeping the enumeration
    order of its properties: index keys first, in increasing order, then
    the other keys in the order of their creation. *)
Definition set_prop {A : Type} (l : list (string * A)) (k : string) (a : A)
  : list (string * A) :=
  if has_key k l then replace_prop k a l
  else match array_index k with
       | Some i => insert_index i k a l
       | None => l ++ [(k, a)]
       end.

Fixpoint indexed_from (n : nat) (l : list value) : list (string * value) :=
  match l with
  | [] => []
  | x :: r => (string_of_nat n, x) :: indexed_from (S n) r
  end.

Fixpoint chars_from (n : nat) (s : string) : list (string * value) :=
  match s with
  | EmptyString => []
  | String c r =>
      (string_of_nat n, VStr (String c EmptyString)) :: chars_from (S n) r
  end.

(** The own enumerable properties that an object spread copies. *)
Definition own_enumerable (v : value) : list (string * value) :=
  match v with
  | VObj props => props
  | VArr l => indexed_from 0 l
  | VStr s => chars_from 0 s
  | _ => []
  end.

Definition spread_into (acc : list (string * value)) (v : value)
  : list (string * value) :=
  fold_left (fun a kv => set_prop a (fst kv) (snd kv)) (own_enumerable v) acc.

(** [{ ...a, ...b }] *)
Definition spread2 (a b : value) : value :=
  VObj (spread_into (spread_into [] a) b).

(** [Array.isArray(v)] *)
Definition isArray (v : value) : bool :=
  match v with VArr _ => true | _ => false end.

(** [typeof v === 'object'] *)
Definition typeof_object (v : value) : bool :=
  match v with
  | VNull | VArr _ | VObj _ | VBuiltin "__proto__" => true
  | _ => false
  end.

(** Equality of two values of which one at least is primitive, or an
    inherited member: by value. *)
Definition same_key (a b : value) : bool :=
  match a, b with
  | VUndefined, VUndefined => true
  | VNull, VNull => true
  | VBool x, VBool y => Bool.eqb x y
  | VNum x, VNum y => num_eqb x y
  | VStr x, VStr y => String.eqb x y
  | VBuiltin x, VBuiltin y => String.eqb x y
  | _, _ => false
  end.

(** The equality of [Map] keys.  Two objects, or two arrays, are the same
    key when they are one object of the program; values here carry no
    identity, and that comparison has no answer. *)
Definition sameValueZero (a b : value) : option bool :=
  match a, b with
  | VObj _, VObj _ | VArr _, VArr _ => None
  | _, _ => Some (same_key a b)
  end.

Definition is_primitive (v : value) : bool :=
  match v with
  | VArr _ | VObj _ => false
  | _ => true
  end.

(** *** JSON *)

(** What [JSON.parse(JSON.stringify(v))] is; [None] when [JSON.stringify]
    omits the value. *)
Fixpoint jsonify (v : value) : option value :=
  match v with
  | VUndefined | VBuiltin _ => None
  | VNull => Some VNull
  | VBool b => Some (VBool b)
  | VNum (Fin q) => Some (VNum (Fin q))
  | VNum _ => Some VNull
  | VStr s => Some (VStr s)
  | VArr l =>
      Some (VArr (map (fun x => match jsonify x with
                                | Some y => y
                                | None => VNull
                                end) l))
  | VObj props =>
      Some (VObj
        ((fix go (l : list (string * value)) : list (string * value) :=
            match l with
            | [] => []
            | (k, x) :: r =>
                match jsonify x with
                | Some y => (k, y) :: go r
                | None => go r
                end
            end) props))
  end.

(** Structural equality of values. *)
Fixpoint value_eqb (a b : value) : bool :=
  match a, b with
  | VUndefined, VUndefined => true
  | VNull, VNull => true
  | VBool x, VBool y => Bool.eqb x y
  | VNum x, VNum y => num_eqb x y
  | VStr x, VStr y => String.eqb x y
  | VBuiltin x, VBuiltin y => String.eqb x y
  | VArr l, VArr m =>
      (fix go (l m : list value) : bool :=
         match l, m with
         | [], [] => true
         | x :: l', y :: m' => value_eqb x y && go l' m'
         | _, _ => false
         end) l m
  | VObj l, VObj m =>
      (fix go (l m : list (string * value)) : bool :=
         match l, m with
         | [], [] => true
         | (k, x) :: l', (j, y) :: m' =>
             String.eqb k j && value_eqb x y && go l' m'
         | _, _ => false
         end) l m
  | _, _ => false
  end.

(** Whether two optional values have the same JSON text (an omitted value
    has none). *)
Definition same_json (a b : value) : bool :=
  match jsonify a, jsonify b with
  | Some x, Some y => value_eqb x y
  | None, None => true
  | _, _ => false
  end.

End JS.

Import JS.

(** ** The graph store *)

(** One end of a connection: [{ node, socket }]. *)
Record Endpoint : Type := mkEndpoint {
  ep_node : string;
  ep_socket : string
}.

(** A connection: [{ from: {node, socket}, to: {node, socket} }]. *)
Record Connection : Type := mkConnection {
  c_from : Endpoint;
  c_to : Endpoint
}.

(** The form controls of a node element. *)
Inductive ControlTag : Type := Textarea | InputText | InputCheckbox | SelectBox.

Record Control : Type := mkControl {
  tag : ControlTag;
  dataParam : option string;   (* the attribute data-param *)
  dataOutput : option string;  (* the attribute data-output *)
  cvalue : string;             (* el.value *)
  cchecked : bool              (* el.checked *)
}.

(** A node: the entry of [this.nodes], with the part of its element that
    the engine reads and writes. *)
Record NodeData : Type := mkNodeData {
  el_id : string;              (* element.id *)
  el_left : Z;                 (* element.offsetLeft, set through style.left *)
  el_top : Z;                  (* element.offsetTop, set through style.top *)
  el_width : string;           (* element.style.width *)
  el_height : string;          (* element.style.height *)
  controls : list Control;     (* in document order *)
  status : option string;      (* text of the .node-status line, if any *)
  ntype : string;              (* type *)
  outputs : list (string * value);
  properties : value;
  codeBlockProperties : value;
  isContainer : bool;
  children : list string;
  parentId : option string
}.

(** A value of the [content] map of a serialized node. *)
Inductive ContentValue : Type :=
| CStr (s : string)
| CBool (b : bool).

(** A node of a session document.  A field that a document may omit is an
    option. *)
Record NodeState : Type := mkNodeState {
  ns_id : option string;
  ns_type : string;
  ns_x : Z;
  ns_y : Z;
  ns_width : option string;
  ns_height : option string;
  ns_content : list (string * ContentValue);
  ns_properties : option value;
  ns_codeBlockProperties : option value;
  ns_parentId : option string;
  ns_children : option (list string)
}.

(** A coordinate of the canvas offset: a number, or [null], which is what
    a saved session holds in the place of a number that is not finite. *)
Definition coordinate : Type := option number.

(** A session document: what [JSON.parse] makes of the text of a session
    whose fields, where present, have the types the serializer writes. *)
Record SessionDoc : Type := mkSessionDoc {
  d_nodes : option (list NodeState);
  d_connections : option (list Connection);
  d_canvasOffset : option (coordinate * coordinate);
  d_scale : option number;
  d_nodeCounter : option Z
}.

(** The text handed to [deserialize], seen through [JSON.parse].  A text
    that denotes a number, a string, a boolean or an array has none of
    the fields that [deserialize] reads, as the document without fields;
    an object with a field of another type than the serializer writes
    has no counterpart here. *)
Inductive JSONText : Type :=
| Malformed (message : string)   (* JSON.parse throws a SyntaxError *)
| NullText                       (* the text null *)
| Document (doc : SessionDoc).

(** [this.history] *)
Record History : Type := mkHistory {
  undoStack : list SessionDoc;   (* the top of the stack is the last element *)
  redoStack : list SessionDoc;
  maxHistory : nat;
  isRestoring : bool
}.

(** The editor: the fields of the [NodeIDE] instance that the engine
    uses, and the notifications shown with [alert]. *)
Record Editor : Type := mkEditor {
  nodes : list (string * NodeData);   (* a Map, in insertion order *)
  connections : list Connection;
  canvasOffset : coordinate * coordinate;
  scale : number;
  nodeCounter : Z;
  history : History;
  connectionStart : option Endpoint;
  alerts : list string
}.

(** How a call of the engine completes. [Exhausted] is the end of the
    recursion budget: it stands for a recursion deeper than any given
    bound, which the program ends with a [RangeError].  [Astray] is a
    call that the embedding does not follow to its end: text written by
    the user was evaluated and did more than return or throw a value
    (see [Called] below), two objects were compared by reference, a
    node was created beyond the safe integers or from options that are
    not plain.  From there on the editor of the embedding is the state
    in which it stopped following the program, and says nothing of the
    program. *)
Inductive Completion : Type :=
| Normal
| Throw (message : string)
| Exhausted
| Astray.

(** How a node processor completes: it returns, it throws an error with
    a message, or it is not followed to its end. *)
Inductive Outcome : Type :=
| Returned
| Thrown (message : string)
| Strayed.

(** How a call of a function made from the user's text completes: it
    returns a value, it throws a value (any value: [throw null] is a
    statement as good as [throw new Error(...)]), or it strays: it does
    not return, it changes the row it was given or anything else it can
    reach, its result depends on more than the row (the clock, a random
    number, a variable of the page), or it yields something that is no
    plain value. *)
Inductive Called (A : Type) : Type :=
| Returns (a : A)
| Throws (thrown : value)
| Strays.
Arguments Returns {A} a.
Arguments Throws {A} thrown.
Arguments Strays {A}.

(** An error object of the engine, as far as the program reads one: its
    [message]. *)
Definition error (message : string) : value := VObj [("message", VStr message)].

(** A step of the engine as a call: its exception is an error object. *)
Definition called_of_result {A : Type} (r : result A) : Called A :=
  match r with
  | Ok a => Returns a
  | Raise m => Throws (error m)
  end.

(** A node processor mutates the node it is given and may throw. *)
Definition Processor : Type := Editor -> NodeData -> NodeData * Outcome.

(** What a processor can mutate of its node: the outputs, the controls
    and the status line. *)
Record NodeEffect : Type := mkNodeEffect {
  e_outputs : list (string * value);
  e_controls : list Control;
  e_status : option string
}.

(** The options object of [createNode]. *)
Record Options : Type := mkOptions {
  o_content : list (string * ContentValue);
  o_id : option string;
  o_width : option string;
  o_height : option string;
  o_properties : option value;
  o_codeBlockProperties : option value;
  o_parentId : option string;
  o_children : option (list string);
  o_fromSerialization : bool
}.

(** What the program takes from its host and this development does not
    define: the interpreter behind [new Function], the JSON codec, and the
    node types whose processors and content templates drive browser
    facilities (regular expressions, speech, OCR, PDF, mail and the
    like).  A function made by [new Function] returns a value, throws a
    value or strays on each argument.  Of an asynchronous processor the
    part that runs before its first [await] is what the registry entry
    stands for. *)
Class Host : Type := mkHost {
  (* new Function(param, body): the message of a SyntaxError, or a
     function *)
  newFunction : string -> string -> result (value -> Called value);
  (* JSON.parse(text) *)
  JSON_parse : string -> result value;
  (* JSON.stringify(v, null, 2) *)
  JSON_stringify : value -> value;
  (* the processor registered for an external node type: what it leaves
     in the node, and how it completes *)
  externalProcessor : string -> Editor -> NodeData -> NodeEffect * Outcome;
  (* the controls and the status line an external template creates *)
  externalTemplate : string -> Options -> list Control * option string
}.

(** *** Setters *)

Definition set_outputs (o : list (string * value)) (nd : NodeData) : NodeData :=
  mkNodeData (el_id nd) (el_left nd) (el_top nd) (el_width nd) (el_height nd)
    (controls nd) (status nd) (ntype nd) o (properties nd)
    (codeBlockProperties nd) (isContainer nd) (children nd) (parentId nd).

Definition set_controls (cs : list Control) (nd : NodeData) : NodeData :=
  mkNodeData (el_id nd) (el_left nd) (el_top nd) (el_width nd) (el_height nd)
    cs (status nd) (ntype nd) (outputs nd) (properties nd)
    (codeBlockProperties nd) (isContainer nd) (children nd) (parentId nd).

Definition set_status_text (s : option string) (nd : NodeData) : NodeData :=
  mkNodeData (el_id nd) (el_left nd) (el_top nd) (el_width nd) (el_height nd)
    (controls nd) s (ntype nd) (outputs nd) (properties nd)
    (codeBlockProperties nd) (isContainer nd) (children nd) (parentId nd).

Definition set_nodes (ns : list (string * NodeData)) (ed : Editor) : Editor :=
  mkEditor ns (connections ed) (canvasOffset ed) (scale ed) (nodeCounter ed)
    (history ed) (connectionStart ed) (alerts ed).

Definition set_connections (cs : list Connection) (ed : Editor) : Editor :=
  mkEditor (nodes ed) cs (canvasOffset ed) (scale ed) (nodeCounter ed)
    (history ed) (connectionStart ed) (alerts ed).

Definition set_view (off : coordinate * coordinate) (sc : number) (ed : Editor)
  : Editor :=
  mkEditor (nodes ed) (connections ed) off sc (nodeCounter ed)
    (history ed) (connectionStart ed) (alerts ed).

Definition set_nodeCounter (n : Z) (ed : Editor) : Editor :=
  mkEditor (nodes ed) (connections ed) (canvasOffset ed) (scale ed) n
    (history ed) (connectionStart ed) (alerts ed).

Definition set_history (h : History) (ed : Editor) : Editor :=
  mkEditor (nodes ed) (connections ed) (canvasOffset ed) (scale ed)
    (nodeCounter ed) h (connectionStart ed) (alerts ed).

Definition set_connectionStart (s : option Endpoint) (ed : Editor) : Editor :=
  mkEditor (nodes ed) (connections ed) (canvasOffset ed) (scale ed)
    (nodeCounter ed) (history ed) s (alerts ed).

(** [alert(message)] *)
Definition alert (message : string) (ed : Editor) : Editor :=
  mkEditor (nodes ed) (connections ed) (canvasOffset ed) (scale ed)
    (nodeCounter ed) (history ed) (connectionStart ed) (alerts ed ++ [message]).

Definition set_isRestoring (b : bool) (ed : Editor) : Editor :=
  set_history (mkHistory (undoStack (history ed)) (redoStack (history ed))
                 (maxHistory (history ed)) b) ed.

(** [this.nodes.get(id)] *)
Definition nodes_get (ed : Editor) (id : string) : option NodeData :=
  assoc id (nodes ed).

(** [this.nodes.set(id, nd)]: an existing key keeps its place. *)
Definition nodes_set (id : string) (nd : NodeData) (ed : Editor) : Editor :=
  set_nodes (if has_key id (nodes ed)
             then replace_prop id nd (nodes ed)
             else nodes ed ++ [(id, nd)]) ed.

(** *** The DOM queries of the processors *)

Definition is_textarea (c : Control) : bool :=
  match tag c with Textarea => true | _ => false end.

Definition is_input (c : Control) : bool :=
  match tag c with InputText | InputCheckbox => true | _ => false end.

Definition is_select (c : Control) : bool :=
  match tag c with SelectBox => true | _ => false end.

Definition has_param (p : string) (c : Control) : bool :=
  match dataParam c with Some q => String.eqb p q | None => false end.

(** [element.querySelector(sel)]: the first control that matches. *)
Definition querySelector (sel : Control -> bool) (nd : NodeData) : option Control :=
  find sel (controls nd).

Definition set_cvalue (s : string) (c : Control) : Control :=
  mkControl (tag c) (dataParam c) (dataOutput c) s (cchecked c).

Fixpoint set_first (sel : Control -> bool) (s : string) (cs : list Control)
  : list Control :=
  match cs with
  | [] => []
  | c :: r => if sel c then set_cvalue s c :: r else c :: set_first sel s r
  end.

(** [element.querySelector(sel).value = s] for a control that exists. *)
Definition assign_value (sel : Control -> bool) (s : string) (nd : NodeData)
  : NodeData :=
  set_controls (set_first sel s (controls nd)) nd.

(** [nodeData.outputs[k] = v] for the fixed output names. *)
Definition set_output (k : string) (v : value) (nd : NodeData) : NodeData :=
  set_outputs (set_prop (outputs nd) k v) nd.

(** [statusDiv.textContent = s]; [statusDiv] is [null] when the element has
    no status line. *)
Definition set_status (s : string) (nd : NodeData) : NodeData * Outcome :=
  match status nd with
  | Some _ => (set_status_text (Some s) nd, Returned)
  | None => (nd, Thrown "Cannot set properties of null (setting 'textContent')")
  end.

Definition targets (id sock : string) (c : Connection) : bool :=
  String.eqb (ep_node (c_to c)) id && String.eqb (ep_socket (c_to c)) sock.

(** [this.connections.find(c => c.to.node === nodeData.element.id &&
    c.to.socket === sock)] *)
Definition find_input (ed : Editor) (nd : NodeData) (sock : string)
  : option Connection :=
  find (targets (el_id nd) sock) (connections ed).

(** [this.nodes.get(conn.from.node).outputs[conn.from.socket]] *)
Definition source_output (ed : Editor) (conn : Connection) : result value :=
  match nodes_get ed (ep_node (c_from conn)) with
  | None => Raise "Cannot read properties of undefined (reading 'outputs')"
  | Some src => get (VObj (outputs src)) (ep_socket (c_from conn))
  end.

Definition null_value : string := "Cannot read properties of null (reading 'value')".

(** ** The node processors *)

(** Sequencing of two steps on a node: the second runs when the first
    completes normally. *)
Definition and_then (r : NodeData * Outcome)
  (k : NodeData -> NodeData * Outcome) : NodeData * Outcome :=
  match r with
  | (nd, Returned) => k nd
  | other => other
  end.

(** [array.filter(f)]: the rows are tried in order, and the first call
    that does not return ends the loop. *)
Fixpoint array_filter (f : value -> Called value) (l : list value)
  : Called (list value) :=
  match l with
  | [] => Returns []
  | x :: r =>
      match f x with
      | Returns keep =>
          match array_filter f r with
          | Returns r' => Returns (if truthy keep then x :: r' else r')
          | other => other
          end
      | Throws v => Throws v
      | Strays => Strays
      end
  end.

(** [array.map(f)] *)
Fixpoint array_map (f : value -> Called value) (l : list value)
  : Called (list value) :=
  match l with
  | [] => Returns []
  | x :: r =>
      match f x with
      | Returns y =>
          match array_map f r with
          | Returns r' => Returns (y :: r')
          | other => other
          end
      | Throws v => Throws v
      | Strays => Strays
      end
  end.

(** The [catch (e)] block of the filter and of the transform processor:
    [nodeData.outputs.data_out = []; statusDiv.textContent =
    `Error: ${e.message}`].  The output is emptied first; reading
    [e.message] throws when [e] is [null] or [undefined]. *)
Definition catch_evaluation (e : value) (nd : NodeData) : NodeData * Outcome :=
  let nd1 := set_output "data_out" (VArr []) nd in
  match get e "message" with
  | Raise m => (nd1, Thrown m)
  | Ok message =>
      match toString message with
      | Raise m => (nd1, Thrown m)
      | Ok s => set_status ("Error: " ++ s)%string nd1
      end
  end.

Definition newline : ascii := ascii_of_nat 10.

(** One row of the CSV parser: [headers.forEach((header, i) => row[header] =
    values[i])].  Assigning a string to [__proto__] creates no property. *)
Fixpoint csv_row (headers : list string) (i : nat) (values : list string)
  (row : list (string * value)) : list (string * value) :=
  match headers with
  | [] => row
  | h :: hs =>
      let v := match nth_error values i with
               | Some s => VStr s
               | None => VUndefined
               end in
      csv_row hs (S i) values
        (if String.eqb h "__proto__" then row else set_prop row h v)
  end.

(** The [Map] of the merge processor: keys compared by [sameValueZero].
    [None] where a comparison has no answer. *)
Fixpoint map_set (m : list (value * value)) (k v : value)
  : option (list (value * value)) :=
  match m with
  | [] => Some [(k, v)]
  | (k', v') :: r =>
      match sameValueZero k' k with
      | Some true => Some ((k', v) :: r)
      | Some false =>
          match map_set r k v with
          | Some r' => Some ((k', v') :: r')
          | None => None
          end
      | None => None
      end
  end.

Fixpoint map_get (m : list (value * value)) (k : value) : option value :=
  match m with
  | [] => Some VUndefined
  | (k', v') :: r =>
      match sameValueZero k' k with
      | Some true => Some v'
      | Some false => map_get r k
      | None => None
      end
  end.

(** [data2.map(item => [item[rightKey], item])] *)
Fixpoint key_pairs (rightKey : string) (data2 : list value)
  : result (list (value * value)) :=
  match data2 with
  | [] => Ok []
  | item :: r =>
      match get item rightKey with
      | Raise e => Raise e
      | Ok k =>
          match key_pairs rightKey r with
          | Raise e => Raise e
          | Ok pairs => Ok ((k, item) :: pairs)
          end
      end
  end.

(** [new Map(pairs)] *)
Fixpoint new_Map (pairs m : list (value * value))
  : option (list (value * value)) :=
  match pairs with
  | [] => Some m
  | (k, item) :: r =>
      match map_set m k item with
      | Some m' => new_Map r m'
      | None => None
      end
  end.

(** [data1.map(item1 => { const item2 = map2.get(item1[leftKey]);
    return item2 ? { ...item1, ...item2 } : item1; })].  [None] where a
    comparison of the map has no answer. *)
Fixpoint merge_rows (leftKey : string) (map2 : list (value * value))
  (data1 : list value) : option (result (list value)) :=
  match data1 with
  | [] => Some (Ok [])
  | item1 :: r =>
      match get item1 leftKey with
      | Raise e => Some (Raise e)
      | Ok k =>
          match map_get map2 k with
          | None => None
          | Some item2 =>
              match merge_rows leftKey map2 r with
              | Some (Ok r') =>
                  Some (Ok ((if truthy item2 then spread2 item1 item2
                             else item1) :: r'))
              | other => other
              end
          end
      end
  end.

(** The two join keys: [key.includes('=') ? key.split('=').map(k =>
    k.trim()) : [key.trim(), key.trim()]]. *)
Definition join_keys (key : string) : string * string :=
  if includes "=" key then
    match map trim (split "=" key) with
    | a :: b :: _ => (a, b)
    | [a] => (a, "undefined")
    | [] => ("undefined", "undefined")
    end
  else (trim key, trim key).

(** The grouping of the aggregate processor:
    [inputData.reduce((acc, row) => { const key = row[groupBy];
    if (!acc[key]) acc[key] = []; acc[key].push(row); return acc; }, {})].
    A key that names an inherited member finds that member and not an
    array. *)
Fixpoint group_rows (groupBy : string) (rows : list value)
  (acc : list (string * list value)) : result (list (string * list value)) :=
  match rows with
  | [] => Ok acc
  | row :: rest =>
      match get row groupBy with
      | Raise e => Raise e
      | Ok key =>
          match toString key with
          | Raise e => Raise e
          | Ok k =>
              match assoc k acc with
              | Some rs => group_rows groupBy rest (replace_prop k (rs ++ [row]) acc)
              | None =>
                  if inherited k then Raise "acc[key].push is not a function"
                  else group_rows groupBy rest (set_prop acc k [row])
              end
          end
      end
  end.

(** [parseFloat(v) || 0] *)
Definition parseFloat_or_0 (v : value) : result number :=
  match toString v with
  | Raise e => Raise e
  | Ok s =>
      let x := parseFloat_string s in
      Ok (if truthy (VNum x) then x else num_of_Z 0)
  end.

(** [rows.reduce((sum, row) => sum + (parseFloat(row[aggKey]) || 0), 0)] *)
Fixpoint sum_rows (aggKey : string) (rows : list value) (sum : number)
  : result number :=
  match rows with
  | [] => Ok sum
  | row :: rest =>
      match get row aggKey with
      | Raise e => Raise e
      | Ok v =>
          match parseFloat_or_0 v with
          | Raise e => Raise e
          | Ok x => sum_rows aggKey rest (num_add sum x)
          end
      end
  end.

(** The value of one group, by the [switch (aggFunc)]. *)
Definition aggregate_value (aggFunc aggKey : string) (rows : list value)
  : result value :=
  if String.eqb aggFunc "count" then Ok (VNum (num_of_nat (List.length rows)))
  else if String.eqb aggFunc "sum" then
    match sum_rows aggKey rows (num_of_Z 0) with
    | Raise e => Raise e
    | Ok s => Ok (VNum s)
    end
  else if String.eqb aggFunc "avg" then
    match sum_rows aggKey rows (num_of_Z 0) with
    | Raise e => Raise e
    | Ok s =>
        Ok (VNum (if 0 <? List.length rows
                  then num_div s (num_of_nat (List.length rows))
                  else num_of_Z 0))
    end
  else Ok VUndefined.

(** [Object.keys(groups).map(key => ({ [groupBy]: key,
    [`${aggFunc}_of_${aggKey}`]: value }))] *)
Fixpoint aggregate_groups (groupBy aggFunc aggKey : string)
  (groups : list (string * list value)) : result (list value) :=
  match groups with
  | [] => Ok []
  | (key, rows) :: rest =>
      match aggregate_value aggFunc aggKey rows with
      | Raise e => Raise e
      | Ok v =>
          match aggregate_groups groupBy aggFunc aggKey rest with
          | Raise e => Raise e
          | Ok rest' =>
              Ok (VObj (set_prop (set_prop [] groupBy (VStr key))
                          (aggFunc ++ "_of_" ++ aggKey)%string v) :: rest')
          end
      end
  end.

Section Processors.

Context {host : Host}.

(** [processTextNode] *)
Definition processTextNode : Processor := fun ed nd =>
  match find_input ed nd "text_in" with
  | Some inputConn =>
      match source_output ed inputConn with
      | Raise e => (nd, Thrown e)
      | Ok v =>
          let inputText := or_else v (VStr "") in
          match querySelector is_textarea nd with
          | None => (nd, Thrown "Cannot set properties of null (setting 'value')")
          | Some _ =>
              match toString inputText with
              | Raise e => (nd, Thrown e)
              | Ok s =>
                  (set_output "text_out" inputText
                     (assign_value is_textarea s nd), Returned)
              end
          end
      end
  | None =>
      match querySelector is_textarea nd with
      | None => (nd, Thrown null_value)
      | Some t => (set_output "text_out" (VStr (cvalue t)) nd, Returned)
      end
  end.

(** [processImportNode] *)
Definition processImportNode : Processor := fun ed nd =>
  match querySelector is_textarea nd with
  | None => (nd, Thrown null_value)
  | Some t => (set_output "data_out" (VStr (cvalue t)) nd, Returned)
  end.

(** [textarea.value = v] for the first textarea of the node. *)
Definition write_textarea (v : value) (nd : NodeData) : NodeData * Outcome :=
  match querySelector is_textarea nd with
  | None => (nd, Thrown "Cannot set properties of null (setting 'value')")
  | Some _ =>
      match toString v with
      | Raise e => (nd, Thrown e)
      | Ok s => (assign_value is_textarea s nd, Returned)
      end
  end.

(** [processExportNode] *)
Definition processExportNode : Processor := fun ed nd =>
  match find_input ed nd "data_in" with
  | Some inputConn =>
      match source_output ed inputConn with
      | Raise e => (nd, Thrown e)
      | Ok inputData =>
          if typeof_object inputData
          then write_textarea (JSON_stringify inputData) nd
          else write_textarea (or_else inputData (VStr "")) nd
      end
  | None => write_textarea (VStr "No input connected.") nd
  end.

(** [processCsvNode] *)
Definition processCsvNode : Processor := fun ed nd =>
  match find_input ed nd "csv_in" with
  | Some inputConn =>
      match source_output ed inputConn with
      | Raise e => (nd, Thrown e)
      | Ok v =>
          match or_else v (VStr "") with
          | VStr csvText =>
              match split newline (trim csvText) with
              | line0 :: line1 :: more =>
                  let headers := map trim (split "," line0) in
                  (set_output "data_out"
                     (VArr (map (fun line =>
                                   VObj (csv_row headers 0
                                           (map trim (split "," line)) []))
                                (line1 :: more))) nd, Returned)
              | _ => (set_output "data_out" (VArr []) nd, Returned)
              end
          | _ => (nd, Thrown "csvText.trim is not a function")
          end
      end
  | None => (set_output "data_out" (VArr []) nd, Returned)
  end.

(** [operation === 'parse' ? {} : ''] *)
Definition json_neutral (operation : string) : value :=
  if String.eqb operation "parse" then VObj [] else VStr "".

(** [processJsonNode] *)
Definition processJsonNode : Processor := fun ed nd =>
  match querySelector (fun c => is_select c && has_param "operation" c) nd with
  | None => (nd, Thrown null_value)
  | Some sel =>
      let operation := cvalue sel in
      match find_input ed nd "data_in" with
      | None =>
          and_then (set_status "No input connected." nd)
            (fun nd1 => (set_output "data_out" (json_neutral operation) nd1, Returned))
      | Some inputConn =>
          match source_output ed inputConn with
          | Raise e => (nd, Thrown e)
          | Ok inputData =>
              let tried : NodeData * Outcome :=
                if String.eqb operation "parse" then
                  match toString inputData with
                  | Raise e => (nd, Thrown e)
                  | Ok text =>
                      match JSON_parse text with
                      | Raise e => (nd, Thrown e)
                      | Ok v =>
                          set_status "Success" (set_output "data_out" v nd)
                      end
                  end
                else
                  set_status "Success"
                    (set_output "data_out" (JSON_stringify inputData) nd) in
              match tried with
              | (nd1, Thrown e) =>
                  set_status ("Error: " ++ e)%string
                    (set_output "data_out" (json_neutral operation) nd1)
              | done => done
              end
          end
      end
  end.

(** [processXmlNode] *)
Definition processXmlNode : Processor := fun ed nd =>
  and_then (set_status "XML processing is not yet implemented." nd)
    (fun nd1 => (set_output "data_out" (VObj []) nd1, Returned)).

(** [processSplitNode] *)
Definition processSplitNode : Processor := fun ed nd =>
  and_then (set_status "Split logic is not yet implemented." nd)
    (fun nd1 =>
       (set_output "data_out_2" (VArr [])
          (set_output "data_out_1" (VArr []) nd1), Returned)).

(** [processFilterNode] *)
Definition processFilterNode : Processor := fun ed nd =>
  match find_input ed nd "data_in" with
  | Some inputConn =>
      match source_output ed inputConn with
      | Raise e => (nd, Thrown e)
      | Ok inputData =>
          match querySelector
                  (fun c => is_textarea c && has_param "condition" c) nd with
          | None => (nd, Thrown null_value)
          | Some cond =>
              let condition := cvalue cond in
              match inputData with
              | VArr rows =>
                  if String.eqb condition "" then
                    set_status "" (set_output "data_out" inputData nd)
                  else
                    match newFunction "row" ("return " ++ condition)%string with
                    | Raise e => catch_evaluation (error e) nd
                    | Ok filterFunc =>
                        match array_filter filterFunc rows with
                        | Throws e => catch_evaluation e nd
                        | Strays => (nd, Strayed)
                        | Returns kept =>
                            match set_status
                                    ("Filtered " ++ string_of_nat (List.length rows)
                                     ++ " rows to "
                                     ++ string_of_nat (List.length kept)
                                     ++ ".")%string
                                    (set_output "data_out" (VArr kept) nd) with
                            | (nd1, Thrown e) => catch_evaluation (error e) nd1
                            | done => done
                            end
                        end
                    end
              | _ =>
                  set_status "Error: Input is not an array."
                    (set_output "data_out" (VArr []) nd)
              end
          end
      end
  | None =>
      set_status "No input connected." (set_output "data_out" (VArr []) nd)
  end.

(** [processTransformNode] *)
Definition processTransformNode : Processor := fun ed nd =>
  match find_input ed nd "data_in" with
  | Some inputConn =>
      match source_output ed inputConn with
      | Raise e => (nd, Thrown e)
      | Ok inputData =>
          match querySelector
                  (fun c => is_textarea c && has_param "logic" c) nd with
          | None => (nd, Thrown null_value)
          | Some logic =>
              match inputData with
              | VArr rows =>
                  match newFunction "row" (cvalue logic) with
                  | Raise e => catch_evaluation (error e) nd
                  | Ok transformFunc =>
                      match array_map transformFunc rows with
                      | Throws e => catch_evaluation e nd
                      | Strays => (nd, Strayed)
                      | Returns mapped =>
                          match set_status
                                  ("Transformed "
                                   ++ string_of_nat (List.length rows)
                                   ++ " rows.")%string
                                  (set_output "data_out" (VArr mapped) nd) with
                          | (nd1, Thrown e) => catch_evaluation (error e) nd1
                          | done => done
                          end
                      end
                  end
              | _ =>
                  set_status "Error: Input is not an array."
                    (set_output "data_out" (VArr []) nd)
              end
          end
      end
  | None =>
      set_status "No input connected." (set_output "data_out" (VArr []) nd)
  end.

(** [processMergeNode] *)
Definition processMergeNode : Processor := fun ed nd =>
  match querySelector (fun c => is_input c && has_param "key" c) nd with
  | None => (nd, Thrown null_value)
  | Some keyInput =>
      let key := cvalue keyInput in
      match find_input ed nd "data_in_1", find_input ed nd "data_in_2" with
      | Some conn1, Some conn2 =>
          if String.eqb key "" then
            set_status "Join key is required."
              (set_output "data_out" (VArr []) nd)
          else
            let (leftKey, rightKey) := join_keys key in
            match source_output ed conn1 with
            | Raise e => (nd, Thrown e)
            | Ok data1 =>
                match source_output ed conn2 with
                | Raise e => (nd, Thrown e)
                | Ok data2 =>
                    match data1, data2 with
                    | VArr rows1, VArr rows2 =>
                        match key_pairs rightKey rows2 with
                        | Raise e => (nd, Thrown e)
                        | Ok pairs =>
                            match new_Map pairs [] with
                            | None => (nd, Strayed)
                            | Some map2 =>
                                match merge_rows leftKey map2 rows1 with
                                | None => (nd, Strayed)
                                | Some (Raise e) => (nd, Thrown e)
                                | Some (Ok merged) =>
                                    set_status
                                      ("Merged "
                                       ++ string_of_nat (List.length rows1)
                                       ++ " and "
                                       ++ string_of_nat (List.length rows2)
                                       ++ " rows into "
                                       ++ string_of_nat (List.length merged)
                                       ++ ".")%string
                                      (set_output "data_out" (VArr merged) nd)
                                end
                            end
                        end
                    | _, _ =>
                        set_status "Inputs must be arrays."
                          (set_output "data_out" (VArr []) nd)
                    end
                end
            end
      | _, _ =>
          set_status "Both inputs must be connected."
            (set_output "data_out" (VArr []) nd)
      end
  end.

(** [processAggregateNode] *)
Definition processAggregateNode : Processor := fun ed nd =>
  match querySelector (fun c => is_input c && has_param "groupBy" c) nd with
  | None => (nd, Thrown null_value)
  | Some groupByInput =>
  match querySelector (fun c => is_select c && has_param "aggFunc" c) nd with
  | None => (nd, Thrown null_value)
  | Some aggFuncSelect =>
  match querySelector (fun c => is_input c && has_param "aggKey" c) nd with
  | None => (nd, Thrown null_value)
  | Some aggKeyInput =>
      let groupBy := cvalue groupByInput in
      let aggFunc := cvalue aggFuncSelect in
      let aggKey := cvalue aggKeyInput in
      match find_input ed nd "data_in" with
      | None =>
          set_status "No input connected." (set_output "data_out" (VArr []) nd)
      | Some inputConn =>
          if String.eqb groupBy "" || String.eqb aggKey "" then
            set_status "Group By and Of Key are required."
              (set_output "data_out" (VArr []) nd)
          else
            match source_output ed inputConn with
            | Raise e => (nd, Thrown e)
            | Ok (VArr rows) =>
                match group_rows groupBy rows [] with
                | Raise e => (nd, Thrown e)
                | Ok groups =>
                    match aggregate_groups groupBy aggFunc aggKey groups with
                    | Raise e => (nd, Thrown e)
                    | Ok res =>
                        set_status
                          ("Aggregated " ++ string_of_nat (List.length rows)
                           ++ " rows into " ++ string_of_nat (List.length res)
                           ++ " groups.")%string
                          (set_output "data_out" (VArr res) nd)
                    end
                end
            | Ok _ =>
                set_status "Input must be an array."
                  (set_output "data_out" (VArr []) nd)
            end
      end
  end end end.

End Processors.

(** ** The processor registry and the propagation engine *)

(** A lookup [table[key]] in an object literal used as a table: an own
    entry, a member inherited from [Object.prototype], or [undefined]. *)
Inductive Lookup (A : Type) : Type :=
| Own (a : A)
| InheritedMember (name : string)
| Absent.
Arguments Own {A} a.
Arguments InheritedMember {A} name.
Arguments Absent {A}.

(** The keys of [this.nodeProcessors] whose processors belong to the
    host. *)
Definition externalTypes : list string :=
  [ "find_replace"; "spell_check"; "translation"; "summarization";
    "sentiment_analysis"; "auto_format"; "template"; "macro"; "ocr"; "tts";
    "email"; "pdf"; "html_render"; "qr_code"; "social_share"; "screenshot";
    "print" ].

Definition apply_effect (nd : NodeData) (r : NodeEffect * Outcome)
  : NodeData * Outcome :=
  (set_status_text (e_status (fst r))
     (set_controls (e_controls (fst r))
        (set_outputs (e_outputs (fst r)) nd)), snd r).

(** [forEach] over a list, with a body that may throw. *)
Fixpoint forEach {A : Type} (l : list A)
  (body : A -> Editor -> Editor * Completion) (ed : Editor)
  : Editor * Completion :=
  match l with
  | [] => (ed, Normal)
  | a :: r =>
      match body a ed with
      | (ed', Normal) => forEach r body ed'
      | other => other
      end
  end.

(** Calling a member inherited from [Object.prototype] as
    [processor(nodeData)], with no receiver: [Object] and [toString]
    return, the others throw a [TypeError]. *)
Definition inherited_call (name : string) : Completion :=
  if String.eqb name "constructor" || String.eqb name "toString"
  then Normal
  else Throw "TypeError".

Section Engine.

Context {host : Host}.

(** [this.nodeProcessors[type]] *)
Definition nodeProcessors (type : string) : Lookup Processor :=
  match assoc type
          [ ("text", processTextNode); ("import", processImportNode);
            ("export", processExportNode); ("csv", processCsvNode);
            ("json", processJsonNode); ("xml", processXmlNode);
            ("filter", processFilterNode);
            ("transform", processTransformNode);
            ("merge", processMergeNode); ("split", processSplitNode);
            ("aggregate", processAggregateNode) ] with
  | Some p => Own p
  | None =>
      if existsb (String.eqb type) externalTypes
      then Own (fun ed nd => apply_effect nd (externalProcessor type ed nd))
      else if inherited type then InheritedMember type
      else Absent
  end.

(** The first half of [processNodeData]:
    [const processor = this.nodeProcessors[nodeData.type];
     if (processor) { processor(nodeData); }] *)
Definition run_processor (ed : Editor) (nodeId : string) (nodeData : NodeData)
  : Editor * Completion :=
  match nodeProcessors (ntype nodeData) with
  | Own processor =>
      let (nd', outcome) := processor ed nodeData in
      (set_nodes (replace_prop nodeId nd' (nodes ed)) ed,
       match outcome with
       | Returned => Normal
       | Thrown e => Throw e
       | Strayed => Astray
       end)
  | InheritedMember name => (ed, inherited_call name)
  | Absent => (ed, Normal)
  end.

(** [processNodeData(nodeId)].  The recursion of the program is not
    bounded; the first argument bounds its depth here. *)
Fixpoint processNodeData (fuel : nat) (nodeId : string) (ed : Editor)
  : Editor * Completion :=
  match fuel with
  | O => (ed, Exhausted)
  | S fuel' =>
      match nodes_get ed nodeId with
      | None => (ed, Normal)
      | Some nodeData =>
          match run_processor ed nodeId nodeData with
          | (ed1, Normal) =>
              forEach (connections ed1)
                (fun c ed' =>
                   if String.eqb (ep_node (c_from c)) nodeId
                   then processNodeData fuel' (ep_node (c_to c)) ed'
                   else (ed', Normal))
                ed1
          | other => other
          end
      end
  end.

End Engine.

(** ** Node creation *)

(** [options[key] || ''] placed in a template. *)
Definition option_text (o : Options) (key : string) : string :=
  match assoc key (o_content o) with
  | Some (CStr s) => s
  | Some (CBool true) => "true"
  | _ => ""
  end.

(** [options[key] === s] *)
Definition option_is (o : Options) (key s : string) : bool :=
  match assoc key (o_content o) with
  | Some (CStr t) => String.eqb t s
  | _ => false
  end.

Definition first_nonempty (a b : string) : string :=
  if String.eqb a "" then b else a.

Definition defaultLogic : string :=
  ("// Modify the 'row' object and return it." ++ String newline
   ("// Example: return { ...row, new_prop: 'value' };" ++ String newline
    "return row;"))%string.

Definition param_control (t : ControlTag) (name value : string) : Control :=
  mkControl t (Some name) None value false.

Definition output_control (t : ControlTag) (name value : string) : Control :=
  mkControl t None (Some name) value false.

(** The layout types: [layoutNodeTypes]. *)
Definition layoutNodeTypes : list string :=
  [ "container"; "column"; "grid"; "flex"; "tabs"; "accordion"; "card";
    "sidebar"; "header_footer" ].

(** The types rendered by [createPlaceholderNodeContent]. *)
Definition placeholderTypes : list string :=
  [ "grid"; "flex"; "tabs"; "accordion"; "card"; "sidebar"; "header_footer";
    "spacer" ].

(** The node types whose templates are given here: those whose processors
    are defined above, and the layout types. *)
Definition coreTypes : list string :=
  [ "text"; "import"; "export"; "csv"; "json"; "xml"; "split"; "filter";
    "transform"; "merge"; "aggregate"; "container"; "column" ]
  ++ placeholderTypes.

(** A character that the HTML parser takes as it is, in the content of a
    textarea and in a quoted attribute value: none of the null character,
    the carriage return, the double quote, the ampersand and the left
    angle bracket. *)
Definition plain_char (c : ascii) : bool :=
  let n := nat_of_ascii c in
  negb ((n =? 0) || (n =? 13) || (n =? 34) || (n =? 38) || (n =? 60)).

Fixpoint plain_chars (s : string) : bool :=
  match s with
  | EmptyString => true
  | String c r => plain_char c && plain_chars r
  end.

(** A text that comes out of the markup as it went in: plain characters,
    and no line feed in front, which the parser drops at the start of a
    textarea. *)
Definition plain_text (s : string) : bool :=
  plain_chars s
  && match s with
     | String c _ => negb (nat_of_ascii c =? 10)
     | EmptyString => true
     end.

(** The options that the core templates paste into the value of an
    input field, which keeps no line feed. *)
Definition attributeOptions : list string := ["key"; "groupBy"; "aggKey"].

Definition plain_option (kv : string * ContentValue) : bool :=
  match snd kv with
  | CStr s =>
      plain_text s
      && (negb (existsb (String.eqb (fst kv)) attributeOptions)
          || negb (includes newline s))
  | CBool _ => true
  end.

(** The templates of the core types: the controls and the status line
    that the markup of [createTextNodeContent] and its siblings creates,
    for options that are plain (see [createNode]): the text pasted in a
    control is then the value of the control. *)
Definition coreTemplate (type : string) (o : Options)
  : list Control * option string :=
  if String.eqb type "text" then
    ([output_control Textarea "text_out" (option_text o "text")], None)
  else if String.eqb type "import" then
    ([output_control Textarea "data_out"
        (first_nonempty (option_text o "data_out") (option_text o "text"))],
     None)
  else if String.eqb type "export" then
    ([mkControl Textarea None None "" false], None)
  else if String.eqb type "json" then
    ([param_control SelectBox "operation"
        (if option_is o "operation" "stringify" then "stringify" else "parse")],
     Some "")
  else if String.eqb type "xml" then
    ([], Some "Note: XML parsing not yet implemented.")
  else if String.eqb type "split" then
    ([], Some "Note: Split logic not yet implemented.")
  else if String.eqb type "filter" then
    ([param_control Textarea "condition" (option_text o "condition")], Some "")
  else if String.eqb type "transform" then
    ([param_control Textarea "logic"
        (first_nonempty (option_text o "logic") defaultLogic)], Some "")
  else if String.eqb type "merge" then
    ([param_control InputText "key" (option_text o "key")], Some "")
  else if String.eqb type "aggregate" then
    ([param_control InputText "groupBy" (option_text o "groupBy");
      param_control SelectBox "aggFunc"
        (if option_is o "aggFunc" "count" then "count"
         else if option_is o "aggFunc" "avg" then "avg" else "sum");
      param_control InputText "aggKey" (option_text o "aggKey")],
     Some "")
  else (* csv, container, column and the placeholders: no control *)
    ([], None).

(** The default [properties] of a text node. *)
Definition defaultTextProperties : value :=
  let accent := VStr "#61afef" in
  let text := VStr "#abb2bf" in
  let muted := VStr "#5c6370" in
  let tertiary := VStr "#3a3a3a" in
  let heading (size : Z) :=
    VObj [("color", accent); ("fontSize", VNum (num_of_Z size))] in
  VObj
    [ ("fontSize", VNum (num_of_Z 12)); ("color", text);
      ("h1", heading 32%Z); ("h2", heading 24%Z); ("h3", heading 20%Z);
      ("h4", heading 16%Z); ("h5", heading 14%Z); ("h6", heading 12%Z);
      ("strong", VObj [("color", text)]); ("em", VObj [("color", text)]);
      ("blockquote", VObj [("color", muted); ("borderColor", accent)]);
      ("a", VObj [("color", accent)]);
      ("code", VObj [("color", text); ("backgroundColor", tertiary)]);
      ("hr", VObj [("color", muted)]);
      ("ul", VObj [("color", text)]); ("ol", VObj [("color", text)]);
      ("li", VObj [("color", text)]);
      ("table", VObj [("borderColor", muted)]);
      ("th", VObj [("backgroundColor", tertiary)]) ].

Definition defaultCodeBlockProperties : value :=
  VObj [("fontSize", VNum (num_of_Z 12)); ("syntaxTheme", VStr "dark")].

(** [o || d] for an optional field. *)
Definition option_or (o : option value) (d : value) : value :=
  match o with
  | Some v => or_else v d
  | None => d
  end.

Definition truthy_string (o : option string) : option string :=
  match o with
  | Some s => if String.eqb s "" then None else Some s
  | None => None
  end.

(** *** Snapshots *)

Definition option_eqb {A : Type} (eqb : A -> A -> bool) (a b : option A) : bool :=
  match a, b with
  | Some x, Some y => eqb x y
  | None, None => true
  | _, _ => false
  end.

Fixpoint list_eqb {A : Type} (eqb : A -> A -> bool) (l m : list A) : bool :=
  match l, m with
  | [], [] => true
  | x :: l', y :: m' => eqb x y && list_eqb eqb l' m'
  | _, _ => false
  end.

Definition endpoint_eqb (a b : Endpoint) : bool :=
  String.eqb (ep_node a) (ep_node b) && String.eqb (ep_socket a) (ep_socket b).

Definition connection_eqb (a b : Connection) : bool :=
  endpoint_eqb (c_from a) (c_from b) && endpoint_eqb (c_to a) (c_to b).

Definition content_eqb (a b : string * ContentValue) : bool :=
  String.eqb (fst a) (fst b) &&
  match snd a, snd b with
  | CStr s, CStr t => String.eqb s t
  | CBool x, CBool y => Bool.eqb x y
  | _, _ => false
  end.

Definition nodeState_eqb (a b : NodeState) : bool :=
  option_eqb String.eqb (ns_id a) (ns_id b)
  && String.eqb (ns_type a) (ns_type b)
  && Z.eqb (ns_x a) (ns_x b) && Z.eqb (ns_y a) (ns_y b)
  && option_eqb String.eqb (ns_width a) (ns_width b)
  && option_eqb String.eqb (ns_height a) (ns_height b)
  && list_eqb content_eqb (ns_content a) (ns_content b)
  && option_eqb value_eqb (ns_properties a) (ns_properties b)
  && option_eqb value_eqb (ns_codeBlockProperties a) (ns_codeBlockProperties b)
  && option_eqb String.eqb (ns_parentId a) (ns_parentId b)
  && option_eqb (list_eqb String.eqb) (ns_children a) (ns_children b).

Definition offset_eqb (a b : coordinate * coordinate) : bool :=
  option_eqb num_eqb (fst a) (fst b) && option_eqb num_eqb (snd a) (snd b).

(** Whether two session documents are the same text: the comparison
    [undoStack[undoStack.length - 1] === state] of two serialized
    states. *)
Definition doc_eqb (a b : SessionDoc) : bool :=
  option_eqb (list_eqb nodeState_eqb) (d_nodes a) (d_nodes b)
  && option_eqb (list_eqb connection_eqb) (d_connections a) (d_connections b)
  && option_eqb offset_eqb (d_canvasOffset a) (d_canvasOffset b)
  && option_eqb num_eqb (d_scale a) (d_scale b)
  && option_eqb Z.eqb (d_nodeCounter a) (d_nodeCounter b).

(** The [content] of a serialized node:
    [nodeEl.querySelectorAll('[data-param], [data-output]').forEach(el => {
       const key = el.dataset.param || el.dataset.output;
       if (key) content[key] = el.type === 'checkbox' ? el.checked : el.value; })] *)
Fixpoint serialize_content (cs : list Control)
  (content : list (string * ContentValue)) : list (string * ContentValue) :=
  match cs with
  | [] => content
  | c :: r =>
      let key := match truthy_string (dataParam c) with
                 | Some k => Some k
                 | None => truthy_string (dataOutput c)
                 end in
      let selected := match dataParam c, dataOutput c with
                      | None, None => false
                      | _, _ => true
                      end in
      match selected, key with
      | true, Some k =>
          serialize_content r
            (if String.eqb k "__proto__" then content
             else set_prop content k
                    (match tag c with
                     | InputCheckbox => CBool (cchecked c)
                     | _ => CStr (cvalue c)
                     end))
      | _, _ => serialize_content r content
      end
  end.

Definition serialize_node (entry : string * NodeData) : NodeState :=
  let (nodeId, nodeData) := entry in
  mkNodeState (Some nodeId) (ntype nodeData) (el_left nodeData) (el_top nodeData)
    (Some (el_width nodeData)) (Some (el_height nodeData))
    (serialize_content (controls nodeData) [])
    (jsonify (properties nodeData)) (jsonify (codeBlockProperties nodeData))
    (parentId nodeData) (Some (children nodeData)).

(** A number as [JSON.stringify] writes it and [JSON.parse] reads it
    back: [NaN] and the infinities are written as [null]. *)
Definition json_number (n : number) : option number :=
  match n with
  | Fin q => Some (Fin q)
  | _ => None
  end.

Definition json_coordinate (c : coordinate) : coordinate :=
  match c with
  | Some n => json_number n
  | None => None
  end.

Definition json_offset (off : coordinate * coordinate) : coordinate * coordinate :=
  (json_coordinate (fst off), json_coordinate (snd off)).

(** [serialize()], as the document its text denotes. *)
Definition serialize (ed : Editor) : SessionDoc :=
  mkSessionDoc (Some (map serialize_node (nodes ed)))
    (Some (connections ed))
    (Some (json_offset (canvasOffset ed)))
    (json_number (scale ed))
    (Some (nodeCounter ed)).

(** ** The history manager: [recordState] *)

Definition push_undo (s : SessionDoc) (h : History) : History :=
  let pushed := undoStack h ++ [s] in
  mkHistory (if maxHistory h <? List.length pushed then tl pushed else pushed)
    [] (maxHistory h) (isRestoring h).

(** [recordState(description)] *)
Definition recordState (ed : Editor) : Editor :=
  if isRestoring (history ed) then ed
  else
    let state := serialize ed in
    match last (map Some (undoStack (history ed))) None with
    | Some top =>
        if doc_eqb top state then ed
        else set_history (push_undo state (history ed)) ed
    | None => set_history (push_undo state (history ed)) ed
    end.

Section Store.

Context {host : Host}.

(** [nodeCreators[type].call(this, {...options, nodeId, type})] *)
Definition nodeCreators (type : string)
  : Lookup (Options -> list Control * option string) :=
  if existsb (String.eqb type) coreTypes then Own (coreTemplate type)
  else if existsb (String.eqb type) externalTypes
  then Own (externalTemplate type)
  else if inherited type then InheritedMember type
  else Absent.

(** The node id and the counter:
    [const nodeId = options.id || 'node_' + this.nodeCounter++;
     if (parseInt(nodeId.split('_')[1]) >= this.nodeCounter)
       this.nodeCounter = parseInt(nodeId.split('_')[1]) + 1;] *)
Definition allocate_id (o : Options) (counter : Z) : string * Z :=
  let (nodeId, counter1) :=
    match truthy_string (o_id o) with
    | Some id => (id, counter)
    | None => (("node_" ++ string_of_Z counter)%string, (counter + 1)%Z)
    end in
  let suffix := nth 1 (split "_" nodeId) "undefined" in
  match parseInt_string suffix with
  | Some n => (nodeId, if (counter1 <=? n)%Z then (n + 1)%Z else counter1)
  | None => (nodeId, counter1)
  end.

(** The integers that a double holds exactly, its neighbours included:
    [Number.isSafeInteger]. *)
Definition safe_integer (z : Z) : bool :=
  (- 9007199254740992 <? z)%Z && (z <? 9007199254740992)%Z.

(** The arithmetic of [allocate_id] is that of the program: the counter
    and the number in a given id are safe integers. *)
Definition exact_ids (o : Options) (counter : Z) : bool :=
  safe_integer counter
  && match truthy_string (o_id o) with
     | Some id =>
         match parseInt_string (nth 1 (split "_" id) "undefined") with
         | Some n => safe_integer n
         | None => true
         end
     | None => true
     end.

(** A size that [node.style.width = options.width] stores as it is
    given: none, or a whole number of pixels in its shortest form. *)
Definition plain_size (size : option string) : bool :=
  match truthy_string size with
  | None => true
  | Some s =>
      match span_digits s with
      | (c :: ds, "px") =>
          negb (Ascii.eqb c "0") || match ds with [] => true | _ => false end
      | _ => false
      end
  end.

(** The creation of a node is followed when the ids are counted exactly
    and the options are plain. *)
Definition creation_followed (o : Options) (counter : Z) : bool :=
  exact_ids o counter
  && forallb plain_option (o_content o)
  && plain_size (o_width o) && plain_size (o_height o).

(** [createNode(type, x, y, options)] *)
Definition createNode (type : string) (x y : Z) (o : Options) (ed : Editor)
  : Editor * Completion :=
  if negb (creation_followed o (nodeCounter ed)) then (ed, Astray) else
  let (nodeId, counter) := allocate_id o (nodeCounter ed) in
  let ed1 := set_nodeCounter counter ed in
  let isLayout := existsb (String.eqb type) layoutNodeTypes in
  let node (content : list Control * option string) : NodeData :=
    mkNodeData nodeId x y
      (match truthy_string (o_width o) with Some w => w | None => "" end)
      (match truthy_string (o_height o) with Some h => h | None => "" end)
      (fst content) (snd content) type []
      (if String.eqb type "text"
       then option_or (o_properties o) defaultTextProperties
       else VObj [])
      (if String.eqb type "text"
       then option_or (o_codeBlockProperties o) defaultCodeBlockProperties
       else VObj [])
      isLayout
      (match o_children o with Some cs => cs | None => [] end)
      (truthy_string (o_parentId o)) in
  match nodeCreators type with
  | Own template =>
      (* the markup has a header: setupNodeEvents succeeds *)
      let ed2 := nodes_set nodeId (node (template o)) ed1 in
      (if o_fromSerialization o then ed2 else recordState ed2, Normal)
  | InheritedMember name =>
      if String.eqb name "__proto__" || String.eqb name "__defineGetter__"
         || String.eqb name "__defineSetter__"
      then (* the call of the inherited member throws *)
        (ed1, Throw "TypeError")
      else (* no header in the markup: setupNodeEvents throws *)
        (nodes_set nodeId (node ([], None)) ed1,
         Throw "Cannot read properties of null (reading 'addEventListener')")
  | Absent =>
      (nodes_set nodeId (node ([], None)) ed1,
       Throw "Cannot read properties of null (reading 'addEventListener')")
  end.

(** ** Serialization: [deserialize] *)

Definition options_of (ns : NodeState) : Options :=
  mkOptions (ns_content ns) (ns_id ns) (ns_width ns) (ns_height ns)
    (ns_properties ns) (ns_codeBlockProperties ns) (ns_parentId ns)
    (ns_children ns) true.

Definition loadError : string :=
  "Error: Could not load the session file. It might be corrupted.".

(** [a || d] for an optional number. *)
Definition number_or (a : option number) (d : number) : number :=
  match a with
  | Some n => if truthy (VNum n) then n else d
  | None => d
  end.

(** The [try] block of [deserialize], after [JSON.parse] has succeeded
    with a document. *)
Definition load_document (fuel : nat) (doc : SessionDoc) (ed : Editor)
  : Editor * Completion :=
  let ed1 := set_connections [] (set_nodes [] ed) in
  let ed2 :=
    set_nodeCounter (match d_nodeCounter doc with Some n => n | None => 0%Z end)
      (set_view
         (match d_canvasOffset doc with
          | Some off => off
          | None => (Some (num_of_Z 0), Some (num_of_Z 0))
          end)
         (number_or (d_scale doc) (num_of_Z 1)) ed1) in
  match d_nodes doc with
  | None => (ed2, Throw "Cannot read properties of undefined (reading 'forEach')")
  | Some nodeStates =>
      match forEach nodeStates
              (fun ns => createNode (ns_type ns) (ns_x ns) (ns_y ns) (options_of ns))
              ed2 with
      | (ed3, Normal) =>
          let ed4 :=
            set_connections
              (match d_connections doc with Some cs => cs | None => [] end) ed3 in
          forEach (nodes ed4)
            (fun entry => processNodeData fuel (el_id (snd entry))) ed4
      | other => other
      end
  end.

(** [deserialize(jsonString)]: the [try] block, the [catch] that reports
    the failure with [alert], be it an error of the engine or the
    [RangeError] of a recursion without end, and the [finally] that
    clears the restoring flag.  The redrawing of the wires and the layout of the containers,
    which the program defers with [setTimeout], are not part of the
    call. *)
Definition deserialize (fuel : nat) (jsonString : JSONText) (ed : Editor)
  : Editor * Completion :=
  let ed0 := set_isRestoring true ed in
  let tried : Editor * Completion :=
    match jsonString with
    | Malformed message => (ed0, Throw message)
    | NullText =>
        (set_connections [] (set_nodes [] ed0),
         Throw "Cannot read properties of null (reading 'canvasOffset')")
    | Document doc => load_document fuel doc ed0
    end in
  match tried with
  | (ed1, Normal) => (set_isRestoring false ed1, Normal)
  | (ed1, Throw _) | (ed1, Exhausted) =>
      (set_isRestoring false (alert loadError ed1), Normal)
  | (ed1, Astray) => (set_isRestoring false ed1, Astray)
  end.

(** ** The history manager: [undo] and [redo] *)

(** [undo()] *)
Definition undo (fuel : nat) (ed : Editor) : Editor * Completion :=
  let h := history ed in
  if List.length (undoStack h) <=? 1 then (ed, Normal)
  else
    match last (map Some (undoStack h)) None with
    | None => (ed, Normal)
    | Some currentState =>
        let popped := removelast (undoStack h) in
        let ed1 := set_history
                     (mkHistory popped (redoStack h ++ [currentState])
                        (maxHistory h) (isRestoring h)) ed in
        match last (map Some popped) None with
        | Some prevState => deserialize fuel (Document prevState) ed1
        | None => (ed1, Normal)
        end
    end.

(** [redo()] *)
Definition redo (fuel : nat) (ed : Editor) : Editor * Completion :=
  let h := history ed in
  match last (map Some (redoStack h)) None with
  | None => (ed, Normal)
  | Some nextState =>
      let ed1 := set_history
                   (mkHistory (undoStack h ++ [nextState])
                      (removelast (redoStack h))
                      (maxHistory h) (isRestoring h)) ed in
      deserialize fuel (Document nextState) ed1
  end.

(** ** Connections *)

(** A socket element: its classes, the id of the node around it and its
    [data-socket] name. *)
Record Socket : Type := mkSocket {
  s_isInput : bool;
  s_isOutput : bool;
  s_node : string;
  s_name : string
}.

(** [startConnection(socket, event)] *)
Definition startConnection (socket : Socket) (ed : Editor) : Editor :=
  if s_isOutput socket
  then set_connectionStart (Some (mkEndpoint (s_node socket) (s_name socket))) ed
  else ed.

(** [completeConnection(targetSocket)] *)
Definition completeConnection (fuel : nat) (targetSocket : Socket) (ed : Editor)
  : Editor * Completion :=
  match connectionStart ed with
  | None => (ed, Normal)
  | Some start =>
      if negb (s_isInput targetSocket) then (ed, Normal)
      else
        let targetNodeId := s_node targetSocket in
        if String.eqb (ep_node start) targetNodeId then (ed, Normal)
        else
          let targetSocketName := s_name targetSocket in
          let kept :=
            filter (fun c => negb (targets targetNodeId targetSocketName c))
              (connections ed) in
          let ed1 :=
            set_connections
              (kept ++ [mkConnection start
                          (mkEndpoint targetNodeId targetSocketName)]) ed in
          let ed2 := recordState ed1 in
          match processNodeData fuel targetNodeId ed2 with
          | (ed3, Normal) => (set_connectionStart None ed3, Normal)
          | other => other
          end
  end.

(** The editor as the constructor leaves it: an empty graph, and the
    history holding the record of the initial state. *)
Definition emptyEditor : Editor :=
  mkEditor [] [] (Some (num_of_Z 0), Some (num_of_Z 0)) (num_of_Z 1) 0%Z
    (mkHistory [] [] 50 false) None [].

Definition initialEditor : Editor := recordState emptyEditor.

End Store.

(** ** Scenarios *)

(** A host for the scenarios below.  Its interpreter knows five texts:
    an expression that reads a field of the row, one that reads the
    length of a field (and throws a [TypeError] on a row without the
    field), one that throws [null], a body that writes to its row, and an
    expression cut short that no interpreter accepts.  It has no JSON codec, and its external
    processors leave their node as it is. *)
Definition scenarioHost : Host :=
  mkHost
    (fun param body =>
       if String.eqb body "return row.keep"
       then Ok (fun row => called_of_result (get row "keep"))
       else if String.eqb body "return row.v.length"
       then Ok (fun row =>
                  match get row "v" with
                  | Raise m => Throws (error m)
                  | Ok v => called_of_result (get v "length")
                  end)
       else if String.eqb body "return (() => { throw null })()"
       then Ok (fun row => Throws VNull)
       else if String.eqb body "row.seen = true; return row"
       then Ok (fun row => Strays)
       else if String.eqb body "return row.age >"
       then Raise "Unexpected token '}'"
       else Raise "Unexpected identifier")
    (fun text => Raise "Unexpected token")
    (fun v => VUndefined)
    (fun type ed nd =>
       (mkNodeEffect (outputs nd) (controls nd) (status nd), Returned))
    (fun type o => ([], Some "")).

Definition noOptions : Options :=
  mkOptions [] None None None None None None None false.

Definition connect (a s b t : string) : Connection :=
  mkConnection (mkEndpoint a s) (mkEndpoint b t).

(** [this.createNode('text', 100, 100, { text: '# New Text Node' })], the
    body of [addTextNode]. *)
Definition addTextNode (ed : Editor) : Editor * Completion :=
  createNode (host := scenarioHost) "text" 100 100
    (mkOptions [("text", CStr "# New Text Node")]
       None None None None None None None false) ed.

(** The editor after the button that adds a text node was pressed once. *)
Definition oneTextNode : Editor := fst (addTextNode initialEditor).

(** The editor after a second node, an import node, was added from the
    side bar. *)
Definition textAndImport : Editor :=
  fst (createNode (host := scenarioHost) "import" 400 300 noOptions oneTextNode).

(** Dragging a wire from the output [s] of node [a] to the input [t] of
    node [b]: [startConnection] on the one socket, [completeConnection]
    on the other. *)
Definition wire (a s b t : string) (ed : Editor) : Editor :=
  fst (completeConnection (host := scenarioHost) 8 (mkSocket true false b t)
         (startConnection (mkSocket false true a s) ed)).

(** An import node, two CSV parsers and an export node, added from the
    side bar and wired in a chain: the import node to the first parser,
    the first parser to the second, the second to the export node. *)
Definition csvChain : Editor :=
  let e1 := fst (createNode (host := scenarioHost) "import" 0 0 noOptions initialEditor) in
  let e2 := fst (createNode (host := scenarioHost) "csv" 300 0 noOptions e1) in
  let e3 := fst (createNode (host := scenarioHost) "csv" 600 0 noOptions e2) in
  let e4 := fst (createNode (host := scenarioHost) "export" 900 0 noOptions e3) in
  wire "node_2" "data_out" "node_3" "data_in"
    (wire "node_1" "data_out" "node_2" "csv_in"
       (wire "node_0" "data_out" "node_1" "csv_in" e4)).

(** The nodes and the connection of a session file, as [deserialize] has
    them when it starts to propagate: a container node wired to an import
    node that holds the text [hi]. *)
Definition containerFeedsImport : Editor :=
  let e1 := fst (createNode (host := scenarioHost) "container" 0 0
                   (mkOptions [] (Some "node_0") None None None None None None true)
                   emptyEditor) in
  let e2 := fst (createNode (host := scenarioHost) "import" 300 0
                   (mkOptions [("data_out", CStr "hi")] (Some "node_1")
                      None None None None None None true) e1) in
  set_connections [connect "node_0" "out" "node_1" "in"] e2.




(** A session document in which two text nodes feed each other. *)
Definition cyclicDoc : SessionDoc :=
  mkSessionDoc
    (Some [mkNodeState (Some "node_0") "text" 10 10 None None
             [("text_out", CStr "abc")] None None None None;
           mkNodeState (Some "node_1") "text" 300 10 None None
             [("text_out", CStr "def")] None None None None])
    (Some [connect "node_0" "text_out" "node_1" "text_in";
           connect "node_1" "text_out" "node_0" "text_in"])
    None None (Some 2%Z).

(** The rows of the aggregation scenario. *)
Definition scenarioRows : value :=
  VArr [ VObj [("cat", VStr "x"); ("v", VStr "1")];
         VObj [("cat", VStr "x"); ("v", VStr "2")];
         VObj [("cat", VStr "y"); ("v", VStr "5")] ].

(** The graph part of an editor placed in another editor: an edit. *)
Definition with_graph (g ed : Editor) : Editor :=
  mkEditor (nodes g) (connections g) (canvasOffset g) (scale g) (nodeCounter g)
    (history ed) (connectionStart ed) (alerts ed).

(** Recording one state after each of a sequence of edits. *)
Definition record_all (graphs : list Editor) (ed : Editor) : Editor :=
  fold_left (fun e g => recordState (with_graph g e)) graphs ed.

Fixpoint pairwise_distinct (l : list SessionDoc) : bool :=
  match l with
  | [] => true
  | x :: r => forallb (fun y => negb (doc_eqb x y)) r && pairwise_distinct r
  end.

(** Graphs that differ in their node counter: [n] of them. *)
Fixpoint counterGraphs (n : nat) : list Editor :=
  match n with
  | O => []
  | S k => counterGraphs k ++ [set_nodeCounter (Z.of_nat k) emptyEditor]
  end.

(** ** Reachability, and the trace of a propagation *)

Definition has_node (ed : Editor) (id : string) : bool := has_key id (nodes ed).

(** A connection between two nodes of the graph. *)
Definition edge (ed : Editor) (a b : string) : Prop :=
  has_node ed a = true /\ has_node ed b = true /\
  exists c, In c (connections ed)
            /\ ep_node (c_from c) = a /\ ep_node (c_to c) = b.

(** Reachability along connections. *)
Inductive reachable (ed : Editor) : string -> string -> Prop :=
| reach_here : forall a, has_node ed a = true -> reachable ed a a
| reach_next : forall a b c, edge ed a b -> reachable ed b c -> reachable ed a c.

(** A non-empty path along connections. *)
Inductive path (ed : Editor) : string -> string -> Prop :=
| path_one : forall a b, edge ed a b -> path ed a b
| path_next : forall a b c, edge ed a b -> path ed b c -> path ed a c.


(** The trace of the loop over the connections in [processNodeData]:
    [visit] and [run] are the trace and the effect of the recursive
    call. *)
Fixpoint trace_each (visit : string -> Editor -> list string)
  (run : string -> Editor -> Editor * Completion) (nodeId : string)
  (cs : list Connection) (ed : Editor) : list string :=
  match cs with
  | [] => []
  | c :: r =>
      if String.eqb (ep_node (c_from c)) nodeId then
        visit (ep_node (c_to c)) ed ++
        match run (ep_node (c_to c)) ed with
        | (ed', Normal) => trace_each visit run nodeId r ed'
        | _ => []
        end
      else trace_each visit run nodeId r ed
  end.

Section Trace.

Context {host : Host}.

(** The ids on which a call of [processNodeData] and the calls it makes
    find a node, in the order of the calls: the trace of a propagation.
    It follows [processNodeData] step by step. *)
Fixpoint visited (fuel : nat) (nodeId : string) (ed : Editor) : list string :=
  match fuel with
  | O => []
  | S fuel' =>
      match nodes_get ed nodeId with
      | None => []
      | Some nodeData =>
          nodeId ::
          match run_processor ed nodeId nodeData with
          | (ed1, Normal) =>
              trace_each (visited fuel') (processNodeData fuel') nodeId
                (connections ed1) ed1
          | _ => []
          end
      end
  end.

End Trace.

(** ** The join of the merge processor, in the words of its description *)

(** A record: an object whose property names are distinct. *)
Fixpoint distinct_keys {A : Type} (l : list (string * A)) : bool :=
  match l with
  | [] => true
  | (k, _) :: r => negb (has_key k r) && distinct_keys r
  end.

Definition is_record (v : value) : bool :=
  match v with
  | VObj props => distinct_keys props
  | _ => false
  end.

(** The field [k] of a record, as the join reads it. *)
Definition field (v : value) (k : string) : value :=
  match get v k with
  | Ok x => x
  | Raise _ => VUndefined
  end.

(** A left and a right record match when their join fields are equal. *)
Definition matches (leftKey rightKey : string) (l r : value) : bool :=
  same_key (field r rightKey) (field l leftKey).

(** The own property [k] of a record. *)
Definition own (v : value) (k : string) : option value :=
  match v with
  | VObj props => assoc k props
  | _ => None
  end.

(** [out] is the record [l] merged with the record [r], the fields of
    [r] overriding those of [l]. *)
Definition merged_of (l r out : value) : Prop :=
  is_record out = true /\
  forall k, own out k = match own r k with
                        | Some x => Some x
                        | None => own l k
                        end.

(** One line of a left outer join: [out] is [l] itself when no right
    record matches [l], and else [l] merged with a right record that
    matches it. *)
Definition left_outer_line (leftKey rightKey : string) (right : list value)
  (l out : value) : Prop :=
  (forallb (fun r => negb (matches leftKey rightKey l r)) right = true /\ out = l)
  \/ (exists r, In r right /\ matches leftKey rightKey l r = true
                /\ merged_of l r out).

(** ** Definitions used in the statements below *)

(** The CSV text of three lines [a,b], [1,2] and [3,4]. *)
Definition csvText : string :=
  ("a,b" ++ String newline ("1,2" ++ String newline "3,4"))%string.

(** An import node that holds the CSV text, wired to a CSV parser. *)
Definition csvScenario : Editor :=
  let e1 := fst (createNode (host := scenarioHost) "import" 0 0
                   (mkOptions [("data_out", CStr csvText)]
                      None None None None None None None false)
                   initialEditor) in
  let e2 := fst (createNode (host := scenarioHost) "csv" 300 0 noOptions e1) in
  set_connections [connect "node_0" "data_out" "node_1" "csv_in"] e2.

(** A source node that holds [rows] in its output [data_out], for the
    scenarios of the data processors. *)
Definition sourceNode (id : string) (rows : value) : NodeData :=
  mkNodeData id 0 0 "" ""
    [param_control SelectBox "operation" "parse"] (Some "Success") "json"
    [("data_out", rows)] (VObj []) (VObj []) false [] None.

(** A node of the core type [type] as [createNode] makes it from
    [content]. *)
Definition freshNode (type id : string) (content : list (string * ContentValue))
  : NodeData :=
  let t := coreTemplate type
             (mkOptions content (Some id) None None None None None None false) in
  mkNodeData id 300 0 "" "" (fst t) (snd t) type [] (VObj []) (VObj [])
    false [] None.

(** The aggregation scenario: the rows feed an aggregate node that sums
    [v] by [cat]. *)
Definition aggregateScenario : Editor :=
  set_connections [connect "node_0" "data_out" "node_1" "data_in"]
    (set_nodes
       [ ("node_0", sourceNode "node_0" scenarioRows);
         ("node_1", freshNode "aggregate" "node_1"
                      [("groupBy", CStr "cat"); ("aggFunc", CStr "sum");
                       ("aggKey", CStr "v")]) ]
       emptyEditor).

(** A filter node fed with the rows, whose condition is cut short. *)
Definition filterScenario : Editor :=
  set_connections [connect "node_0" "data_out" "node_1" "data_in"]
    (set_nodes
       [ ("node_0", sourceNode "node_0" scenarioRows);
         ("node_1", freshNode "filter" "node_1"
                      [("condition", CStr "row.age >")]) ]
       emptyEditor).



Section Evaluation.

Context {host : Host}.

(** A function made of the user's text returns on a row. *)
Definition returns_on (f : value -> Called value) (row : value) : Prop :=
  exists v : value, f row = Returns v.

(** The evaluation of a function body on the rows fails with the
    exception [e]: the text is no function body, and [e] is the
    [SyntaxError] of [new Function]; or the function returns on the rows
    before some row and throws [e] on that row. *)
Definition fails_with (body : string) (rows : list value) (e : value)
  : Prop :=
  (exists m : string, newFunction "row" body = Raise m /\ e = error m)
  \/ (exists (f : value -> Called value) (before after : list value)
             (row : value),
        newFunction "row" body = Ok f
        /\ rows = before ++ row :: after
        /\ (forall r : value, In r before -> returns_on f r)
        /\ f row = Throws e).

(** The evaluation strays: the function returns on the rows before some
    row and strays on that row. *)
Definition strays_on (body : string) (rows : list value) : Prop :=
  exists (f : value -> Called value) (before after : list value) (row : value),
    newFunction "row" body = Ok f
    /\ rows = before ++ row :: after
    /\ (forall r : value, In r before -> returns_on f r)
    /\ f row = Strays.

(** The text of [`${e.message}`] for a caught value [e], or the
    [TypeError] of reading it. *)
Definition message_of (e : value) : result string :=
  match get e "message" with
  | Raise m => Raise m
  | Ok message => toString message
  end.

(** Whether the predicate returns a truthy value on a row. *)
Definition passes (f : value -> Called value) (row : value) : bool :=
  match f row with
  | Returns v => truthy v
  | _ => false
  end.

End Evaluation.

(** The employees and the departments of the join scenario. *)
Definition employees : list value :=
  [ VObj [("name", VStr "Alice"); ("department", VStr "Engineering")];
    VObj [("name", VStr "David"); ("department", VStr "Sales")] ].

Definition departments : list value :=
  [ VObj [("dept_name", VStr "Engineering"); ("manager", VStr "Sarah")];
    VObj [("dept_name", VStr "HR"); ("manager", VStr "Lisa")] ].

(** A merge node that joins the employees with the departments. *)
Definition mergeScenario : Editor :=
  set_connections
    [ connect "node_0" "data_out" "node_2" "data_in_1";
      connect "node_1" "data_out" "node_2" "data_in_2" ]
    (set_nodes
       [ ("node_0", sourceNode "node_0" (VArr employees));
         ("node_1", sourceNode "node_1" (VArr departments));
         ("node_2", freshNode "merge" "node_2"
                      [("key", CStr "department=dept_name")]) ]
       emptyEditor).

(** The join scenario with a left input that holds [null] where a record
    is expected. *)
Definition mergeNullScenario : Editor :=
  set_connections
    [ connect "node_0" "data_out" "node_2" "data_in_1";
      connect "node_1" "data_out" "node_2" "data_in_2" ]
    (set_nodes
       [ ("node_0", sourceNode "node_0" (VArr [VNull]));
         ("node_1", sourceNode "node_1" (VArr departments));
         ("node_2", freshNode "merge" "node_2"
                      [("key", CStr "department=dept_name")]) ]
       emptyEditor).

(** The values of the controls of a node, in document order. *)
Definition control_values (ed : Editor) (id : string) : option (list string) :=
  option_map (fun nd => map cvalue (controls nd)) (nodes_get ed id).

(** An operation of the editor applied [n] times in a row. *)
Fixpoint times (n : nat) (op : Editor -> Editor * Completion) (ed : Editor)
  : Editor :=
  match n with
  | O => ed
  | S k => times k op (fst (op ed))
  end.

(** Two editors that differ in the data of their nodes only. *)
Definition only_nodes (ed ed' : Editor) : Prop :=
  ed' = set_nodes (nodes ed') ed /\ map fst (nodes ed') = map fst (nodes ed).

(** A second text node is added, the import node is wired into the
    input of the first text node, and a wire is dragged from the output
    of the second text node. *)
Definition rewiring : Editor :=
  startConnection (mkSocket false true "node_2" "text_out")
    (wire "node_1" "data_out" "node_0" "text_in"
       (fst (createNode (host := scenarioHost) "text" 700 100 noOptions
               textAndImport))).


(** Each document of the list differs from the one before it, the first
    from [prev]. *)
Fixpoint chain_distinct (prev : option SessionDoc) (l : list SessionDoc) : bool :=
  match l with
  | [] => true
  | x :: r =>
      match prev with
      | Some p => negb (doc_eqb p x)
      | None => true
      end && chain_distinct (Some x) r
  end.

(** Whether the map has an entry under the key [x]. *)
Definition map_has (m : list (value * value)) (x : value) : bool :=
  existsb (fun e => same_key (fst e) x) m.

(** The keys of the map are primitive values. *)
Definition keys_primitive (m : list (value * value)) : bool :=
  forallb (fun e => is_primitive (fst e)) m.

(** What the map built from the right rows holds: every entry is a row
    seen, filed under a key equal to its join field; every row seen is
    found under its join field. *)
Definition map_inv (rightKey : string) (seen : list value)
  (m : list (value * value)) : Prop :=
  (forall k v, In (k, v) m ->
     In v seen /\ forall x, same_key k x = true ->
                            same_key (field v rightKey) x = true)
  /\ (forall r x, In r seen -> same_key (field r rightKey) x = true ->
        map_has m x = true).

(** ** Further operations of the editor *)

(** The part of a node that no processor writes: everything but its
    outputs, its controls and its status line. *)
Definition fixed_part (nd : NodeData) : NodeData :=
  set_status_text None (set_controls [] (set_outputs [] nd)).

(** The nodes of an editor without what the processors write: the keys
    of the table in their order, each with the fixed part of its node. *)
Definition layout_of (ed : Editor) : list (string * NodeData) :=
  map (fun e => (fst e, fixed_part (snd e))) (nodes ed).

(** A node from which a cycle of connections can be reached. *)
Definition reaches_cycle (ed : Editor) (a : string) : Prop :=
  exists b, reachable ed a b /\ path ed b b.

(** Two text nodes wired in a cycle: the output of each feeds the input
    of the other.  The second wire closes the cycle. *)
Definition textCycle : Editor :=
  let e1 := fst (addTextNode initialEditor) in
  let e2 := fst (addTextNode e1) in
  set_connections
    [ connect "node_0" "text_out" "node_1" "text_in";
      connect "node_1" "text_out" "node_0" "text_in" ] e2.

Section Operations.

Context {host : Host}.

(** The [contextmenu] handler of the wire layer, for the wire drawn with
    [data-conn-index = index]:
    [const removedConn = this.connections.splice(index, 1)[0];
     this.recordState("Delete Connection");
     if (removedConn) this.processNodeData(removedConn.to.node);] *)
Definition deleteConnection (fuel : nat) (index : nat) (ed : Editor)
  : Editor * Completion :=
  let removedConn := nth_error (connections ed) index in
  let ed1 :=
    set_connections
      (firstn index (connections ed) ++ skipn (S index) (connections ed)) ed in
  let ed2 := recordState ed1 in
  match removedConn with
  | Some c => processNodeData fuel (ep_node (c_to c)) ed2
  | None => (ed2, Normal)
  end.

(** [clearCanvas()]; the selection is not part of the editor state
    here. *)
Definition clearCanvas (ed : Editor) : Editor :=
  recordState (set_connections [] (set_nodes [] ed)).

(** [loadShowcase(jsonString)] *)
Definition loadShowcase (fuel : nat) (jsonString : JSONText) (ed : Editor)
  : Editor * Completion :=
  match deserialize fuel jsonString (clearCanvas ed) with
  | (ed1, Normal) => (recordState ed1, Normal)
  | other => other
  end.

(** The [onload] callback of [loadSession], for a file whose text is
    [content]:
    [this.deserialize(content);
     this.history.undoStack = [this.serialize()];
     this.history.redoStack = [];] *)
Definition loadSession (fuel : nat) (content : JSONText) (ed : Editor)
  : Editor * Completion :=
  match deserialize fuel content ed with
  | (ed1, Normal) =>
      (set_history
         (mkHistory [serialize ed1] [] (maxHistory (history ed1))
            (isRestoring (history ed1))) ed1, Normal)
  | other => other
  end.

(** The controls on which [setupNodeEvents] listens for [input] and
    [change]: [textarea, input[data-param], input[type="checkbox"],
    select[data-param]]. *)
Definition listens (c : Control) : bool :=
  match tag c with
  | Textarea | InputCheckbox => true
  | InputText | SelectBox =>
      match dataParam c with Some _ => true | None => false end
  end.

Fixpoint set_nth_value (i : nat) (s : string) (cs : list Control)
  : list Control :=
  match cs, i with
  | [], _ => []
  | c :: r, O => set_cvalue s c :: r
  | c :: r, S k => c :: set_nth_value k s r
  end.

(** The user gives the value [s] to the control number [i] of the node
    [id]: the browser stores the value, and the listener of the control,
    if it has one, runs [this.processNodeData(node.id)].  (The record of
    the edit follows after half a second: [recordState].) *)
Definition editContent (fuel : nat) (id : string) (i : nat) (s : string)
  (ed : Editor) : Editor * Completion :=
  match nodes_get ed id with
  | None => (ed, Normal)
  | Some nd =>
      match nth_error (controls nd) i with
      | None => (ed, Normal)
      | Some c =>
          let ed1 :=
            set_nodes
              (replace_prop id
                 (set_controls (set_nth_value i s (controls nd)) nd)
                 (nodes ed)) ed in
          if listens c then processNodeData fuel id ed1 else (ed1, Normal)
      end
  end.

(** What the user can do to the graph and its history. *)
Inductive Action : Type :=
| ACreateNode (type : string) (x y : Z) (o : Options)
| AStartConnection (socket : Socket)
| ACompleteConnection (socket : Socket)
| ADeleteConnection (index : nat)
| AEditContent (id : string) (i : nat) (s : string)
| ARecordState
| AUndo
| ARedo
| AClearCanvas
| ALoadShowcase (jsonString : JSONText)
| ALoadSession (content : JSONText).

(** The editor after an action; an exception ends the action and leaves
    the editor as it is at that point. *)
Definition perform (fuel : nat) (a : Action) (ed : Editor) : Editor :=
  match a with
  | ACreateNode type x y o => fst (createNode type x y o ed)
  | AStartConnection socket => startConnection socket ed
  | ACompleteConnection socket => fst (completeConnection fuel socket ed)
  | ADeleteConnection index => fst (deleteConnection fuel index ed)
  | AEditContent id i s => fst (editContent fuel id i s ed)
  | ARecordState => recordState ed
  | AUndo => fst (undo fuel ed)
  | ARedo => fst (redo fuel ed)
  | AClearCanvas => clearCanvas ed
  | ALoadShowcase jsonString => fst (loadShowcase fuel jsonString ed)
  | ALoadSession content => fst (loadSession fuel content ed)
  end.

Definition perform_all (fuel : nat) (actions : list Action) (ed : Editor)
  : Editor :=
  fold_left (fun e a => perform fuel a e) actions ed.

(** How an action completes. *)
Definition completion (fuel : nat) (a : Action) (ed : Editor) : Completion :=
  match a with
  | ACreateNode type x y o => snd (createNode type x y o ed)
  | AStartConnection socket => Normal
  | ACompleteConnection socket => snd (completeConnection fuel socket ed)
  | ADeleteConnection index => snd (deleteConnection fuel index ed)
  | AEditContent id i s => snd (editContent fuel id i s ed)
  | ARecordState => Normal
  | AUndo => snd (undo fuel ed)
  | ARedo => snd (redo fuel ed)
  | AClearCanvas => Normal
  | ALoadShowcase jsonString => snd (loadShowcase fuel jsonString ed)
  | ALoadSession content => snd (loadSession fuel content ed)
  end.

(** The actions are followed from [ed] on: none of them goes astray. *)
Fixpoint followed (fuel : nat) (actions : list Action) (ed : Editor) : Prop :=
  match actions with
  | [] => True
  | a :: r =>
      completion fuel a ed <> Astray /\ followed fuel r (perform fuel a ed)
  end.

End Operations.

(** ** Invariants of the states the user can reach *)







(** The number in a node id: [parseInt(nodeId.split('_')[1])]. *)
Definition id_number (nodeId : string) : option Z :=
  parseInt_string (nth 1 (split "_" nodeId) "undefined").

(** The table of nodes is well formed: its keys are distinct; every node
    carries its key as the id of its element, a key that is not empty,
    no empty parent id, and the container flag of its type; and the node
    counter lies beyond the number of every id. *)
Definition table_invariant (ed : Editor) : Prop :=
  NoDup (map fst (nodes ed))
  /\ (forall id nd, In (id, nd) (nodes ed) ->
        el_id nd = id /\ id <> ""
        /\ parentId nd <> Some ""
        /\ isContainer nd = existsb (String.eqb (ntype nd)) layoutNodeTypes)
  /\ (forall id n, has_node ed id = true -> id_number id = Some n ->
        (n < nodeCounter ed)%Z).

(** ** What a snapshot restores *)

(** A node that comes back from its serialized form by a creation that is
    followed: the values of its controls and its sizes are plain, and
    the number in its id is a safe integer. *)
Definition plain_node (entry : string * NodeData) : bool :=
  forallb plain_option (serialize_content (controls (snd entry)) [])
  && plain_size (Some (el_width (snd entry)))
  && plain_size (Some (el_height (snd entry)))
  && match id_number (fst entry) with
     | Some n => safe_integer n
     | None => true
     end.

(** An editor whose snapshot is loaded by creations that are followed. *)
Definition plain_snapshot (ed : Editor) : Prop :=
  safe_integer (nodeCounter ed) = true /\ forallb plain_node (nodes ed) = true.

(** What a snapshot keeps of every node, whatever its type: the id, the
    type, the position, the size and the place in the layout tree. *)
Definition skeleton (nd : NodeData) : NodeData :=
  mkNodeData (el_id nd) (el_left nd) (el_top nd) (el_width nd) (el_height nd)
    [] None (ntype nd) [] (VObj []) (VObj [])
    (isContainer nd) (children nd) (parentId nd).

Definition skeleton_table (ed : Editor) : list (string * NodeData) :=
  map (fun e => (fst e, skeleton (snd e))) (nodes ed).

(** The types for which [createNode] has a content template. *)
Definition has_template (type : string) : bool :=
  existsb (String.eqb type) coreTypes || existsb (String.eqb type) externalTypes.

Section Recreate.

Context {host : Host}.

(** The node that [createNode] makes of the serialized form of an entry
    of the table, when the type of the node has a template. *)
Definition recreate (entry : string * NodeData) : NodeData :=
  let o := options_of (serialize_node entry) in
  let type := ntype (snd entry) in
  let content :=
    match nodeCreators type with
    | Own template => template o
    | _ => ([], None)
    end in
  mkNodeData (fst entry) (el_left (snd entry)) (el_top (snd entry))
    (match truthy_string (o_width o) with Some w => w | None => "" end)
    (match truthy_string (o_height o) with Some h => h | None => "" end)
    (fst content) (snd content) type []
    (if String.eqb type "text"
     then option_or (o_properties o) defaultTextProperties
     else VObj [])
    (if String.eqb type "text"
     then option_or (o_codeBlockProperties o) defaultCodeBlockProperties
     else VObj [])
    (existsb (String.eqb type) layoutNodeTypes)
    (match o_children o with Some cs => cs | None => [] end)
    (truthy_string (o_parentId o)).

End Recreate.

(** The core types whose processors, if they have one, leave the
    controls of their node alone: all but the text and the export
    nodes. *)
Definition quietTypes : list string :=
  [ "import"; "csv"; "json"; "xml"; "split"; "filter"; "transform"; "merge";
    "aggregate"; "container"; "column" ] ++ placeholderTypes.

Definition quiet (type : string) : bool := existsb (String.eqb type) quietTypes.

(** The type of a node and, for a quiet type, its controls. *)
Definition params_part (nd : NodeData) : string * list Control :=
  (ntype nd, if quiet (ntype nd) then controls nd else []).

Definition params_of (ed : Editor) : list (string * (string * list Control)) :=
  map (fun e => (fst e, params_part (snd e))) (nodes ed).

(** Every node of the table has a type with a template. *)
Definition all_templates (ed : Editor) : Prop :=
  forall id nd, In (id, nd) (nodes ed) -> has_template (ntype nd) = true.

(** ** The data processors, in the words of their descriptions *)

(** [kept] is [rows] with some of the rows left out. *)
Inductive subsequence {A : Type} : list A -> list A -> Prop :=
| sub_nil : subsequence [] []
| sub_keep : forall x kept rows,
    subsequence kept rows -> subsequence (x :: kept) (x :: rows)
| sub_drop : forall x kept rows,
    subsequence kept rows -> subsequence kept (x :: rows).

(** The field number [j] of a CSV line, as a row holds it: the trimmed
    text between the commas, [undefined] when the line is too short. *)
Definition csv_field (line : string) (j : nat) : value :=
  match nth_error (map trim (split "," line)) j with
  | Some s => VStr s
  | None => VUndefined
  end.








(** ** Further scenarios *)

(** A session at the editor: two text nodes and an import node are
    added; the first text node is wired to the second; a wire from the
    second to itself is tried; the import node is wired to the input that
    is taken; the last edit is undone and redone. *)
Definition wiringSession : list Action :=
  [ ACreateNode "text" 100 100
      (mkOptions [("text", CStr "a")] None None None None None None None false);
    ACreateNode "text" 400 100 noOptions;
    ACreateNode "import" 100 300 noOptions;
    AStartConnection (mkSocket false true "node_0" "text_out");
    ACompleteConnection (mkSocket true false "node_1" "text_in");
    AStartConnection (mkSocket false true "node_1" "text_out");
    ACompleteConnection (mkSocket true false "node_1" "text_in");
    AStartConnection (mkSocket false true "node_2" "data_out");
    ACompleteConnection (mkSocket true false "node_1" "text_in");
    AUndo;
    ARedo ].

(** A source node wired to the input [sock] of a node of the core type
    [type] made from [content]. *)
Definition feeds (v : value) (type sock : string)
  (content : list (string * ContentValue)) : Editor :=
  set_connections [connect "node_0" "data_out" "node_1" sock]
    (set_nodes
       [ ("node_0", sourceNode "node_0" v);
         ("node_1", freshNode type "node_1" content) ]
       emptyEditor).

(** Rows with a flag to keep them by. *)
Definition flaggedRows : list value :=
  [ VObj [("n", VStr "1"); ("keep", VBool true)];
    VObj [("n", VStr "2"); ("keep", VBool false)];
    VObj [("n", VStr "3"); ("keep", VBool true)] ].



(** A filter node created with a condition. *)
Definition filterOptions : Options :=
  mkOptions [("condition", CStr "row.keep")] None None None None None None None
    false.

Definition oneFilterNode : Editor :=
  fst (createNode (host := scenarioHost) "filter" 40 60 filterOptions
         initialEditor).

Definition theFilterNode : NodeData :=
  match nodes_get oneFilterNode "node_0" with
  | Some nd => nd
  | None => sourceNode "" (VArr [])
  end.

(** A connection of the editor leads from node [s] to node [n]. *)
Definition wired_into (ed : Editor) (s n : string) : Prop :=
  exists c, In c (connections ed)
            /\ ep_node (c_from c) = s /\ ep_node (c_to c) = n.

Section LastRun.

Context {host : Host}.

(** The data of node [n] in [final] are those that its processor left
    when it ran, and returned, in a state [e] of the graph [ed] in which
    the nodes wired into [n] had the data that they have in [final]. *)
Definition last_run (ed final : Editor) (n : string) : Prop :=
  exists e nd,
    only_nodes ed e
    /\ nodes_get e n = Some nd
    /\ snd (run_processor e n nd) = Normal
    /\ nodes_get final n = nodes_get (fst (run_processor e n nd)) n
    /\ forall s, wired_into ed s n -> nodes_get e s = nodes_get final s.

End LastRun.

(** Two states of the graph have the same connections and the same data
    in the nodes wired into the node [nd]. *)
Definition same_inputs (e e' : Editor) (nd : NodeData) : Prop :=
  connections e = connections e'
  /\ forall c, In c (connections e') -> ep_node (c_to c) = el_id nd ->
       nodes_get e (ep_node (c_from c)) = nodes_get e' (ep_node (c_from c)).

(** A processor that, when it returns, has written a status text and the
    output [data_out], both the same for every node with the same id and
    the same controls. *)
Definition writes_status_and_output (P : Processor) : Prop :=
  forall ed nd,
    snd (P ed nd) = Returned ->
    exists s v,
      P ed nd = (set_status_text (Some s) (set_output "data_out" v nd), Returned)
      /\ forall nd', el_id nd' = el_id nd -> controls nd' = controls nd ->
                     status nd' <> None ->
                     P ed nd'
                     = (set_status_text (Some s) (set_output "data_out" v nd'),
                        Returned).

(** Every node of the table is filed under the id of its element. *)
Definition ids_consistent (ed : Editor) : Prop :=
  forall id nd, nodes_get ed id = Some nd -> el_id nd = id.

(** The CSV parser of [csvScenario] after a propagation from the import
    node. *)
Definition parsedCsvNode : NodeData :=
  match nodes_get (fst (processNodeData (host := scenarioHost) 5 "node_0"
                          csvScenario)) "node_1" with
  | Some nd => nd
  | None => sourceNode "" (VArr [])
  end.


(** The canvas of an editor after [nodes.clear()] and
    [connections = []]. *)
Definition cleared (ed : Editor) : Editor :=
  set_connections [] (set_nodes [] ed).

(** ** Containers: [handleDrop], [updateLayout] and [layoutColumn] *)

Definition set_position (x y : Z) (nd : NodeData) : NodeData :=
  mkNodeData (el_id nd) x y (el_width nd) (el_height nd)
    (controls nd) (status nd) (ntype nd) (outputs nd) (properties nd)
    (codeBlockProperties nd) (isContainer nd) (children nd) (parentId nd).

Definition set_height (h : string) (nd : NodeData) : NodeData :=
  mkNodeData (el_id nd) (el_left nd) (el_top nd) (el_width nd) h
    (controls nd) (status nd) (ntype nd) (outputs nd) (properties nd)
    (codeBlockProperties nd) (isContainer nd) (children nd) (parentId nd).

Definition set_children (cs : list string) (nd : NodeData) : NodeData :=
  mkNodeData (el_id nd) (el_left nd) (el_top nd) (el_width nd) (el_height nd)
    (controls nd) (status nd) (ntype nd) (outputs nd) (properties nd)
    (codeBlockProperties nd) (isContainer nd) cs (parentId nd).

Definition set_parentId (p : option string) (nd : NodeData) : NodeData :=
  mkNodeData (el_id nd) (el_left nd) (el_top nd) (el_width nd) (el_height nd)
    (controls nd) (status nd) (ntype nd) (outputs nd) (properties nd)
    (codeBlockProperties nd) (isContainer nd) (children nd) p.

(** A mutation of the node object filed under [id]: the table holds the
    objects, so that every later reading of the table sees it. *)
Definition update_node (id : string) (f : NodeData -> NodeData) (ed : Editor)
  : Editor :=
  match nodes_get ed id with
  | Some nd => set_nodes (replace_prop id (f nd) (nodes ed)) ed
  | None => ed
  end.

Section Containers.

(** [childEl.offsetHeight]: the height the browser has laid the element
    of a node out with. *)
Context (offsetHeight : NodeData -> Z).

(** The loop of [layoutColumn]:
    [containerData.children.forEach(childId => {
       const childData = this.nodes.get(childId);
       if (childData) {
         childEl.style.left = (containerEl.offsetLeft + padding) + 'px';
         childEl.style.top = (containerEl.offsetTop + currentY) + 'px';
         currentY += childEl.offsetHeight + padding / 2; } })].
    The container is read from the table at every turn: its object is
    the one the loop holds, and a child may be the container itself. *)
Fixpoint layout_children (containerId : string) (cs : list string)
  (currentY : Z) (ed : Editor) : Editor * Z :=
  match cs with
  | [] => (ed, currentY)
  | childId :: r =>
      match nodes_get ed childId, nodes_get ed containerId with
      | Some child, Some container =>
          let child' :=
            set_position (el_left container + 20) (el_top container + currentY)
              child in
          layout_children containerId r (currentY + offsetHeight child' + 10)
            (set_nodes (replace_prop childId child' (nodes ed)) ed)
      | _, _ => layout_children containerId r currentY ed
      end
  end.

(** [layoutColumn(containerData)], for the container filed under
    [containerId]; the wires are redrawn after it. *)
Definition layoutColumn (containerId : string) (ed : Editor) : Editor :=
  match nodes_get ed containerId with
  | None => ed
  | Some container =>
      let (ed1, currentY) := layout_children containerId (children container) 20 ed in
      update_node containerId
        (set_height (string_of_Z (Z.max 100 currentY) ++ "px")) ed1
  end.

(** [updateLayout(containerId)] *)
Definition updateLayout (containerId : string) (ed : Editor) : Editor :=
  match nodes_get ed containerId with
  | None => ed
  | Some container =>
      if negb (isContainer container) then ed
      else if String.eqb (ntype container) "column"
           then layoutColumn containerId ed
           else ed
  end.

(** [oldParentData.children = oldParentData.children.filter(id => id !==
    this.draggedNode.id); this.updateLayout(oldParentId);] is the end of
    both branches of [handleDrop] for a node that had a parent; in the
    second branch [draggedNodeData.parentId = null] comes between the
    two. *)
Definition without (d : string) (cs : list string) : list string :=
  filter (fun id => negb (String.eqb id d)) cs.

(** [handleDrop(event)], for the element [dropTarget] that carries the
    class [drop-target], if there is one, and the node [draggedNode]
    that is being dragged, if there is one. *)
Definition handleDrop (dropTarget draggedNode : option string) (ed : Editor)
  : Editor * Completion :=
  match draggedNode with
  | None => (ed, Normal)
  | Some d =>
      match nodes_get ed d with
      | None =>
          (ed, Throw "Cannot read properties of undefined (reading 'parentId')")
      | Some dragged =>
          let oldParentId := parentId dragged in
          match dropTarget with
          | Some t =>
              if option_eqb String.eqb (Some t) oldParentId then (ed, Normal)
              else
                let ed1 :=
                  match truthy_string oldParentId with
                  | Some p =>
                      match nodes_get ed p with
                      | Some _ =>
                          updateLayout p
                            (update_node p
                               (fun o => set_children (without d (children o)) o)
                               ed)
                      | None => ed
                      end
                  | None => ed
                  end in
                match nodes_get ed t with
                | None =>
                    (ed1,
                     Throw "Cannot read properties of undefined (reading 'children')")
                | Some _ =>
                    let ed2 :=
                      update_node t
                        (fun c => set_children (children c ++ [d]) c) ed1 in
                    let ed3 := update_node d (set_parentId (Some t)) ed2 in
                    (updateLayout t ed3, Normal)
                end
          | None =>
              match truthy_string oldParentId with
              | Some p =>
                  match nodes_get ed p with
                  | Some _ =>
                      let ed1 :=
                        update_node p
                          (fun o => set_children (without d (children o)) o) ed in
                      let ed2 := update_node d (set_parentId None) ed1 in
                      (updateLayout p ed2, Normal)
                  | None => (ed, Normal)
                  end
              | None => (ed, Normal)
              end
          end
      end
  end.

End Containers.

(** The place of every node in the layout tree: its children and its
    parent. *)
Definition family_of (ed : Editor) : list (string * (list string * option string)) :=
  map (fun e => (fst e, (children (snd e), parentId (snd e)))) (nodes ed).




Section Stack.

Context (offsetHeight : NodeData -> Z).

(** Where a column that starts at the offset [y] ends, measured on the
    nodes as they are laid out in [ed]: every child that is a node takes
    its height and ten pixels. *)
Fixpoint stack (ed : Editor) (cs : list string) (y : Z) : Z :=
  match cs with
  | [] => y
  | c :: r =>
      match nodes_get ed c with
      | Some nd => stack ed r (y + offsetHeight nd + 10)
      | None => stack ed r y
      end
  end.

End Stack.

(** A column and two text nodes, added from the side bar, and the same
    editor after the first text node was dropped on the column, for
    elements that are all 80 pixels high. *)
Definition columnAndTexts : Editor :=
  let e1 := fst (createNode (host := scenarioHost) "column" 100 50 noOptions
                   initialEditor) in
  fst (addTextNode (fst (addTextNode e1))).

Definition eightyHigh (nd : NodeData) : Z := 80.

Definition textInColumn : Editor :=
  fst (handleDrop eightyHigh (Some "node_0") (Some "node_1") columnAndTexts).

Definition theColumn : NodeData :=
  match nodes_get textInColumn "node_0" with
  | Some nd => nd
  | None => sourceNode "" (VArr [])
  end.

(** ** The view: [zoom], [handleZoom] and [resetZoom] *)

(** [a * b] on numbers. *)
Definition num_mul (a b : number) : number :=
  match a, b with
  | NaN, _ | _, NaN => NaN
  | Inf s, Inf t => Inf (xorb s t)
  | Inf s, Fin q | Fin q, Inf s =>
      if Qeq_bool q 0 then NaN else Inf (xorb s (q_negative q))
  | Fin p, Fin q => Fin (Qred (Qmult p q))
  end.

(** [a - b] on numbers. *)
Definition num_sub (a b : number) : number := num_add a (num_neg b).

(** [a < b] on numbers: false when either is [NaN]. *)
Definition num_ltb (a b : number) : bool :=
  match a, b with
  | NaN, _ | _, NaN => false
  | Inf s, Inf t => s && negb t
  | Inf s, Fin _ => s
  | Fin _, Inf t => negb t
  | Fin p, Fin q => negb (Qle_bool q p)
  end.

(** [Math.max(a, b)] and [Math.min(a, b)]: [NaN] when either is. *)
Definition Math_max (a b : number) : number :=
  match a, b with
  | NaN, _ | _, NaN => NaN
  | _, _ => if num_ltb a b then b else a
  end.

Definition Math_min (a b : number) : number :=
  match a, b with
  | NaN, _ | _, NaN => NaN
  | _, _ => if num_ltb b a then b else a
  end.

(** [this.minZoom = 0.2; this.maxZoom = 2.5;], set by the constructor and
    written nowhere else. *)
Definition minZoom : number := Fin (1 # 5).
Definition maxZoom : number := Fin (5 # 2).

(** A coordinate in arithmetic: [null] counts as zero. *)
Definition coordinate_number (c : coordinate) : number :=
  match c with
  | Some n => n
  | None => num_of_Z 0
  end.

(** [this.canvasOffset.x = c - (c - this.canvasOffset.x) *
    (this.scale / oldScale)], for both coordinates. *)
Definition zoom_about (c : number * number) (oldScale newScale : number)
  (off : coordinate * coordinate) : coordinate * coordinate :=
  let around (c : number) (o : coordinate) :=
    Some (num_sub c (num_mul (num_sub c (coordinate_number o))
                       (num_div newScale oldScale))) in
  (around (fst c) (fst off), around (snd c) (snd off)).

(** [zoom(factor)]; [center] is the middle of the canvas rectangle. *)
Definition zoom (factor : number) (center : number * number) (ed : Editor)
  : Editor :=
  let oldScale := scale ed in
  let newScale := Math_max minZoom (Math_min maxZoom (num_mul oldScale factor)) in
  set_view (zoom_about center oldScale newScale (canvasOffset ed)) newScale ed.

(** [handleZoom(e)]; [mouse] is the place of the pointer in the canvas
    rectangle. *)
Definition handleZoom (deltaY : number) (mouse : number * number) (ed : Editor)
  : Editor :=
  let delta := if num_ltb (num_of_Z 0) deltaY then num_of_Z (-1) else num_of_Z 1 in
  let oldScale := scale ed in
  let grown :=
    num_add oldScale (num_mul (num_mul delta (Fin (1 # 10))) oldScale) in
  let newScale := Math_max minZoom (Math_min maxZoom grown) in
  set_view (zoom_about mouse oldScale newScale (canvasOffset ed)) newScale ed.

(** [resetZoom()] *)
Definition resetZoom (ed : Editor) : Editor :=
  set_view (Some (num_of_Z 0), Some (num_of_Z 0)) (num_of_Z 1) ed.

(** What the user can do to the view. *)
Inductive ViewAction : Type :=
| VZoom (factor : Q) (center : number * number)
| VWheel (deltaY : number) (mouse : number * number)
| VReset.

Definition view (a : ViewAction) (ed : Editor) : Editor :=
  match a with
  | VZoom factor center => zoom (Fin factor) center ed
  | VWheel deltaY mouse => handleZoom deltaY mouse ed
  | VReset => resetZoom ed
  end.

(** A scale between [minZoom] and [maxZoom]. *)
Definition zoom_in_range (n : number) : Prop :=
  exists q, n = Fin q /\ (1 # 5 <= q)%Q /\ (q <= 5 # 2)%Q.





(** * Properties *)

(** ** The built-ins on small inputs *)

Example parseFloat_integer : parseFloat_string "42" = num_of_Z 42.
Proof. reflexivity. Qed.

Example parseFloat_prefix : parseFloat_string "  -2.50e1 apples" = num_of_Z (-25).
Proof. reflexivity. Qed.

Example parseFloat_fraction : parseFloat_string ".5" = Fin (1 # 2).
Proof. reflexivity. Qed.

Example parseFloat_text : parseFloat_string "abc" = NaN.
Proof. reflexivity. Qed.

Example parseInt_suffix : parseInt_string "12px" = Some 12%Z.
Proof. reflexivity. Qed.

Example parseInt_undefined : parseInt_string "undefined" = None.
Proof. reflexivity. Qed.

Example trim_both : trim "  a b  " = "a b".
Proof. reflexivity. Qed.

Example split_commas : split "," "a,b,,c" = ["a"; "b"; ""; "c"].
Proof. reflexivity. Qed.

Example split_empty : split "," "" = [""].
Proof. reflexivity. Qed.

Example toString_array :
  toString (VArr [VNum (num_of_Z 1); VNull; VStr "a"; VArr [VBool true]])
  = Ok "1,,a,true".
Proof. reflexivity. Qed.

Example toString_fraction : numberToString (Fin (-5 # 2)) = "-2.5".
Proof. reflexivity. Qed.

Example property_order :
  map fst (set_prop (set_prop (set_prop (set_prop [] "b" 1) "10" 2) "a" 3) "2" 4)
  = ["2"; "10"; "b"; "a"].
Proof. reflexivity. Qed.

Example spread_overrides :
  spread2 (VObj [("a", VStr "1"); ("b", VStr "2")])
          (VObj [("b", VStr "9"); ("c", VNull)])
  = VObj [("a", VStr "1"); ("b", VStr "9"); ("c", VNull)].
Proof. reflexivity. Qed.

Example inherited_member : get (VObj []) "constructor" = Ok (VBuiltin "constructor").
Proof. reflexivity. Qed.

Example allocate_generated :
  allocate_id noOptions 3 = ("node_3", 4%Z).
Proof. reflexivity. Qed.

Example allocate_given :
  allocate_id (mkOptions [] (Some "node_7") None None None None None None true) 3
  = ("node_7", 8%Z).
Proof. reflexivity. Qed.

(** ** The processors on small graphs *)

(** The CSV parser on the text [a,b / 1,2 / 3,4]. *)
Example processCsvNode_rows :
  option_map outputs
    (nodes_get (fst (processNodeData (host := scenarioHost) 3 "node_0"
                       csvScenario)) "node_1")
  = Some [("data_out",
           VArr [ VObj [("a", VStr "1"); ("b", VStr "2")];
                  VObj [("a", VStr "3"); ("b", VStr "4")] ])].
Proof. vm_compute. reflexivity. Qed.

(** The constructor records the initial state. *)
Example initialEditor_history :
  undoStack (history initialEditor) = [serialize emptyEditor]
  /\ redoStack (history initialEditor) = [].
Proof. vm_compute. split; reflexivity. Qed.

(** ** Properties of the store *)

Lemma set_nodes_self (ed : Editor) : set_nodes (nodes ed) ed = ed.
Proof. destruct ed; reflexivity. Qed.

Lemma map_fst_replace_prop {A : Type} (k : string) (a : A) (l : list (string * A)) :
  map fst (replace_prop k a l) = map fst l.
Proof.
  induction l as [|[k' a'] l IH]; simpl; [reflexivity|].
  destruct (String.eqb k k'); simpl; [reflexivity|now rewrite IH].
Qed.

Lemma assoc_replace_prop_other {A : Type} (k k' : string) (a : A)
  (l : list (string * A)) :
  String.eqb k k' = false -> assoc k (replace_prop k' a l) = assoc k l.
Proof.
  intros Hk. induction l as [|[j b] l IH]; simpl; [reflexivity|].
  destruct (String.eqb k' j) eqn:E; simpl.
  - apply String.eqb_eq in E; subst j. now rewrite Hk.
  - destruct (String.eqb k j); [reflexivity|exact IH].
Qed.

Lemma assoc_replace_prop_same {A : Type} (k : string) (a : A)
  (l : list (string * A)) :
  has_key k l = true -> assoc k (replace_prop k a l) = Some a.
Proof.
  unfold has_key. induction l as [|[j b] l IH]; simpl; [discriminate|].
  destruct (String.eqb k j) eqn:E; simpl.
  - now rewrite E.
  - rewrite E. exact IH.
Qed.

Lemma assoc_keys {A B : Type} (k : string) (l : list (string * A))
  (m : list (string * B)) :
  map fst l = map fst m -> has_key k l = has_key k m.
Proof.
  unfold has_key. revert m.
  induction l as [|[j a] l IH]; intros [|[j' b] m] H; simpl in *;
    try discriminate; [reflexivity|].
  injection H as -> H. destruct (String.eqb k j'); [reflexivity|now apply IH].
Qed.

Lemma only_nodes_refl (ed : Editor) : only_nodes ed ed.
Proof. split; [symmetry; apply set_nodes_self|reflexivity]. Qed.

Lemma only_nodes_trans (a b c : Editor) :
  only_nodes a b -> only_nodes b c -> only_nodes a c.
Proof.
  intros [H1 K1] [H2 K2]. split; [|congruence].
  rewrite H2 at 1. rewrite H1. reflexivity.
Qed.

Lemma only_nodes_connections (ed ed' : Editor) :
  only_nodes ed ed' -> connections ed' = connections ed.
Proof. intros [H _]. rewrite H. reflexivity. Qed.

Lemma only_nodes_has_node (ed ed' : Editor) (id : string) :
  only_nodes ed ed' -> has_node ed' id = has_node ed id.
Proof. intros [_ H]. unfold has_node. now apply assoc_keys. Qed.

Lemma forEach_invariant {A : Type} (R : Editor -> Editor -> Prop)
  (l : list A) (body : A -> Editor -> Editor * Completion) :
  (forall ed, R ed ed) ->
  (forall a b c, R a b -> R b c -> R a c) ->
  (forall a ed, In a l -> R ed (fst (body a ed))) ->
  forall ed, R ed (fst (forEach l body ed)).
Proof.
  intros Hrefl Htrans. induction l as [|a l IH]; intros Hbody ed; simpl.
  - apply Hrefl.
  - pose proof (Hbody a ed (or_introl eq_refl)) as Ha.
    destruct (body a ed) as [ed1 [| | |]]; simpl in *; try exact Ha.
    apply Htrans with ed1; [exact Ha|].
    apply IH. intros b e Hb. apply Hbody. now right.
Qed.

Section Frame.

Context {host : Host}.

Lemma run_processor_only_nodes (ed : Editor) (id : string) (nd : NodeData) :
  only_nodes ed (fst (run_processor ed id nd)).
Proof.
  unfold run_processor. destruct (nodeProcessors (ntype nd)) as [p| |].
  - destruct (p ed nd) as [nd' c]. simpl. split.
    + reflexivity.
    + simpl. apply map_fst_replace_prop.
  - apply only_nodes_refl.
  - apply only_nodes_refl.
Qed.

Lemma processNodeData_only_nodes (fuel : nat) :
  forall (id : string) (ed : Editor),
    only_nodes ed (fst (processNodeData fuel id ed)).
Proof.
  induction fuel as [|fuel IH]; intros id ed; simpl.
  - apply only_nodes_refl.
  - destruct (nodes_get ed id) as [nd|]; [|apply only_nodes_refl].
    pose proof (run_processor_only_nodes ed id nd) as Hrun.
    destruct (run_processor ed id nd) as [ed1 [| | |]]; simpl in *; try exact Hrun.
    apply only_nodes_trans with ed1; [exact Hrun|].
    apply forEach_invariant.
    + apply only_nodes_refl.
    + apply only_nodes_trans.
    + intros c e _. destruct (String.eqb (ep_node (c_from c)) id).
      * apply IH.
      * apply only_nodes_refl.
Qed.

End Frame.

Lemma recordState_graph (ed : Editor) :
  recordState ed = set_history (history (recordState ed)) ed.
Proof.
  unfold recordState. destruct (isRestoring (history ed)).
  - destruct ed; reflexivity.
  - destruct (last (map Some (undoStack (history ed))) None) as [top|].
    + destruct (doc_eqb top (serialize ed)); destruct ed; reflexivity.
    + destruct ed; reflexivity.
Qed.

Lemma recordState_connections (ed : Editor) :
  connections (recordState ed) = connections ed.
Proof. rewrite recordState_graph. reflexivity. Qed.

Lemma filter_filter_negb {A : Type} (p : A -> bool) (l : list A) :
  filter p (filter (fun a => negb (p a)) l) = [].
Proof.
  induction l as [|a l IH]; simpl; [reflexivity|].
  destruct (p a) eqn:E; simpl; [exact IH|]. now rewrite E.
Qed.

Section Connections.

Context {host : Host}.

Lemma completeConnection_connections (fuel : nat) (sock : Socket) (ed : Editor)
  (start : Endpoint) :
  connectionStart ed = Some start ->
  s_isInput sock = true ->
  String.eqb (ep_node start) (s_node sock) = false ->
  connections (fst (completeConnection fuel sock ed)) =
  filter (fun c => negb (targets (s_node sock) (s_name sock) c)) (connections ed)
  ++ [mkConnection start (mkEndpoint (s_node sock) (s_name sock))].
Proof.
  intros Hstart Hin Hself. unfold completeConnection.
  rewrite Hstart, Hin, Hself. simpl negb. cbv iota.
  match goal with
  | |- context [processNodeData fuel ?id ?e] =>
      pose proof (processNodeData_only_nodes fuel id e) as Hp;
      destruct (processNodeData fuel id e) as [ed3 c]
  end.
  apply only_nodes_connections in Hp. simpl in Hp.
  rewrite recordState_connections in Hp. simpl in Hp.
  destruct c; simpl; exact Hp.
Qed.

(** C2.  After [completeConnection] has connected the pending output to an
    input socket of another node, exactly one connection of the list
    targets that socket; it is the connection just made, which is the
    last of the list; the connections into other sockets are the ones
    there were. *)
Theorem completeConnection_replaces (fuel : nat) (sock : Socket) (ed : Editor)
  (start : Endpoint) :
  connectionStart ed = Some start ->
  s_isInput sock = true ->
  String.eqb (ep_node start) (s_node sock) = false ->
  let made := mkConnection start (mkEndpoint (s_node sock) (s_name sock)) in
  let after := connections (fst (completeConnection fuel sock ed)) in
  filter (targets (s_node sock) (s_name sock)) after = [made]
  /\ last after made = made
  /\ (forall c, targets (s_node sock) (s_name sock) c = false ->
                (In c after <-> In c (connections ed))).
Proof.
  intros Hstart Hin Hself made after.
  assert (Hafter : after =
            filter (fun c => negb (targets (s_node sock) (s_name sock) c))
              (connections ed) ++ [made])
    by (apply completeConnection_connections; assumption).
  assert (Hmade : targets (s_node sock) (s_name sock) made = true).
  { unfold targets, made. simpl. now rewrite !String.eqb_refl. }
  rewrite Hafter. split; [|split].
  - rewrite filter_app, filter_filter_negb. simpl. now rewrite Hmade.
  - apply last_last.
  - intros c Hc. split; intros H.
    + apply in_app_or in H as [H|H].
      * now apply filter_In in H.
      * destruct H as [<-|[]]. congruence.
    + apply in_or_app. left. apply filter_In. split; [exact H|].
      now rewrite Hc.
Qed.

End Connections.

Lemma completeConnection_replaces_witness :
  connections rewiring = [connect "node_1" "data_out" "node_0" "text_in"]
  /\ connectionStart rewiring = Some (mkEndpoint "node_2" "text_out")
  /\ connections (fst (completeConnection (host := scenarioHost) 5
                         (mkSocket true false "node_0" "text_in") rewiring))
     = [connect "node_2" "text_out" "node_0" "text_in"]
  /\ filter (targets "node_0" "text_in")
       (connections (fst (completeConnection (host := scenarioHost) 5
                            (mkSocket true false "node_0" "text_in")
                            rewiring)))
     = [connect "node_2" "text_out" "node_0" "text_in"].
Proof.
  split; [vm_compute; reflexivity|]. split; [vm_compute; reflexivity|].
  split; [vm_compute; reflexivity|].
  refine (proj1 (completeConnection_replaces (host := scenarioHost) 5
           (mkSocket true false "node_0" "text_in") rewiring
           (mkEndpoint "node_2" "text_out") _ _ _)); vm_compute; reflexivity.
Defined.

Lemma forEach_skip {A : Type} (l : list A)
  (body : A -> Editor -> Editor * Completion) (ed : Editor) :
  (forall a e, In a l -> body a e = (e, Normal)) ->
  forEach l body ed = (ed, Normal).
Proof.
  induction l as [|a l IH]; intros H; simpl; [reflexivity|].
  rewrite (H a ed (or_introl eq_refl)). apply IH.
  intros b e Hb. apply H. now right.
Qed.

Section NoProcessor.

Context {host : Host}.

(** A node without a processor keeps its data through any propagation. *)
Lemma processNodeData_keeps_unprocessed (id : string) (nd : NodeData) :
  nodeProcessors (ntype nd) = Absent ->
  forall (fuel : nat) (m : string) (ed : Editor),
    nodes_get ed id = Some nd ->
    nodes_get (fst (processNodeData fuel m ed)) id = Some nd.
Proof.
  intros Habs. induction fuel as [|fuel IH]; intros m ed Hid; simpl.
  - exact Hid.
  - destruct (nodes_get ed m) as [ndm|] eqn:Hm; [|exact Hid].
    assert (Hrun : nodes_get (fst (run_processor ed m ndm)) id = Some nd).
    { unfold run_processor.
      destruct (String.eqb id m) eqn:E.
      - apply String.eqb_eq in E. subst m.
        assert (ndm = nd) by congruence. subst ndm.
        rewrite Habs. exact Hid.
      - destruct (nodeProcessors (ntype ndm)) as [p| |]; try exact Hid.
        destruct (p ed ndm) as [nd' c]. simpl. unfold nodes_get. simpl.
        rewrite assoc_replace_prop_other by exact E. exact Hid. }
    destruct (run_processor ed m ndm) as [ed1 [| | |]]; simpl in *; try exact Hrun.
    revert Hrun.
    apply (forEach_invariant
             (fun a b => nodes_get a id = Some nd -> nodes_get b id = Some nd)).
    + auto.
    + auto.
    + intros c e _ He.
      destruct (String.eqb (ep_node (c_from c)) m); [now apply IH|exact He].
Qed.

(** C6, amended.  For a node whose type has no processor in the registry,
    [processNodeData] runs no processor: the call is the propagation to
    the targets of the outgoing connections of the node and nothing else,
    it leaves the data of the node itself as they are, and it changes
    nothing at all when the node has no outgoing connection. *)
Theorem processNodeData_without_processor (fuel : nat) (id : string)
  (ed : Editor) (nd : NodeData) :
  nodes_get ed id = Some nd ->
  nodeProcessors (ntype nd) = Absent ->
  processNodeData (S fuel) id ed =
    forEach (connections ed)
      (fun c ed' =>
         if String.eqb (ep_node (c_from c)) id
         then processNodeData fuel (ep_node (c_to c)) ed'
         else (ed', Normal)) ed
  /\ nodes_get (fst (processNodeData (S fuel) id ed)) id = Some nd
  /\ (forallb (fun c => negb (String.eqb (ep_node (c_from c)) id))
        (connections ed) = true ->
      processNodeData (S fuel) id ed = (ed, Normal)).
Proof.
  intros Hid Habs.
  assert (Hstep : processNodeData (S fuel) id ed =
            forEach (connections ed)
              (fun c ed' =>
                 if String.eqb (ep_node (c_from c)) id
                 then processNodeData fuel (ep_node (c_to c)) ed'
                 else (ed', Normal)) ed).
  { simpl. rewrite Hid. unfold run_processor. rewrite Habs. reflexivity. }
  split; [exact Hstep|]. split.
  - now apply processNodeData_keeps_unprocessed.
  - intros Hout. rewrite Hstep. apply forEach_skip.
    intros c e Hc. rewrite forallb_forall in Hout.
    specialize (Hout c Hc). apply negb_true_iff in Hout. now rewrite Hout.
Qed.

End NoProcessor.

Lemma processNodeData_without_processor_witness :
  nodes_get containerFeedsImport "node_0"
  = Some (mkNodeData "node_0" 0 0 "" "" [] None "container" [] (VObj [])
            (VObj []) true [] None)
  /\ nodes_get (fst (processNodeData (host := scenarioHost) 3 "node_0"
                       containerFeedsImport)) "node_0"
     = Some (mkNodeData "node_0" 0 0 "" "" [] None "container" [] (VObj [])
               (VObj []) true [] None).
Proof.
  split; [vm_compute; reflexivity|].
  refine (proj1 (proj2 (processNodeData_without_processor
                          (host := scenarioHost) 2 "node_0" containerFeedsImport
                          _ _ _))); vm_compute; reflexivity.
Defined.

(** Without the amendment the statement fails: propagating from a node of
    type [container], which has no processor, changes the outputs of the
    import node wired to it. *)
Lemma processNodeData_without_processor_counterexample :
  nodeProcessors (host := scenarioHost) "container" = Absent
  /\ option_map ntype (nodes_get containerFeedsImport "node_0") = Some "container"
  /\ option_map outputs (nodes_get containerFeedsImport "node_1") = Some []
  /\ snd (processNodeData (host := scenarioHost) 3 "node_0" containerFeedsImport)
     = Normal
  /\ option_map outputs
       (nodes_get (fst (processNodeData (host := scenarioHost) 3 "node_0"
                          containerFeedsImport)) "node_1")
     = Some [("data_out", VStr "hi")].
Proof. vm_compute. repeat split. Qed.

(** ** Loading a session *)

Section Load.

Context {host : Host}.






End Load.


(** A document whose wires form a cycle ends the recursion budget,
    however large: the error is caught and reported as any other. *)
Example deserialize_cyclicDoc :
  deserialize (host := scenarioHost) 40 (Document cyclicDoc) emptyEditor
  = (fst (deserialize (host := scenarioHost) 40 (Document cyclicDoc)
            emptyEditor), Normal)
  /\ alerts (fst (deserialize (host := scenarioHost) 40 (Document cyclicDoc)
                    emptyEditor)) = [loadError].
Proof. split; vm_compute; reflexivity. Qed.

(** ** The history bound *)

Lemma pairwise_chain (x : SessionDoc) (l : list SessionDoc) :
  pairwise_distinct (x :: l) = true -> chain_distinct (Some x) l = true.
Proof.
  revert x. induction l as [|y l IH]; intros x H; [reflexivity|].
  simpl in H. simpl.
  apply andb_true_iff in H as [H1 H2].
  apply andb_true_iff in H1 as [Hxy _].
  rewrite Hxy. simpl. apply IH. exact H2.
Qed.

Lemma pairwise_chain_None (l : list SessionDoc) :
  pairwise_distinct l = true -> chain_distinct None l = true.
Proof.
  destruct l as [|x l]; [reflexivity|]. intros H. simpl.
  now apply pairwise_chain.
Qed.

Lemma last_map_Some_app {A : Type} (l : list A) (a : A) :
  last (map Some (l ++ [a])) None = Some a.
Proof. rewrite map_app. simpl. apply last_last. Qed.

Lemma last_map_Some_tl {A : Type} (l : list A) (a : A) :
  l <> [] -> last (map Some (tl (l ++ [a]))) None = Some a.
Proof.
  destruct l as [|x l]; [congruence|]. intros _. simpl.
  apply last_map_Some_app.
Qed.

Lemma serialize_with_graph (g ed : Editor) :
  serialize (with_graph g ed) = serialize g.
Proof. reflexivity. Qed.

(** One record of a state that differs from the top of the stack. *)
Lemma recordState_pushes (ed : Editor) :
  isRestoring (history ed) = false ->
  chain_distinct (last (map Some (undoStack (history ed))) None) [serialize ed]
  = true ->
  history (recordState ed) = push_undo (serialize ed) (history ed).
Proof.
  intros Hr Hd. unfold recordState. rewrite Hr.
  destruct (last (map Some (undoStack (history ed))) None) as [top|].
  - simpl in Hd. rewrite andb_true_r in Hd. apply negb_true_iff in Hd.
    rewrite Hd. reflexivity.
  - reflexivity.
Qed.

Lemma recordState_maxHistory (ed : Editor) :
  maxHistory (history (recordState ed)) = maxHistory (history ed)
  /\ isRestoring (history (recordState ed)) = isRestoring (history ed).
Proof.
  unfold recordState. destruct (isRestoring (history ed)) eqn:E; [auto|].
  destruct (last (map Some (undoStack (history ed))) None) as [top|].
  - destruct (doc_eqb top (serialize ed)); simpl; auto.
  - simpl; auto.
Qed.

(** [recordState] keeps the undo stack within [maxHistory]. *)
Lemma recordState_bound (ed : Editor) :
  List.length (undoStack (history ed)) <= maxHistory (history ed) ->
  List.length (undoStack (history (recordState ed))) <= maxHistory (history ed).
Proof.
  intros H. unfold recordState. destruct (isRestoring (history ed)); [exact H|].
  assert (Hp : List.length (undoStack (push_undo (serialize ed) (history ed)))
               <= maxHistory (history ed)).
  { unfold push_undo. simpl.
    destruct (Nat.ltb_spec (maxHistory (history ed))
                (List.length (undoStack (history ed) ++ [serialize ed]))) as [L|L].
    - destruct (undoStack (history ed) ++ [serialize ed]) eqn:E; simpl; [lia|].
      assert (List.length (undoStack (history ed) ++ [serialize ed])
              = S (List.length l)) by (rewrite E; reflexivity).
      rewrite length_app in H0. simpl in H0. lia.
    - exact L. }
  destruct (last (map Some (undoStack (history ed))) None) as [top|].
  - destruct (doc_eqb top (serialize ed)); [exact H|exact Hp].
  - exact Hp.
Qed.

Lemma record_all_bound (graphs : list Editor) :
  forall ed : Editor,
    List.length (undoStack (history ed)) <= maxHistory (history ed) ->
    List.length (undoStack (history (record_all graphs ed)))
    <= maxHistory (history ed).
Proof.
  induction graphs as [|g graphs IH]; intros ed H; [exact H|].
  unfold record_all. simpl. fold (record_all graphs (recordState (with_graph g ed))).
  pose proof (recordState_bound (with_graph g ed) H) as Hb.
  pose proof (recordState_maxHistory (with_graph g ed)) as [Hm _].
  simpl in Hm, Hb.
  specialize (IH (recordState (with_graph g ed))).
  rewrite Hm in IH. apply IH. exact Hb.
Qed.

Lemma tl_app_nonempty {A : Type} (l m : list A) :
  l <> [] -> tl (l ++ m) = tl l ++ m.
Proof. destruct l; [congruence|reflexivity]. Qed.

(** The stack after a sequence of records of states each different from
    the one before: the last [maxHistory] of all the states recorded. *)
Lemma record_all_stack (graphs : list Editor) :
  forall (ed : Editor) (m : nat),
    maxHistory (history ed) = m -> 1 <= m ->
    isRestoring (history ed) = false ->
    List.length (undoStack (history ed)) <= m ->
    chain_distinct (last (map Some (undoStack (history ed))) None)
      (map serialize graphs) = true ->
    undoStack (history (record_all graphs ed))
    = skipn (List.length (undoStack (history ed)) + List.length graphs - m)
        (undoStack (history ed) ++ map serialize graphs).
Proof.
  induction graphs as [|g graphs IH]; intros ed m Hm Hpos Hr Hlen Hd.
  - simpl. rewrite Nat.add_0_r, app_nil_r.
    replace (List.length (undoStack (history ed)) - m) with 0 by lia.
    reflexivity.
  - unfold record_all. simpl fold_left.
    fold (record_all graphs (recordState (with_graph g ed))).
    simpl map in Hd. simpl chain_distinct in Hd.
    apply andb_true_iff in Hd as [Hd1 Hd2].
    assert (Hpush : history (recordState (with_graph g ed))
                    = push_undo (serialize g) (history ed)).
    { rewrite recordState_pushes; [reflexivity|exact Hr|].
      change (chain_distinct (last (map Some (undoStack (history ed))) None)
                [serialize g] = true).
      simpl chain_distinct. rewrite Hd1. reflexivity. }
    set (S0 := undoStack (history ed)) in *.
    assert (Hstack : undoStack (history (recordState (with_graph g ed)))
                     = if m <? List.length (S0 ++ [serialize g])
                       then tl (S0 ++ [serialize g]) else S0 ++ [serialize g]).
    { rewrite Hpush. unfold push_undo. simpl. now rewrite Hm. }
    rewrite (IH (recordState (with_graph g ed)) m).
    + rewrite Hstack. rewrite length_app. simpl List.length.
      destruct (Nat.ltb_spec m (List.length S0 + 1)) as [L|L].
      * assert (HS : List.length S0 = m) by lia.
        destruct S0 as [|x S'] eqn:ES; [simpl in HS; lia|].
        simpl tl. simpl List.length in *.
        rewrite length_app. simpl List.length.
        replace (List.length S' + 1 + List.length graphs - m)
          with (List.length graphs) by lia.
        replace (S (List.length S') + S (List.length graphs) - m)
          with (S (List.length graphs)) by lia.
        simpl. rewrite <- app_assoc. reflexivity.
      * rewrite length_app. simpl List.length.
        replace (List.length S0 + 1 + List.length graphs - m)
          with (List.length S0 + S (List.length graphs) - m) by lia.
        rewrite <- app_assoc. reflexivity.
    + rewrite Hpush. exact Hm.
    + exact Hpos.
    + rewrite Hpush. exact Hr.
    + rewrite Hstack. rewrite length_app. simpl List.length.
      destruct (Nat.ltb_spec m (List.length S0 + 1)) as [L|L].
      * destruct S0 as [|x S']; simpl in *; [lia|]. rewrite length_app. simpl. lia.
      * rewrite length_app. simpl. lia.
    + rewrite Hstack.
      destruct (Nat.ltb_spec m (List.length (S0 ++ [serialize g]))) as [L|L].
      * rewrite last_map_Some_tl; [exact Hd2|].
        rewrite length_app in L. simpl in L.
        destruct S0; [simpl in *; lia|congruence].
      * rewrite last_map_Some_app. exact Hd2.
Qed.

Lemma record_all_firstn_bound (graphs : list Editor) (n : nat) :
  List.length (undoStack (history (record_all (firstn n graphs) emptyEditor)))
  <= 50.
Proof. apply (record_all_bound (firstn n graphs) emptyEditor). simpl. lia. Qed.

(** C5.  When [recordState] is called [maxHistory + k] times, on states
    that are pairwise distinct, the undo stack never holds more than
    [maxHistory] = 50 entries, and in the end it holds the last fifty
    states recorded, in the order of their recording: the oldest were
    evicted first. *)
Theorem recordState_history_bound (k : nat) (graphs : list Editor) :
  List.length graphs = maxHistory (history emptyEditor) + k ->
  pairwise_distinct (map serialize graphs) = true ->
  maxHistory (history emptyEditor) = 50
  /\ (forall n : nat,
        List.length
          (undoStack (history (record_all (firstn n graphs) emptyEditor)))
        <= 50)
  /\ undoStack (history (record_all graphs emptyEditor))
     = skipn k (map serialize graphs).
Proof.
  intros Hlen Hd. split; [reflexivity|]. split.
  - intros n. apply record_all_firstn_bound.
  - assert (H50 : maxHistory (history emptyEditor) = 50) by reflexivity.
    rewrite H50 in Hlen.
    assert (Hs : undoStack (history (record_all graphs emptyEditor))
                 = skipn (0 + List.length graphs - 50)
                     ([] ++ map serialize graphs)).
    { apply (record_all_stack graphs emptyEditor 50).
      - reflexivity.
      - lia.
      - reflexivity.
      - apply Nat.le_0_l.
      - now apply pairwise_chain_None. }
    rewrite Hs, Hlen. replace (0 + (50 + k) - 50) with k by lia. reflexivity.
Qed.

Lemma recordState_history_bound_witness :
  List.length (counterGraphs 51) = maxHistory (history emptyEditor) + 1
  /\ pairwise_distinct (map serialize (counterGraphs 51)) = true
  /\ undoStack (history (record_all (counterGraphs 51) emptyEditor))
     = skipn 1 (map serialize (counterGraphs 51)).
Proof.
  split; [vm_compute; reflexivity|]. split; [vm_compute; reflexivity|].
  refine (proj2 (proj2 (recordState_history_bound 1 (counterGraphs 51) _ _)));
    vm_compute; reflexivity.
Defined.

(** ** Properties of objects *)

Lemma assoc_app_absent {A : Type} (k : string) (a : A) (l : list (string * A)) :
  assoc k l = None -> assoc k (l ++ [(k, a)]) = Some a.
Proof.
  induction l as [|[j b] l IH]; simpl.
  - now rewrite String.eqb_refl.
  - destruct (String.eqb k j); [discriminate|exact IH].
Qed.

Lemma assoc_app_other {A : Type} (k k' : string) (a : A) (l : list (string * A)) :
  String.eqb k k' = false -> assoc k (l ++ [(k', a)]) = assoc k l.
Proof.
  intros H. induction l as [|[j b] l IH]; simpl.
  - now rewrite H.
  - destruct (String.eqb k j); [reflexivity|exact IH].
Qed.

Lemma assoc_insert_index_absent {A : Type} (i : Z) (k : string) (a : A)
  (l : list (string * A)) :
  assoc k l = None -> assoc k (insert_index i k a l) = Some a.
Proof.
  induction l as [|[j b] l IH]; simpl.
  - now rewrite String.eqb_refl.
  - destruct (String.eqb k j) eqn:E; [discriminate|]. intros H.
    destruct (array_index j) as [n|].
    + destruct (n <? i)%Z; simpl.
      * rewrite E. now apply IH.
      * now rewrite String.eqb_refl.
    + simpl. now rewrite String.eqb_refl.
Qed.

Lemma assoc_insert_index_other {A : Type} (i : Z) (k k' : string) (a : A)
  (l : list (string * A)) :
  String.eqb k k' = false -> assoc k (insert_index i k' a l) = assoc k l.
Proof.
  intros H. induction l as [|[j b] l IH]; simpl.
  - now rewrite H.
  - destruct (array_index j) as [n|].
    + destruct (n <? i)%Z; simpl.
      * destruct (String.eqb k j); [reflexivity|exact IH].
      * now rewrite H.
    + simpl. now rewrite H.
Qed.

Lemma assoc_set_prop_same {A : Type} (k : string) (a : A) (l : list (string * A)) :
  assoc k (set_prop l k a) = Some a.
Proof.
  unfold set_prop, has_key. destruct (assoc k l) eqn:E.
  - apply assoc_replace_prop_same. unfold has_key. now rewrite E.
  - destruct (array_index k).
    + now apply assoc_insert_index_absent.
    + now apply assoc_app_absent.
Qed.

Lemma assoc_set_prop_other {A : Type} (k k' : string) (a : A)
  (l : list (string * A)) :
  String.eqb k k' = false -> assoc k (set_prop l k' a) = assoc k l.
Proof.
  intros H. unfold set_prop. destruct (has_key k' l).
  - now apply assoc_replace_prop_other.
  - destruct (array_index k').
    + now apply assoc_insert_index_other.
    + now apply assoc_app_other.
Qed.

Lemma set_status_output (s : string) (nd : NodeData) :
  outputs (fst (set_status s nd)) = outputs nd.
Proof. unfold set_status. destruct (status nd); reflexivity. Qed.

Lemma set_status_normal (s s0 : string) (nd : NodeData) :
  status nd = Some s0 ->
  set_status s nd = (set_status_text (Some s) nd, Returned).
Proof. intros H. unfold set_status. now rewrite H. Qed.

(** ** The aggregation scenario *)

(** C9.  An aggregate node whose parameters are [groupBy = cat],
    [aggFunc = sum] and [aggKey = v], and whose input is the array
    [[{cat:x, v:1}, {cat:x, v:2}, {cat:y, v:5}]] of the scenario, sets
    its output [data_out] to [[{cat:x, sum_of_v:3}, {cat:y, sum_of_v:5}]],
    and completes normally when it has its status line. *)
Theorem processAggregateNode_scenario (ed : Editor) (nd : NodeData)
  (conn : Connection) (g f a : Control) :
  querySelector (fun c => is_input c && has_param "groupBy" c) nd = Some g ->
  querySelector (fun c => is_select c && has_param "aggFunc" c) nd = Some f ->
  querySelector (fun c => is_input c && has_param "aggKey" c) nd = Some a ->
  cvalue g = "cat" -> cvalue f = "sum" -> cvalue a = "v" ->
  find_input ed nd "data_in" = Some conn ->
  source_output ed conn = Ok scenarioRows ->
  assoc "data_out" (outputs (fst (processAggregateNode ed nd)))
  = Some (VArr [ VObj [("cat", VStr "x"); ("sum_of_v", VNum (num_of_Z 3))];
                 VObj [("cat", VStr "y"); ("sum_of_v", VNum (num_of_Z 5))] ])
  /\ (forall s0 : string, status nd = Some s0 ->
        snd (processAggregateNode ed nd) = Returned).
Proof.
  intros Hg Hf Ha Vg Vf Va Hin Hsrc.
  unfold processAggregateNode. rewrite Hg, Hf, Ha, Vg, Vf, Va, Hin.
  cbn [String.eqb Ascii.eqb Bool.eqb orb]. rewrite Hsrc.
  cbv beta iota delta [scenarioRows].
  match goal with
  | |- context [group_rows ?a ?b ?c] =>
      let r := eval vm_compute in (group_rows a b c) in
      change (group_rows a b c) with r
  end.
  cbv beta iota.
  match goal with
  | |- context [aggregate_groups ?a ?b ?c ?d] =>
      let r := eval vm_compute in (aggregate_groups a b c d) in
      change (aggregate_groups a b c d) with r
  end.
  cbv beta iota.
  split.
  - rewrite set_status_output. unfold set_output. simpl outputs.
    apply assoc_set_prop_same.
  - intros s0 Hs. erewrite set_status_normal; [reflexivity|exact Hs].
Qed.

Lemma processAggregateNode_scenario_witness :
  find_input aggregateScenario
    (freshNode "aggregate" "node_1"
       [("groupBy", CStr "cat"); ("aggFunc", CStr "sum"); ("aggKey", CStr "v")])
    "data_in"
  = Some (connect "node_0" "data_out" "node_1" "data_in")
  /\ source_output aggregateScenario (connect "node_0" "data_out" "node_1" "data_in")
     = Ok scenarioRows
  /\ assoc "data_out"
       (outputs (fst (processAggregateNode aggregateScenario
                        (freshNode "aggregate" "node_1"
                           [("groupBy", CStr "cat"); ("aggFunc", CStr "sum");
                            ("aggKey", CStr "v")]))))
     = Some (VArr [ VObj [("cat", VStr "x"); ("sum_of_v", VNum (num_of_Z 3))];
                    VObj [("cat", VStr "y"); ("sum_of_v", VNum (num_of_Z 5))] ]).
Proof.
  split; [vm_compute; reflexivity|]. split; [vm_compute; reflexivity|].
  refine (proj1 (processAggregateNode_scenario aggregateScenario
                   (freshNode "aggregate" "node_1"
                      [("groupBy", CStr "cat"); ("aggFunc", CStr "sum");
                       ("aggKey", CStr "v")])
                   (connect "node_0" "data_out" "node_1" "data_in")
                   (param_control InputText "groupBy" "cat")
                   (param_control SelectBox "aggFunc" "sum")
                   (param_control InputText "aggKey" "v")
                   _ _ _ _ _ _ _ _)); vm_compute; reflexivity.
Defined.

(** ** The filter processor *)

Section Filter.

Context {host : Host}.


Lemma array_filter_returns (f : value -> Called value) (rows : list value) :
  (forall r : value, In r rows -> returns_on f r) ->
  array_filter f rows = Returns (filter (passes f) rows).
Proof.
  induction rows as [|x rows IH]; intros H; [reflexivity|].
  simpl. unfold passes at 1.
  destruct (H x (or_introl eq_refl)) as [v Hv]. rewrite Hv.
  rewrite IH by (intros r Hr; apply H; now right).
  reflexivity.
Qed.




Lemma catch_evaluation_spec (e : value) (nd : NodeData) (s0 : string) :
  status nd = Some s0 ->
  assoc "data_out" (outputs (fst (catch_evaluation e nd))) = Some (VArr [])
  /\ match message_of e with
     | Ok s =>
         snd (catch_evaluation e nd) = Returned
         /\ status (fst (catch_evaluation e nd)) = Some ("Error: " ++ s)%string
     | Raise m =>
         snd (catch_evaluation e nd) = Thrown m
         /\ status (fst (catch_evaluation e nd)) = Some s0
     end.
Proof.
  intros Hs. unfold catch_evaluation, message_of.
  destruct (get e "message") as [message|m].
  - destruct (toString message) as [s|m].
    + unfold set_status, set_output. simpl. rewrite Hs. simpl.
      split; [apply assoc_set_prop_same|split; reflexivity].
    + simpl. split; [apply assoc_set_prop_same|split; [reflexivity|exact Hs]].
  - simpl. split; [apply assoc_set_prop_same|split; [reflexivity|exact Hs]].
Qed.

(** What the filter processor does with a condition that is not empty,
    by the three ways in which the evaluation can end. *)
Lemma processFilterNode_evaluates (ed : Editor) (nd : NodeData)
  (conn : Connection) (rows : list value) (cond : Control) (s0 : string) :
  find_input ed nd "data_in" = Some conn ->
  source_output ed conn = Ok (VArr rows) ->
  querySelector (fun c => is_textarea c && has_param "condition" c) nd
  = Some cond ->
  status nd = Some s0 ->
  String.eqb (cvalue cond) "" = false ->
  processFilterNode ed nd
  = match newFunction "row" ("return " ++ cvalue cond)%string with
    | Raise m => catch_evaluation (error m) nd
    | Ok f =>
        match array_filter f rows with
        | Returns kept =>
            (set_status_text
               (Some ("Filtered " ++ string_of_nat (List.length rows)
                      ++ " rows to " ++ string_of_nat (List.length kept)
                      ++ ".")%string)
               (set_output "data_out" (VArr kept) nd), Returned)
        | Throws e => catch_evaluation e nd
        | Strays => (nd, Strayed)
        end
    end.
Proof.
  intros Hin Hsrc Hc Hs Hne. unfold processFilterNode.
  rewrite Hin, Hsrc, Hc, Hne.
  destruct (newFunction "row" ("return " ++ cvalue cond)) as [f|m];
    [|reflexivity].
  destruct (array_filter f rows) as [kept|e|]; try reflexivity.
  unfold set_status. simpl. rewrite Hs. reflexivity.
Qed.


End Filter.




(** ** The JSON processor *)

Section Json.

Context {host : Host}.

(** The JSON processor contains its errors as the filter processor does:
    with its input connected it returns, and when the input is not JSON
    text its output becomes the empty object and its status line the
    error message. *)
Lemma processJsonNode_contains_errors (ed : Editor) (nd : NodeData)
  (conn : Connection) (sel : Control) (s0 : string) (v : value) :
  querySelector (fun c => is_select c && has_param "operation" c) nd = Some sel ->
  find_input ed nd "data_in" = Some conn ->
  source_output ed conn = Ok v ->
  status nd = Some s0 ->
  snd (processJsonNode ed nd) = Returned
  /\ (forall text e : string,
        String.eqb (cvalue sel) "parse" = true ->
        toString v = Ok text ->
        JSON_parse text = Raise e ->
        assoc "data_out" (outputs (fst (processJsonNode ed nd))) = Some (VObj [])
        /\ status (fst (processJsonNode ed nd)) = Some ("Error: " ++ e)%string).
Proof.
  intros Hsel Hin Hsrc Hs. unfold processJsonNode. rewrite Hsel, Hin, Hsrc.
  split.
  - destruct (String.eqb (cvalue sel) "parse").
    + destruct (toString v) as [text|e].
      * destruct (JSON_parse text) as [parsed|e].
        -- erewrite set_status_normal; [reflexivity|exact Hs].
        -- erewrite set_status_normal; [reflexivity|exact Hs].
      * erewrite set_status_normal; [reflexivity|exact Hs].
    + erewrite set_status_normal; [reflexivity|exact Hs].
  - intros text e Hop Ht Hp. rewrite Hop, Ht, Hp.
    erewrite set_status_normal; [|exact Hs].
    unfold json_neutral. rewrite Hop. simpl.
    split; [apply assoc_set_prop_same|reflexivity].
Qed.

End Json.

(** ** Propagation on acyclic graphs *)


Lemma has_node_get (ed : Editor) (id : string) :
  has_node ed id = true -> exists nd, nodes_get ed id = Some nd.
Proof.
  unfold has_node, has_key, nodes_get.
  destruct (assoc id (nodes ed)) as [nd|]; [eauto|discriminate].
Qed.




Section Propagation.

Context {host : Host}.



Lemma trace_each_covers (ed : Editor) (f : nat) (a : string) :
  (forall b cur, only_nodes ed cur ->
     snd (processNodeData f b cur) = Normal ->
     forall n, reachable ed b n -> In n (visited f b cur)) ->
  forall (cs : list Connection) (e : Editor),
    only_nodes ed e ->
    snd (forEach cs
           (fun c ed' =>
              if String.eqb (ep_node (c_from c)) a
              then processNodeData f (ep_node (c_to c)) ed'
              else (ed', Normal)) e) = Normal ->
    forall c, In c cs -> ep_node (c_from c) = a ->
    forall n, reachable ed (ep_node (c_to c)) n ->
    In n (trace_each (visited f) (processNodeData f) a cs e).
Proof.
  intros IH. induction cs as [|c0 r IHr]; intros e He Hn c Hc Hfrom n Hreach;
    [contradiction|].
  simpl in Hn. simpl trace_each.
  destruct (String.eqb (ep_node (c_from c0)) a) eqn:E0.
  - pose proof (processNodeData_only_nodes f (ep_node (c_to c0)) e) as Hon.
    destruct (processNodeData f (ep_node (c_to c0)) e) as [e' k] eqn:Ek.
    destruct k; simpl in Hn; try discriminate.
    apply in_or_app. destruct Hc as [<-|Hc].
    + left. apply IH; [exact He| |exact Hreach]. now rewrite Ek.
    + right. apply (IHr e') with (c := c); try assumption.
      eapply only_nodes_trans; [exact He|exact Hon].
  - destruct Hc as [<-|Hc].
    + apply String.eqb_neq in E0. contradiction.
    + now apply (IHr e) with (c := c).
Qed.

(** A propagation that completes normally has run on every node that
    can be reached. *)
Lemma processNodeData_visits (ed : Editor) :
  forall (f : nat) (a : string) (cur : Editor),
    only_nodes ed cur ->
    snd (processNodeData f a cur) = Normal ->
    forall n, reachable ed a n -> In n (visited f a cur).
Proof.
  induction f as [|f IH]; intros a cur Hcur Hn n Hreach; [discriminate|].
  assert (Ha : has_node ed a = true).
  { destruct Hreach as [a H|a b c [H _] _]; exact H. }
  rewrite <- (only_nodes_has_node ed cur a Hcur) in Ha.
  apply has_node_get in Ha as [nd Hnd].
  simpl in Hn. simpl visited. rewrite Hnd in *.
  destruct Hreach as [a _|a b n Hedge Hreach]; [now left|].
  right.
  pose proof (run_processor_only_nodes cur a nd) as Hon.
  destruct (run_processor cur a nd) as [ed1 k].
  destruct k; simpl in Hn; try discriminate.
  assert (Hed1 : only_nodes ed ed1) by (eapply only_nodes_trans; eassumption).
  destruct Hedge as (_ & _ & c & Hc & Hfrom & Hto). subst b.
  apply (trace_each_covers ed f a IH (connections ed1) ed1 Hed1 Hn c);
    try assumption.
  rewrite (only_nodes_connections ed ed1 Hed1). exact Hc.
Qed.


End Propagation.



(** In the chain of the two CSV parsers the second parser throws on the
    array that the first one hands it, whatever the depth allowed. *)
Lemma processNodeData_csvChain (fuel : nat) :
  snd (processNodeData (host := scenarioHost) (3 + fuel) "node_0" csvChain)
  = Throw "csvText.trim is not a function"
  /\ visited (host := scenarioHost) (3 + fuel) "node_0" csvChain
     = ["node_0"; "node_1"; "node_2"].
Proof. vm_compute. split; reflexivity. Qed.



(** ** The merge processor *)

Lemma num_eqb_sym (a b : number) : num_eqb a b = num_eqb b a.
Proof.
  destruct a as [|s|p], b as [|t|q]; simpl; try reflexivity.
  - now destruct s, t.
  - apply eq_true_iff_eq. rewrite !Qeq_bool_iff. split; intros H; now symmetry.
Qed.

Lemma num_eqb_trans (a b c : number) :
  num_eqb a b = true -> num_eqb b c = true -> num_eqb a c = true.
Proof.
  destruct a as [|s|p], b as [|t|q], c as [|u|r]; simpl; try discriminate; auto.
  - destruct s, t, u; simpl; auto.
  - rewrite !Qeq_bool_iff. intros H1 H2. now rewrite H1.
Qed.

Lemma same_key_sym (a b : value) : same_key a b = same_key b a.
Proof.
  destruct a, b; simpl; try reflexivity.
  - now destruct b, b0.
  - apply num_eqb_sym.
  - apply String.eqb_sym.
  - apply String.eqb_sym.
Qed.

Lemma same_key_trans (a b c : value) :
  same_key a b = true -> same_key b c = true -> same_key a c = true.
Proof.
  destruct a, b; simpl; try discriminate; destruct c; simpl; try discriminate;
    auto.
  - destruct b, b0, b1; simpl; auto.
  - apply num_eqb_trans.
  - intros H1 H2. apply String.eqb_eq in H1, H2. subst. apply String.eqb_refl.
  - intros H1 H2. apply String.eqb_eq in H1, H2. subst. apply String.eqb_refl.
Qed.

(** A comparison with a primitive value has an answer. *)
Lemma sameValueZero_primitive (a b : value) :
  is_primitive a = true -> sameValueZero a b = Some (same_key a b).
Proof. destruct a; simpl; try discriminate; reflexivity. Qed.

Lemma record_get (v : value) (k : string) :
  is_record v = true -> get v k = Ok (field v k).
Proof. destruct v; simpl; try discriminate. intros _. unfold field. simpl.
  destruct (assoc k props); reflexivity.
Qed.

Lemma record_truthy (v : value) : is_record v = true -> truthy v = true.
Proof. destruct v; simpl; try discriminate. reflexivity. Qed.

Lemma map_get_miss (m : list (value * value)) (x : value) :
  keys_primitive m = true ->
  map_has m x = false -> map_get m x = Some VUndefined.
Proof.
  induction m as [|[k v] m IH]; simpl; [reflexivity|].
  intros Hp. apply andb_true_iff in Hp as [Hk Hp].
  rewrite (sameValueZero_primitive k x Hk).
  destruct (same_key k x); simpl; [discriminate|now apply IH].
Qed.

Lemma map_get_hit (m : list (value * value)) (x : value) :
  keys_primitive m = true ->
  map_has m x = true ->
  exists k v, map_get m x = Some v /\ In (k, v) m /\ same_key k x = true.
Proof.
  induction m as [|[k v] m IH]; simpl; [discriminate|].
  intros Hp. apply andb_true_iff in Hp as [Hk Hp].
  rewrite (sameValueZero_primitive k x Hk).
  destruct (same_key k x) eqn:E; simpl.
  - intros _. exists k, v. auto.
  - intros H. destruct (IH Hp H) as (k' & v' & Hg & Hin & Hk').
    exists k', v'. auto.
Qed.

(** Setting a primitive key in a map of primitive keys. *)
Lemma map_set_spec (m : list (value * value)) (k v : value) :
  keys_primitive m = true ->
  is_primitive k = true ->
  exists m',
    map_set m k v = Some m'
    /\ keys_primitive m' = true
    /\ (forall e, In e m' ->
          In e m \/ e = (k, v)
          \/ (exists k', e = (k', v) /\ same_key k' k = true))
    /\ (forall x, map_has m' x
                  = map_has m x || (negb (map_has m k) && same_key k x)).
Proof.
  intros Hp Hk. induction m as [|[k0 v0] m IH]; simpl.
  - exists [(k, v)]. split; [reflexivity|]. split; [simpl; now rewrite Hk|].
    split.
    + intros e [<-|[]]. auto.
    + intros x. simpl. now rewrite orb_false_r.
  - simpl in Hp. apply andb_true_iff in Hp as [Hk0 Hp].
    rewrite (sameValueZero_primitive k0 k Hk0).
    destruct (same_key k0 k) eqn:E.
    + exists ((k0, v) :: m). split; [reflexivity|].
      split; [simpl; now rewrite Hk0|]. split.
      * intros e [<-|He]; [|auto]. right. right. exists k0. auto.
      * intros x. simpl. now rewrite orb_false_r.
    + destruct (IH Hp) as (m' & Hs & Hp' & Hent & Hhas). rewrite Hs.
      exists ((k0, v0) :: m'). split; [reflexivity|].
      split; [simpl; now rewrite Hk0|]. split.
      * intros e [<-|He]; [auto|].
        destruct (Hent e He) as [H|[H|H]]; auto.
      * intros x. simpl. rewrite Hhas. now rewrite orb_assoc.
Qed.

Lemma key_pairs_records (rightKey : string) (rows : list value) :
  forallb is_record rows = true ->
  key_pairs rightKey rows = Ok (map (fun r => (field r rightKey, r)) rows).
Proof.
  induction rows as [|item rows IH]; intros Hrec; [reflexivity|].
  simpl in Hrec. apply andb_true_iff in Hrec as [Hitem Hrows].
  simpl. rewrite (record_get item rightKey Hitem), (IH Hrows). reflexivity.
Qed.

Lemma new_Map_inv (rightKey : string) (rows : list value) :
  forallb (fun r => is_primitive (field r rightKey)) rows = true ->
  forall (seen : list value) (m : list (value * value)),
    keys_primitive m = true ->
    map_inv rightKey seen m ->
    exists m', new_Map (map (fun r => (field r rightKey, r)) rows) m = Some m'
               /\ keys_primitive m' = true
               /\ map_inv rightKey (seen ++ rows) m'.
Proof.
  induction rows as [|item rows IH]; intros Hprim seen m Hp Hm.
  - exists m. rewrite app_nil_r. auto.
  - simpl in Hprim. apply andb_true_iff in Hprim as [Hitem Hrows].
    simpl.
    destruct (map_set_spec m (field item rightKey) item Hp Hitem)
      as (m1 & Hs & Hp1 & Hent & Hhas).
    rewrite Hs.
    destruct (IH Hrows (seen ++ [item]) m1 Hp1) as (m' & Hb & Hp' & Hinv).
    + destruct Hm as [H1 H2]. split.
      * intros k v Hin. apply Hent in Hin as [Hin|[Heq|(k' & Heq & Hk')]].
        -- destruct (H1 k v Hin) as [Hs' Hx]. split; [|exact Hx].
           apply in_or_app. now left.
        -- injection Heq as -> ->. split; [|auto].
           apply in_or_app. right. now left.
        -- injection Heq as -> ->. split.
           ++ apply in_or_app. right. now left.
           ++ intros x Hx. apply same_key_trans with k'; [|exact Hx].
              now rewrite same_key_sym.
      * intros r x Hin Hx. rewrite Hhas.
        apply in_app_or in Hin as [Hin|[<-|[]]].
        -- rewrite (H2 r x Hin Hx). reflexivity.
        -- destruct (map_has m (field item rightKey)) eqn:Eh.
           ++ apply (map_get_hit m _ Hp) in Eh as (k & v & _ & Hk & Hsame).
              assert (Hkx : same_key k x = true)
                by (apply same_key_trans with (field item rightKey);
                    assumption).
              assert (map_has m x = true) as ->; [|reflexivity].
              unfold map_has. apply existsb_exists.
              eexists. split; [exact Hk|exact Hkx].
           ++ simpl. rewrite Hx. apply orb_true_r.
    + exists m'. split; [exact Hb|]. split; [exact Hp'|].
      now rewrite <- app_assoc in Hinv.
Qed.

(** *** Object spread *)

Lemma has_key_assoc {A : Type} (k : string) (l : list (string * A)) :
  has_key k l = false -> assoc k l = None.
Proof. unfold has_key. destruct (assoc k l); [discriminate|reflexivity]. Qed.


Lemma distinct_keys_keys {A B : Type} (l : list (string * A))
  (m : list (string * B)) :
  map fst l = map fst m -> distinct_keys l = distinct_keys m.
Proof.
  revert m. induction l as [|[k a] l IH]; intros [|[j b] m] H; simpl in *;
    try discriminate; [reflexivity|].
  injection H as -> H. rewrite (assoc_keys j l m H). now rewrite (IH m H).
Qed.

Lemma distinct_keys_app {A : Type} (k : string) (a : A) (l : list (string * A)) :
  has_key k l = false -> distinct_keys l = true ->
  distinct_keys (l ++ [(k, a)]) = true.
Proof.
  induction l as [|[j b] l IH]; simpl; intros Hk Hd; [reflexivity|].
  unfold has_key in Hk. simpl in Hk.
  destruct (String.eqb k j) eqn:E; [discriminate|].
  apply andb_true_iff in Hd as [Hj Hd].
  rewrite IH; [|unfold has_key; exact Hk|exact Hd].
  unfold has_key. rewrite assoc_app_other.
  - unfold has_key in Hj. now rewrite Hj.
  - now rewrite String.eqb_sym.
Qed.

Lemma distinct_keys_insert_index {A : Type} (i : Z) (k : string) (a : A)
  (l : list (string * A)) :
  has_key k l = false -> distinct_keys l = true ->
  distinct_keys (insert_index i k a l) = true.
Proof.
  induction l as [|[j b] l IH]; simpl; intros Hk Hd; [reflexivity|].
  assert (Hkj : String.eqb k j = false /\ has_key k l = false).
  { unfold has_key in *. simpl in Hk. destruct (String.eqb k j); [discriminate|].
    auto. }
  destruct Hkj as [Hkj Hkl].
  apply andb_true_iff in Hd as [Hj Hd].
  assert (Hfull : distinct_keys ((k, a) :: (j, b) :: l) = true).
  { simpl. unfold has_key at 1. simpl. rewrite Hkj. fold (has_key k l).
    rewrite Hkl, Hj, Hd. reflexivity. }
  destruct (array_index j) as [n|]; [|exact Hfull].
  destruct (n <? i)%Z; [|exact Hfull].
  simpl. rewrite IH by assumption.
  unfold has_key. rewrite assoc_insert_index_other.
  - unfold has_key in Hj. now rewrite Hj.
  - now rewrite String.eqb_sym.
Qed.

Lemma distinct_keys_set_prop {A : Type} (k : string) (a : A)
  (l : list (string * A)) :
  distinct_keys l = true -> distinct_keys (set_prop l k a) = true.
Proof.
  intros Hd. unfold set_prop. destruct (has_key k l) eqn:E.
  - rewrite (distinct_keys_keys _ l); [exact Hd|apply map_fst_replace_prop].
  - destruct (array_index k).
    + now apply distinct_keys_insert_index.
    + now apply distinct_keys_app.
Qed.

Lemma spread_into_distinct (v : value) (acc : list (string * value)) :
  distinct_keys acc = true -> distinct_keys (spread_into acc v) = true.
Proof.
  unfold spread_into. generalize (own_enumerable v) as props.
  intros props. revert acc.
  induction props as [|[k x] props IH]; intros acc Hd; simpl; [exact Hd|].
  apply IH. now apply distinct_keys_set_prop.
Qed.

Lemma spread_into_assoc (props acc : list (string * value)) (k : string) :
  distinct_keys props = true ->
  assoc k (fold_left (fun a kv => set_prop a (fst kv) (snd kv)) props acc)
  = match assoc k props with
    | Some x => Some x
    | None => assoc k acc
    end.
Proof.
  revert acc. induction props as [|[j y] props IH]; intros acc Hd; simpl;
    [reflexivity|].
  simpl in Hd. apply andb_true_iff in Hd as [Hj Hd].
  rewrite (IH _ Hd).
  destruct (String.eqb k j) eqn:E.
  - apply String.eqb_eq in E. subst j.
    apply negb_true_iff in Hj. rewrite (has_key_assoc _ _ Hj).
    apply assoc_set_prop_same.
  - destruct (assoc k props); [reflexivity|].
    now apply assoc_set_prop_other.
Qed.

Lemma spread2_merged (l r : value) :
  is_record l = true -> is_record r = true -> merged_of l r (spread2 l r).
Proof.
  destruct l as [| | | | | |lp|]; simpl; try discriminate.
  destruct r as [| | | | | |rp|]; simpl; try discriminate.
  intros Hl Hr. split.
  - simpl. apply spread_into_distinct. now apply spread_into_distinct.
  - intros k. simpl. unfold spread_into. simpl.
    rewrite (spread_into_assoc rp _ k Hr).
    destruct (assoc k rp); [reflexivity|].
    rewrite (spread_into_assoc lp [] k Hl).
    destruct (assoc k lp); reflexivity.
Qed.

Lemma merge_rows_join (leftKey rightKey : string) (right : list value)
  (map2 : list (value * value)) :
  forallb is_record right = true ->
  keys_primitive map2 = true ->
  map_inv rightKey right map2 ->
  forall left : list value,
    forallb is_record left = true ->
    exists merged,
      merge_rows leftKey map2 left = Some (Ok merged)
      /\ Forall2 (left_outer_line leftKey rightKey right) left merged.
Proof.
  intros Hright Hp [H1 H2]. induction left as [|l left IH]; intros Hleft.
  - exists []. split; [reflexivity|constructor].
  - simpl in Hleft. apply andb_true_iff in Hleft as [Hl Hleft].
    destruct (IH Hleft) as (merged & Hm & Hall).
    simpl. rewrite (record_get l leftKey Hl), Hm.
    destruct (map_has map2 (field l leftKey)) eqn:Eh.
    + apply (map_get_hit map2 _ Hp) in Eh as (k & v & Hg & Hin & Hk).
      rewrite Hg.
      destruct (H1 _ _ Hin) as [Hseen Hx].
      assert (Hrec : is_record v = true).
      { rewrite forallb_forall in Hright. now apply Hright. }
      rewrite (record_truthy _ Hrec).
      eexists. split; [reflexivity|]. constructor; [|exact Hall].
      right. exists v. split; [exact Hseen|]. split.
      * unfold matches. now apply Hx.
      * now apply spread2_merged.
    + rewrite (map_get_miss _ _ Hp Eh). simpl.
      eexists. split; [reflexivity|]. constructor; [|exact Hall].
      left. split; [|reflexivity].
      apply forallb_forall. intros r Hr. unfold matches.
      destruct (same_key (field r rightKey) (field l leftKey)) eqn:E;
        [|reflexivity].
      rewrite (H2 r _ Hr E) in Eh. discriminate.
Qed.

(** C10, amended.  A merge node whose two inputs are connected to outputs
    that hold arrays of records, the join field of every right record a
    primitive value, and whose join key is not empty, sets its output
    [data_out] to an array with one record for each record of the left
    input, in the order of the left input: a left record that no right
    record matches is there as it is, and a left record that some right
    record matches is there merged with a right record that matches it,
    the fields of the right record overriding those of the left.  The
    processor returns when the node has its status line. *)
Theorem processMergeNode_left_outer_join (ed : Editor) (nd : NodeData)
  (keyInput : Control) (conn1 conn2 : Connection) (rows1 rows2 : list value) :
  querySelector (fun c => is_input c && has_param "key" c) nd = Some keyInput ->
  String.eqb (cvalue keyInput) "" = false ->
  find_input ed nd "data_in_1" = Some conn1 ->
  find_input ed nd "data_in_2" = Some conn2 ->
  source_output ed conn1 = Ok (VArr rows1) ->
  source_output ed conn2 = Ok (VArr rows2) ->
  forallb is_record rows1 = true ->
  forallb is_record rows2 = true ->
  forallb (fun r => is_primitive (field r (snd (join_keys (cvalue keyInput)))))
    rows2 = true ->
  (exists merged : list value,
     assoc "data_out" (outputs (fst (processMergeNode ed nd)))
     = Some (VArr merged)
     /\ Forall2 (left_outer_line (fst (join_keys (cvalue keyInput)))
                   (snd (join_keys (cvalue keyInput))) rows2)
          rows1 merged)
  /\ (forall s0 : string, status nd = Some s0 ->
        snd (processMergeNode ed nd) = Returned).
Proof.
  intros Hkey Hne Hc1 Hc2 Hs1 Hs2 Hr1 Hr2 Hprim.
  unfold processMergeNode. rewrite Hkey, Hc1, Hc2, Hne.
  destruct (join_keys (cvalue keyInput)) as [leftKey rightKey]. simpl fst.
  simpl snd in *. rewrite Hs1, Hs2.
  rewrite (key_pairs_records rightKey rows2 Hr2).
  destruct (new_Map_inv rightKey rows2 Hprim [] [] eq_refl)
    as (map2 & Hb & Hp & Hinv).
  { split; [intros k v []|intros r x []]. }
  simpl app in Hinv. rewrite Hb.
  destruct (merge_rows_join leftKey rightKey rows2 map2 Hr2 Hp Hinv rows1 Hr1)
    as (merged & Hm & Hall).
  rewrite Hm. split.
  - exists merged. split; [|exact Hall].
    rewrite set_status_output. unfold set_output. simpl outputs.
    apply assoc_set_prop_same.
  - intros s0 Hs. erewrite set_status_normal; [reflexivity|exact Hs].
Qed.

(** ** The stacks of undo and redo *)

Lemma last_map_Some {A : Type} (l : list A) (d : A) :
  l <> [] -> last (map Some l) None = Some (last l d).
Proof.
  induction l as [|a l IH]; [congruence|]. intros _.
  destruct l as [|b l]; [reflexivity|].
  change (last (map Some (b :: l)) None = Some (last (b :: l) d)).
  apply IH. discriminate.
Qed.

Lemma last_map_Some_nil {A : Type} (l : list A) :
  last (map Some l) None = None -> l = [].
Proof.
  destruct l as [|a l]; [reflexivity|]. intros H.
  rewrite (last_map_Some (a :: l) a) in H; [discriminate|discriminate].
Qed.

Section Stacks.

Context {host : Host}.

Lemma createNode_restoring_history (type : string) (x y : Z) (o : Options)
  (ed : Editor) :
  o_fromSerialization o = true ->
  history (fst (createNode type x y o ed)) = history ed.
Proof.
  intros Hs. unfold createNode.
  destruct (negb (creation_followed o (nodeCounter ed))); [reflexivity|].
  destruct (allocate_id o (nodeCounter ed)) as [nodeId counter].
  destruct (nodeCreators type) as [t|name|]; rewrite ?Hs; simpl.
  - reflexivity.
  - destruct (String.eqb name "__proto__" || String.eqb name "__defineGetter__"
              || String.eqb name "__defineSetter__"); reflexivity.
  - reflexivity.
Qed.

Lemma forEach_history {A : Type} (l : list A)
  (body : A -> Editor -> Editor * Completion) :
  (forall a x, In a l -> history (fst (body a x)) = history x) ->
  forall ed, history (fst (forEach l body ed)) = history ed.
Proof.
  intros H ed.
  apply (forEach_invariant (fun a b => history b = history a) l body).
  - reflexivity.
  - intros a b c H1 H2. congruence.
  - exact H.
Qed.

Lemma processNodeData_history (fuel : nat) (id : string) (ed : Editor) :
  history (fst (processNodeData fuel id ed)) = history ed.
Proof.
  destruct (processNodeData_only_nodes fuel id ed) as [H _].
  rewrite H. reflexivity.
Qed.

Lemma load_document_history (fuel : nat) (doc : SessionDoc) (ed : Editor) :
  history (fst (load_document fuel doc ed)) = history ed.
Proof.
  unfold load_document. destruct (d_nodes doc) as [nss|]; [|reflexivity].
  match goal with
  | |- context [forEach nss ?body ?start] =>
      assert (Hc : history (fst (forEach nss body start)) = history start)
        by (apply forEach_history; intros ns x _;
            apply createNode_restoring_history; reflexivity);
      destruct (forEach nss body start) as [ed3 c]
  end.
  simpl in Hc.
  destruct c; simpl; try exact Hc.
  rewrite forEach_history; [exact Hc|].
  intros entry x _. apply processNodeData_history.
Qed.

(** [deserialize] touches neither stack. *)
Lemma deserialize_stacks (fuel : nat) (jsonString : JSONText) (ed : Editor) :
  undoStack (history (fst (deserialize fuel jsonString ed)))
  = undoStack (history ed)
  /\ redoStack (history (fst (deserialize fuel jsonString ed)))
     = redoStack (history ed).
Proof.
  unfold deserialize. destruct jsonString as [m| |doc]; simpl; auto.
  pose proof (load_document_history fuel doc (set_isRestoring true ed)) as H.
  destruct (load_document fuel doc (set_isRestoring true ed)) as [e [| | |]];
    simpl in *; rewrite H; simpl; auto.
Qed.

(** One [undo] moves the top of the undo stack to the redo stack. *)
Lemma undo_stacks (fuel : nat) (ed : Editor) (below : list SessionDoc)
  (under top : SessionDoc) :
  undoStack (history ed) = below ++ [under; top] ->
  undoStack (history (fst (undo fuel ed))) = below ++ [under]
  /\ redoStack (history (fst (undo fuel ed))) = redoStack (history ed) ++ [top].
Proof.
  intros HS. unfold undo. rewrite HS.
  assert (Hlen : (List.length (below ++ [under; top]) <=? 1) = false).
  { apply Nat.leb_gt. rewrite length_app. simpl. lia. }
  rewrite Hlen.
  replace (below ++ [under; top]) with ((below ++ [under]) ++ [top])
    by (rewrite <- app_assoc; reflexivity).
  rewrite last_map_Some_app, removelast_last, last_map_Some_app.
  match goal with
  | |- context [deserialize fuel ?t ?e] =>
      destruct (deserialize_stacks fuel t e) as [H1 H2]
  end.
  rewrite H1, H2. simpl. auto.
Qed.

(** One [redo] moves the top of the redo stack back to the undo stack. *)
Lemma redo_stacks (fuel : nat) (ed : Editor) (rest : list SessionDoc)
  (top : SessionDoc) :
  redoStack (history ed) = rest ++ [top] ->
  undoStack (history (fst (redo fuel ed))) = undoStack (history ed) ++ [top]
  /\ redoStack (history (fst (redo fuel ed))) = rest.
Proof.
  intros HR. unfold redo. rewrite HR.
  rewrite last_map_Some_app, removelast_last.
  match goal with
  | |- context [deserialize fuel ?t ?e] =>
      destruct (deserialize_stacks fuel t e) as [H1 H2]
  end.
  rewrite H1, H2. simpl. auto.
Qed.

Lemma undo_times_stacks (fuel : nat) (popped : list SessionDoc) :
  forall (ed : Editor) (below : list SessionDoc) (base : SessionDoc),
    undoStack (history ed) = (below ++ [base]) ++ popped ->
    undoStack (history (times (List.length popped) (undo fuel) ed))
    = below ++ [base]
    /\ redoStack (history (times (List.length popped) (undo fuel) ed))
       = redoStack (history ed) ++ rev popped.
Proof.
  induction popped as [|top popped IH] using rev_ind; intros ed below base HS.
  - simpl. rewrite !app_nil_r in *. auto.
  - rewrite length_app. simpl List.length.
    replace (List.length popped + 1) with (S (List.length popped)) by lia.
    simpl times.
    assert (Hsplit : exists below' under,
               (below ++ [base]) ++ popped = below' ++ [under]).
    { destruct popped as [|p popped'] using rev_ind.
      - exists below, base. now rewrite app_nil_r.
      - exists ((below ++ [base]) ++ popped'), p. now rewrite app_assoc. }
    destruct Hsplit as (below' & under & Hsplit).
    destruct (undo_stacks fuel ed below' under top) as [H1 H2].
    { rewrite HS, app_assoc, Hsplit, <- app_assoc. reflexivity. }
    destruct (IH (fst (undo fuel ed)) below base) as [K1 K2].
    { rewrite H1. symmetry. exact Hsplit. }
    split; [exact K1|].
    rewrite K2, H2, rev_app_distr, <- app_assoc. reflexivity.
Qed.

Lemma redo_times_stacks (fuel : nat) (pushed : list SessionDoc) :
  forall (ed : Editor) (rest : list SessionDoc),
    redoStack (history ed) = rest ++ rev pushed ->
    undoStack (history (times (List.length pushed) (redo fuel) ed))
    = undoStack (history ed) ++ pushed
    /\ redoStack (history (times (List.length pushed) (redo fuel) ed)) = rest.
Proof.
  induction pushed as [|top pushed IH]; intros ed rest HR.
  - simpl in *. rewrite !app_nil_r in *. auto.
  - simpl rev in HR. simpl List.length. simpl times.
    destruct (redo_stacks fuel ed (rest ++ rev pushed) top) as [H1 H2].
    { rewrite HR, app_assoc. reflexivity. }
    destruct (IH (fst (redo fuel ed)) rest H2) as [K1 K2].
    split; [|exact K2].
    rewrite K1, H1, <- app_assoc. reflexivity.
Qed.

(** The stacks of the history come back: with [k] states above the
    lowest one on the undo stack, [k] times [undo] and then [k] times
    [redo] leave both stacks as they were.  The graph in the end is the
    one that the last [redo] loads from the top of the undo stack. *)
Theorem undo_redo_stacks (fuel : nat) (ed : Editor) (below : list SessionDoc)
  (base : SessionDoc) (above : list SessionDoc) :
  undoStack (history ed) = (below ++ [base]) ++ above ->
  undoStack (history (times (List.length above) (redo fuel)
                        (times (List.length above) (undo fuel) ed)))
  = undoStack (history ed)
  /\ redoStack (history (times (List.length above) (redo fuel)
                           (times (List.length above) (undo fuel) ed)))
     = redoStack (history ed).
Proof.
  intros HS.
  destruct (undo_times_stacks fuel above ed below base HS) as [U1 U2].
  destruct (redo_times_stacks fuel above
              (times (List.length above) (undo fuel) ed)
              (redoStack (history ed)) U2) as [R1 R2].
  split; [|exact R2]. rewrite R1, U1, HS. reflexivity.
Qed.

End Stacks.

Lemma processMergeNode_left_outer_join_witness :
  find_input mergeScenario
    (freshNode "merge" "node_2" [("key", CStr "department=dept_name")])
    "data_in_1"
  = Some (connect "node_0" "data_out" "node_2" "data_in_1")
  /\ source_output mergeScenario (connect "node_0" "data_out" "node_2" "data_in_1")
     = Ok (VArr employees)
  /\ source_output mergeScenario (connect "node_1" "data_out" "node_2" "data_in_2")
     = Ok (VArr departments)
  /\ snd (processMergeNode mergeScenario
            (freshNode "merge" "node_2" [("key", CStr "department=dept_name")]))
     = Returned.
Proof.
  split; [vm_compute; reflexivity|]. split; [vm_compute; reflexivity|].
  split; [vm_compute; reflexivity|].
  refine (proj2 (processMergeNode_left_outer_join mergeScenario
                   (freshNode "merge" "node_2"
                      [("key", CStr "department=dept_name")])
                   (param_control InputText "key" "department=dept_name")
                   (connect "node_0" "data_out" "node_2" "data_in_1")
                   (connect "node_1" "data_out" "node_2" "data_in_2")
                   employees departments _ _ _ _ _ _ _ _ _) "" _);
    vm_compute; reflexivity.
Defined.

(** Without the amendment the statement fails: an array need not hold
    records, and on a left input that holds [null] the merge processor
    throws and sets no output. *)
Lemma processMergeNode_left_outer_join_counterexample :
  source_output mergeNullScenario
    (connect "node_0" "data_out" "node_2" "data_in_1")
  = Ok (VArr [VNull])
  /\ source_output mergeNullScenario
       (connect "node_1" "data_out" "node_2" "data_in_2")
     = Ok (VArr departments)
  /\ processMergeNode mergeNullScenario
       (freshNode "merge" "node_2" [("key", CStr "department=dept_name")])
     = (freshNode "merge" "node_2" [("key", CStr "department=dept_name")],
        Thrown "Cannot read properties of null (reading 'department')").
Proof. repeat split; vm_compute; reflexivity. Qed.

(** The merged rows of the join scenario. *)
Example processMergeNode_employees :
  assoc "data_out"
    (outputs (fst (processMergeNode mergeScenario
                     (freshNode "merge" "node_2"
                        [("key", CStr "department=dept_name")]))))
  = Some (VArr
      [ VObj [("name", VStr "Alice"); ("department", VStr "Engineering");
              ("dept_name", VStr "Engineering"); ("manager", VStr "Sarah")];
        VObj [("name", VStr "David"); ("department", VStr "Sales")] ]).
Proof. vm_compute. reflexivity. Qed.

(** ** The round trip through the serialized form *)

(** C3.  The round trip fails on the text of a text node.  The editor
    holds one text node with the text [# New Text Node]; after
    [deserialize(serialize())] the node is there again with its id, its
    type and its position, but its text is empty: the serialized state of
    the result differs from the one that was loaded. *)
Theorem deserialize_serialize_loses_text :
  control_values oneTextNode "node_0" = Some ["# New Text Node"]
  /\ snd (deserialize (host := scenarioHost) 5
            (Document (serialize oneTextNode)) oneTextNode) = Normal
  /\ map (fun e => (fst e, ntype (snd e), el_left (snd e), el_top (snd e)))
       (nodes (fst (deserialize (host := scenarioHost) 5
                      (Document (serialize oneTextNode)) oneTextNode)))
     = [("node_0", "text", 100%Z, 100%Z)]
  /\ control_values
       (fst (deserialize (host := scenarioHost) 5
               (Document (serialize oneTextNode)) oneTextNode)) "node_0"
     = Some [""]
  /\ doc_eqb
       (serialize (fst (deserialize (host := scenarioHost) 5
                          (Document (serialize oneTextNode)) oneTextNode)))
       (serialize oneTextNode) = false.
Proof. vm_compute. repeat split. Qed.

(** The text of an import node, whose template reads the key that the
    serializer writes, comes back from the round trip. *)
Example deserialize_serialize_keeps_import :
  control_values
    (fst (deserialize (host := scenarioHost) 5
            (Document (serialize containerFeedsImport)) containerFeedsImport))
    "node_1"
  = Some ["hi"].
Proof. vm_compute. reflexivity. Qed.

(** ** Undo and redo *)

(** C4.  The duality fails when the graph holds a text node.  After two
    recorded edits, the creation of a text node and the creation of an
    import node, one [undo] followed by one [redo] brings the stacks back
    to what they were, but the graph that [redo] restores has lost the
    text of the text node: its serialized state differs from the state
    reached after the second edit. *)
Theorem undo_redo_loses_text :
  List.length (undoStack (history textAndImport)) = 3
  /\ pairwise_distinct (undoStack (history textAndImport)) = true
  /\ control_values textAndImport "node_0" = Some ["# New Text Node"]
  /\ snd (undo (host := scenarioHost) 5 textAndImport) = Normal
  /\ snd (redo (host := scenarioHost) 5
            (fst (undo (host := scenarioHost) 5 textAndImport))) = Normal
  /\ list_eqb doc_eqb
       (undoStack (history (fst (redo (host := scenarioHost) 5
                 (fst (undo (host := scenarioHost) 5 textAndImport))))))
       (undoStack (history textAndImport)) = true
  /\ control_values
       (fst (redo (host := scenarioHost) 5
               (fst (undo (host := scenarioHost) 5 textAndImport)))) "node_0"
     = Some [""]
  /\ doc_eqb
       (serialize (fst (redo (host := scenarioHost) 5
                          (fst (undo (host := scenarioHost) 5 textAndImport)))))
       (serialize textAndImport) = false.
Proof. vm_compute. repeat split. Qed.

(** * Further properties *)

(** ** What a propagation leaves alone *)

(** Case analysis on the innermost scrutinee of the goal. *)
Ltac break_match :=
  repeat match goal with
         | |- context [match ?x with _ => _ end] =>
             lazymatch x with
             | context [match _ with _ => _ end] => fail
             | _ => destruct x
             end
         end.

Lemma fixed_part_set_output (k : string) (v : value) (nd : NodeData) :
  fixed_part (set_output k v nd) = fixed_part nd.
Proof. reflexivity. Qed.

Lemma fixed_part_assign_value (sel : Control -> bool) (s : string)
  (nd : NodeData) :
  fixed_part (assign_value sel s nd) = fixed_part nd.
Proof. reflexivity. Qed.

Lemma fixed_part_set_status (s : string) (nd : NodeData) :
  fixed_part (fst (set_status s nd)) = fixed_part nd.
Proof. unfold set_status. destruct (status nd); reflexivity. Qed.

Lemma fixed_part_and_then (r : NodeData * Outcome)
  (k : NodeData -> NodeData * Outcome) (nd : NodeData) :
  fixed_part (fst r) = fixed_part nd ->
  (forall x, fixed_part x = fixed_part nd -> fixed_part (fst (k x)) = fixed_part nd) ->
  fixed_part (fst (and_then r k)) = fixed_part nd.
Proof.
  intros Hr Hk. destruct r as [x [|e|]]; simpl in *; [now apply Hk|exact Hr|exact Hr].
Qed.

Section FixedPart.

Context {host : Host}.

Lemma fixed_part_write_textarea (v : value) (nd : NodeData) :
  fixed_part (fst (write_textarea v nd)) = fixed_part nd.
Proof. unfold write_textarea. break_match; reflexivity. Qed.

Ltac fixed_tac :=
  unfold catch_evaluation, set_status, write_textarea, and_then; cbv zeta;
  break_match; reflexivity.

Lemma processor_fixed_part (type : string) (p : Processor) (ed : Editor)
  (nd : NodeData) :
  nodeProcessors type = Own p ->
  fixed_part (fst (p ed nd)) = fixed_part nd.
Proof.
  unfold nodeProcessors. simpl assoc.
  repeat match goal with
         | |- context [String.eqb type ?s] => destruct (String.eqb type s)
         end;
  try (intros H; injection H as <-).
  - unfold processTextNode. fixed_tac.
  - unfold processImportNode. fixed_tac.
  - unfold processExportNode. fixed_tac.
  - unfold processCsvNode. fixed_tac.
  - unfold processJsonNode, and_then. fixed_tac.
  - unfold processXmlNode, and_then. fixed_tac.
  - unfold processFilterNode. fixed_tac.
  - unfold processTransformNode. fixed_tac.
  - unfold processMergeNode. fixed_tac.
  - unfold processSplitNode, and_then. fixed_tac.
  - unfold processAggregateNode. fixed_tac.
  - destruct (existsb (String.eqb type) externalTypes).
    + intros H; injection H as <-. reflexivity.
    + destruct (inherited type); discriminate.
Qed.

End FixedPart.

Lemma layout_replace_prop (id : string) (nd nd' : NodeData)
  (l : list (string * NodeData)) :
  assoc id l = Some nd ->
  fixed_part nd' = fixed_part nd ->
  map (fun e => (fst e, fixed_part (snd e))) (replace_prop id nd' l)
  = map (fun e => (fst e, fixed_part (snd e))) l.
Proof.
  intros Hget Hfix. induction l as [|[k a] r IH]; [reflexivity|].
  simpl in *. destruct (String.eqb id k).
  - injection Hget as ->. simpl. now rewrite Hfix.
  - simpl. now rewrite IH.
Qed.

Section Layout.

Context {host : Host}.

Lemma run_processor_layout (ed : Editor) (id : string) (nd : NodeData) :
  nodes_get ed id = Some nd ->
  layout_of (fst (run_processor ed id nd)) = layout_of ed.
Proof.
  intros Hget. unfold run_processor.
  destruct (nodeProcessors (ntype nd)) as [p|name|] eqn:Hp; try reflexivity.
  pose proof (processor_fixed_part (ntype nd) p ed nd Hp) as Hfix.
  destruct (p ed nd) as [nd' o]. simpl in *.
  unfold layout_of. simpl. now apply layout_replace_prop with (nd := nd).
Qed.

Lemma processNodeData_layout (fuel : nat) :
  forall (id : string) (ed : Editor),
    layout_of (fst (processNodeData fuel id ed)) = layout_of ed.
Proof.
  induction fuel as [|f IH]; intros id ed; [reflexivity|].
  simpl. destruct (nodes_get ed id) as [nd|] eqn:Hget; [|reflexivity].
  pose proof (run_processor_layout ed id nd Hget) as Hrun.
  destruct (run_processor ed id nd) as [ed1 [| | |]]; simpl in Hrun; try exact Hrun.
  rewrite <- Hrun.
  apply (forEach_invariant (fun a b => layout_of b = layout_of a)).
  - reflexivity.
  - intros a b c Hab Hbc. now rewrite Hbc.
  - intros c e _. destruct (String.eqb (ep_node (c_from c)) id); [apply IH|reflexivity].
Qed.

(** X1.  A propagation writes nothing but the outputs, the controls and
    the status lines of nodes: whatever the node it starts from, the
    graph it runs on and the way it ends, [processNodeData] leaves the
    connections, the view, the node counter, the history, the pending
    connection and the alerts as they were, and the table of nodes keeps
    its keys, their order, and of every node the id, the type, the
    position, the size, the properties and the place in the layout
    tree. *)
Theorem processNodeData_frame (fuel : nat) (id : string) (ed : Editor) :
  connections (fst (processNodeData fuel id ed)) = connections ed
  /\ canvasOffset (fst (processNodeData fuel id ed)) = canvasOffset ed
  /\ scale (fst (processNodeData fuel id ed)) = scale ed
  /\ nodeCounter (fst (processNodeData fuel id ed)) = nodeCounter ed
  /\ history (fst (processNodeData fuel id ed)) = history ed
  /\ connectionStart (fst (processNodeData fuel id ed)) = connectionStart ed
  /\ alerts (fst (processNodeData fuel id ed)) = alerts ed
  /\ layout_of (fst (processNodeData fuel id ed)) = layout_of ed.
Proof.
  pose proof (processNodeData_only_nodes fuel id ed) as [H _].
  pose proof (processNodeData_layout fuel id ed) as Hl.
  rewrite H at 1 2 3 4 5 6 7. repeat split; try reflexivity. exact Hl.
Qed.

End Layout.

(** ** Locality of a propagation *)

Lemma reachable_has_node (ed : Editor) (a b : string) :
  reachable ed a b -> has_node ed a = true.
Proof. intros H. destruct H as [a H|a b c [H _] _]; exact H. Qed.

Lemma edge_only_nodes (ed cur : Editor) (a b : string) :
  only_nodes ed cur -> edge cur a b -> edge ed a b.
Proof.
  intros Hon (Ha & Hb & c & Hin & Hfrom & Hto).
  rewrite (only_nodes_has_node _ _ a Hon) in Ha.
  rewrite (only_nodes_has_node _ _ b Hon) in Hb.
  rewrite (only_nodes_connections _ _ Hon) in Hin.
  split; [exact Ha|split; [exact Hb|]]. now exists c.
Qed.

Lemma nodes_get_replace_other (ed : Editor) (id n : string) (nd : NodeData) :
  String.eqb n id = false ->
  nodes_get (set_nodes (replace_prop id nd (nodes ed)) ed) n = nodes_get ed n.
Proof. intros H. unfold nodes_get. simpl. now apply assoc_replace_prop_other. Qed.

Lemma forEach_get {A : Type} (R : Editor -> Prop) (n : string) (l : list A)
  (body : A -> Editor -> Editor * Completion) :
  (forall a e, In a l -> R e ->
     R (fst (body a e)) /\ nodes_get (fst (body a e)) n = nodes_get e n) ->
  forall e, R e -> nodes_get (fst (forEach l body e)) n = nodes_get e n.
Proof.
  induction l as [|a r IH]; intros Hbody e He; [reflexivity|].
  simpl. destruct (Hbody a e (or_introl eq_refl) He) as [HR Hg].
  destruct (body a e) as [e' [| | |]]; simpl in *; try exact Hg.
  rewrite <- Hg. apply IH; [|exact HR].
  intros b x Hb. apply Hbody. now right.
Qed.

Section Locality.

Context {host : Host}.

Lemma run_processor_get_other (ed : Editor) (id n : string) (nd : NodeData) :
  String.eqb n id = false ->
  nodes_get (fst (run_processor ed id nd)) n = nodes_get ed n.
Proof.
  intros Hn. unfold run_processor.
  destruct (nodeProcessors (ntype nd)) as [p|name|]; try reflexivity.
  destruct (p ed nd) as [nd' o]. simpl. now apply nodes_get_replace_other.
Qed.

Lemma processNodeData_local (ed : Editor) (n : string) (fuel : nat) :
  forall (a : string) (cur : Editor),
    only_nodes ed cur ->
    ~ reachable ed a n ->
    nodes_get (fst (processNodeData fuel a cur)) n = nodes_get cur n.
Proof.
  induction fuel as [|f IH]; intros a cur Hon Hnot; [reflexivity|].
  simpl. destruct (nodes_get cur a) as [nd|] eqn:Hget; [|reflexivity].
  assert (Ha : has_node ed a = true).
  { rewrite <- (only_nodes_has_node _ _ a Hon). unfold has_node, has_key.
    unfold nodes_get in Hget. now rewrite Hget. }
  assert (Hna : String.eqb n a = false).
  { destruct (String.eqb n a) eqn:E; [|reflexivity].
    apply String.eqb_eq in E. subst n. exfalso. apply Hnot. now constructor. }
  pose proof (run_processor_get_other cur a n nd Hna) as Hrun.
  pose proof (run_processor_only_nodes cur a nd) as Hon1.
  destruct (run_processor cur a nd) as [ed1 [| | |]]; simpl in *; try exact Hrun.
  rewrite <- Hrun.
  assert (Hon' : only_nodes ed ed1) by (eapply only_nodes_trans; eassumption).
  apply (forEach_get (only_nodes ed)); [|exact Hon'].
  intros c e Hin He.
  destruct (String.eqb (ep_node (c_from c)) a) eqn:Hfrom.
  - split.
    + eapply only_nodes_trans; [exact He|apply processNodeData_only_nodes].
    + apply IH; [exact He|].
      intros Hreach. apply Hnot.
      apply reach_next with (b := ep_node (c_to c)); [|exact Hreach].
      split; [exact Ha|]. split; [now apply reachable_has_node with (b := n)|].
      exists c. rewrite (only_nodes_connections _ _ Hon') in Hin.
      apply String.eqb_eq in Hfrom. now repeat split.
  - split; [exact He|reflexivity].
Qed.

(** X2.  A propagation is local, as long as the text the user wrote in
    its nodes only computes: when the propagation does not go astray, be
    it that it returns, throws or uses up its depth, a node that cannot
    be reached from the start node along connections keeps its data
    (outputs, controls and status line included). *)
Theorem processNodeData_unreachable_untouched (fuel : nat) (root n : string)
  (ed : Editor) :
  snd (processNodeData fuel root ed) <> Astray ->
  ~ reachable ed root n ->
  nodes_get (fst (processNodeData fuel root ed)) n = nodes_get ed n.
Proof.
  intros _ H. apply (processNodeData_local ed n fuel root ed); [|exact H].
  apply only_nodes_refl.
Qed.

End Locality.

Lemma csvScenario_no_way_back : ~ reachable csvScenario "node_1" "node_0".
Proof.
  intros H. inversion H as [a Ha|a b c (_ & _ & x & Hin & Hfrom & _) _]; subst.
  simpl in Hin. destruct Hin as [<-|[]]. discriminate Hfrom.
Qed.

Lemma processNodeData_unreachable_untouched_witness :
  snd (processNodeData (host := scenarioHost) 3 "node_1" csvScenario) = Normal
  /\ ~ reachable csvScenario "node_1" "node_0"
  /\ nodes_get (fst (processNodeData (host := scenarioHost) 3 "node_1"
                       csvScenario)) "node_0"
     = nodes_get csvScenario "node_0".
Proof.
  split; [vm_compute; reflexivity|].
  refine (conj csvScenario_no_way_back
            (processNodeData_unreachable_untouched (host := scenarioHost)
               3 "node_1" "node_0" csvScenario _ csvScenario_no_way_back)).
  vm_compute. discriminate.
Defined.

(** ** Cycles *)

Lemma path_reachable (ed : Editor) (a b : string) :
  path ed a b -> reachable ed a b.
Proof.
  induction 1 as [a b He|a b c He _ IH].
  - apply reach_next with (b := b); [exact He|].
    constructor. now destruct He as (_ & Hb & _).
  - now apply reach_next with (b := b).
Qed.

Lemma reaches_cycle_step (ed : Editor) (a : string) :
  reaches_cycle ed a ->
  has_node ed a = true
  /\ exists c, In c (connections ed) /\ ep_node (c_from c) = a
               /\ reaches_cycle ed (ep_node (c_to c)).
Proof.
  intros (b & Hreach & Hcycle).
  split; [now apply reachable_has_node with (b := b)|].
  inversion Hreach as [x Hx|x y z He Hyb]; subst.
  - inversion Hcycle as [x y He|x y z He Hya]; subst.
    + pose proof He as (_ & _ & c & Hin & Hfrom & Hto). exists c.
      repeat split; try assumption. exists b. rewrite Hto.
      split; [now constructor|exact Hcycle].
    + pose proof He as (_ & _ & c & Hin & Hfrom & Hto). exists c.
      repeat split; try assumption. exists b. rewrite Hto.
      split; [now apply path_reachable|exact Hcycle].
  - pose proof He as (_ & _ & c & Hin & Hfrom & Hto). exists c.
    repeat split; try assumption. exists b. rewrite Hto. now split.
Qed.

Lemma reaches_cycle_only_nodes (ed cur : Editor) (a : string) :
  only_nodes ed cur -> reaches_cycle ed a ->
  exists nd, nodes_get cur a = Some nd.
Proof.
  intros Hon H. apply reaches_cycle_step in H as [Ha _].
  rewrite <- (only_nodes_has_node _ _ a Hon) in Ha. now apply has_node_get.
Qed.

Lemma forEach_not_normal {A : Type} (R : Editor -> Prop) (l : list A)
  (body : A -> Editor -> Editor * Completion) (a : A) :
  In a l ->
  (forall x e, In x l -> R e -> R (fst (body x e))) ->
  (forall e, R e -> snd (body a e) <> Normal) ->
  forall e, R e -> snd (forEach l body e) <> Normal.
Proof.
  induction l as [|x r IH]; intros Hin HR Ha e He; [contradiction|].
  simpl. pose proof (HR x e (or_introl eq_refl) He) as HR1.
  destruct Hin as [->|Hin].
  - pose proof (Ha e He) as Hn.
    destruct (body a e) as [e' [| | |]]; simpl in *; congruence.
  - destruct (body x e) as [e' [| | |]]; simpl in *; try congruence.
    apply IH; try assumption. intros y z Hy. apply HR. now right.
Qed.

Section Cycles.

Context {host : Host}.

Lemma processNodeData_on_cycle (ed : Editor) (fuel : nat) :
  forall (a : string) (cur : Editor),
    only_nodes ed cur ->
    reaches_cycle ed a ->
    snd (processNodeData fuel a cur) <> Normal.
Proof.
  induction fuel as [|f IH]; intros a cur Hon Hcyc; [discriminate|].
  simpl. destruct (reaches_cycle_only_nodes ed cur a Hon Hcyc) as [nd Hget].
  rewrite Hget.
  pose proof (run_processor_only_nodes cur a nd) as Hon1.
  destruct (run_processor cur a nd) as [ed1 [| | |]]; simpl in *; try discriminate.
  assert (Hon' : only_nodes ed ed1) by (eapply only_nodes_trans; eassumption).
  destruct (reaches_cycle_step ed a Hcyc) as (_ & c & Hin & Hfrom & Hnext).
  apply (forEach_not_normal (only_nodes ed)) with (a := c).
  - now rewrite (only_nodes_connections _ _ Hon').
  - intros x e _ He. destruct (String.eqb (ep_node (c_from x)) a); [|exact He].
    eapply only_nodes_trans; [exact He|apply processNodeData_only_nodes].
  - intros e He. apply String.eqb_eq in Hfrom. rewrite Hfrom. now apply IH.
  - exact Hon'.
Qed.

(** X3.  Cycles are not detected: when a cycle of connections can be
    reached from a node, [processNodeData] on that node never returns
    normally.  Whatever depth the recursion is allowed, the call ends
    with an exception of a processor or uses up the whole depth. *)
Theorem processNodeData_cycle (fuel : nat) (root : string) (ed : Editor) :
  reaches_cycle ed root ->
  snd (processNodeData fuel root ed) <> Normal.
Proof.
  intros H. apply (processNodeData_on_cycle ed fuel root ed); [|exact H].
  apply only_nodes_refl.
Qed.

End Cycles.

Lemma textCycle_reaches_cycle : reaches_cycle textCycle "node_0".
Proof.
  assert (E01 : edge textCycle "node_0" "node_1").
  { split; [reflexivity|split; [reflexivity|]].
    exists (connect "node_0" "text_out" "node_1" "text_in").
    split; [now left|now split]. }
  assert (E10 : edge textCycle "node_1" "node_0").
  { split; [reflexivity|split; [reflexivity|]].
    exists (connect "node_1" "text_out" "node_0" "text_in").
    split; [right; now left|now split]. }
  exists "node_0". split.
  - now constructor.
  - apply path_next with (b := "node_1"); [exact E01|now apply path_one].
Qed.

Lemma processNodeData_cycle_witness :
  reaches_cycle textCycle "node_0"
  /\ snd (processNodeData (host := scenarioHost) 40 "node_0" textCycle)
     <> Normal.
Proof.
  refine (conj textCycle_reaches_cycle
            (processNodeData_cycle (host := scenarioHost) 40 "node_0" textCycle
               textCycle_reaches_cycle)).
Defined.

(** With every depth that was tried the recursion on the cycle of the
    two text nodes uses up the depth: no processor throws there. *)
Example processNodeData_textCycle_exhausts :
  map (fun fuel => snd (processNodeData (host := scenarioHost) fuel "node_0"
                          textCycle)) [1; 2; 5; 40]
  = [Exhausted; Exhausted; Exhausted; Exhausted].
Proof. vm_compute. reflexivity. Qed.

(** ** The history under every sequence of actions *)




Section History.

Context {host : Host}.

Lemma deserialize_history (fuel : nat) (jsonString : JSONText) (ed : Editor) :
  history (fst (deserialize fuel jsonString ed))
  = mkHistory (undoStack (history ed)) (redoStack (history ed))
      (maxHistory (history ed)) false.
Proof.
  unfold deserialize. destruct jsonString as [m| |doc]; simpl; auto.
  pose proof (load_document_history fuel doc (set_isRestoring true ed)) as H.
  destruct (load_document fuel doc (set_isRestoring true ed)) as [e [| | |]];
    simpl in *; unfold set_isRestoring; simpl; rewrite H; reflexivity.
Qed.
















End History.

(** ** The wires under every sequence of actions *)












Section Wires.

Context {host : Host}.
















End Wires.

(** ** Deleting a wire *)





Section Delete.

Context {host : Host}.




End Delete.

(** ** Node ids *)

(** *** Printing and reading back a counter *)

Lemma string_rev_onto_twice (s acc acc' : string) :
  string_rev_onto (string_rev_onto s acc) acc'
  = string_rev_onto acc (s ++ acc')%string.
Proof.
  revert acc acc'. induction s as [|c r IH]; intros acc acc'; [reflexivity|].
  simpl. rewrite IH. reflexivity.
Qed.

Lemma string_app_empty (s : string) : (s ++ "")%string = s.
Proof. induction s as [|c r IH]; [reflexivity|]. simpl. now rewrite IH. Qed.

Lemma split_onto_no_sep (sep : ascii) (s cur : string) :
  includes sep s = false ->
  split_onto sep s cur = [string_rev (string_rev_onto s cur)].
Proof.
  revert cur. induction s as [|c r IH]; intros cur H; [reflexivity|].
  simpl in *. apply orb_false_iff in H as [Hc Hr].
  rewrite Ascii.eqb_sym in Hc. rewrite Hc. now apply IH.
Qed.

Lemma split_no_sep (sep : ascii) (s : string) :
  includes sep s = false -> split sep s = [s].
Proof.
  intros H. unfold split. rewrite split_onto_no_sep by exact H.
  unfold string_rev. rewrite string_rev_onto_twice. simpl.
  now rewrite string_app_empty.
Qed.

Lemma uint_no_underscore (d : Decimal.uint) :
  includes "_" (NilEmpty.string_of_uint d) = false.
Proof. induction d; simpl; auto. Qed.

Lemma span_digits_uint (d : Decimal.uint) :
  span_digits (NilEmpty.string_of_uint d)
  = (list_ascii_of_string (NilEmpty.string_of_uint d), "").
Proof. induction d; simpl; try rewrite IHd; reflexivity. Qed.

Lemma digits_value_acc (d : Decimal.uint) (acc : positive) :
  fold_left (fun a c => (a * 10 + digit_value c)%Z)
    (list_ascii_of_string (NilEmpty.string_of_uint d)) (Zpos acc)
  = Zpos (Pos.of_uint_acc d acc).
Proof.
  revert acc. induction d; intros acc;
    cbn [NilEmpty.string_of_uint list_ascii_of_string fold_left Pos.of_uint_acc];
    try reflexivity; rewrite <- IHd; f_equal; unfold digit_value;
    match goal with
    | |- context [Z.of_nat ?n] =>
        let v := eval vm_compute in (Z.of_nat n) in change (Z.of_nat n) with v
    end; lia.
Qed.

Lemma digits_value_uint (d : Decimal.uint) :
  digits_value (list_ascii_of_string (NilEmpty.string_of_uint d))
  = Z.of_N (Pos.of_uint d).
Proof.
  unfold digits_value. induction d;
    cbn [NilEmpty.string_of_uint list_ascii_of_string fold_left Pos.of_uint];
    try reflexivity; try exact IHd;
    match goal with
    | |- context [(0 * 10 + digit_value ?c)%Z] =>
        let v := eval vm_compute in (0 * 10 + digit_value c)%Z in
        change (0 * 10 + digit_value c)%Z with v
    end; rewrite digits_value_acc; reflexivity.
Qed.

Lemma parseInt_unsigned_uint (d : Decimal.uint) :
  d <> Decimal.Nil ->
  parseInt_unsigned (NilEmpty.string_of_uint d) = Some (Z.of_N (Pos.of_uint d)).
Proof.
  intros Hd. unfold parseInt_unsigned.
  assert (Hx : starts_with "0x" (NilEmpty.string_of_uint d)
               || starts_with "0X" (NilEmpty.string_of_uint d) = false).
  { destruct d as [|d|d|d|d|d|d|d|d|d|d]; try reflexivity.
    destruct d; reflexivity. }
  rewrite Hx, span_digits_uint, <- digits_value_uint.
  destruct d; try congruence; reflexivity.
Qed.

Lemma parseInt_string_uint (d : Decimal.uint) :
  d <> Decimal.Nil ->
  parseInt_string (NilEmpty.string_of_uint d) = Some (Z.of_N (Pos.of_uint d)).
Proof.
  intros Hd. rewrite <- (parseInt_unsigned_uint d Hd).
  destruct d; try congruence; reflexivity.
Qed.

Lemma to_uint_not_nil (p : positive) : Pos.to_uint p <> Decimal.Nil.
Proof.
  intros H. pose proof (DecimalPos.Unsigned.of_to p) as E.
  rewrite H in E. discriminate E.
Qed.

(** Reading back a printed integer gives the integer. *)
Lemma parseInt_string_of_Z (z : Z) : parseInt_string (string_of_Z z) = Some z.
Proof.
  destruct z as [|p|p]; [reflexivity| |].
  - simpl. rewrite parseInt_string_uint by apply to_uint_not_nil.
    now rewrite DecimalPos.Unsigned.of_to.
  - unfold string_of_Z, parseInt_string.
    change (trimStart ("-" ++ NilEmpty.string_of_uint (Pos.to_uint p)))
      with ("-" ++ NilEmpty.string_of_uint (Pos.to_uint p))%string.
    simpl. rewrite parseInt_unsigned_uint by apply to_uint_not_nil.
    now rewrite DecimalPos.Unsigned.of_to.
Qed.

Lemma string_of_Z_no_underscore (z : Z) : includes "_" (string_of_Z z) = false.
Proof. destruct z; simpl; auto using uint_no_underscore. Qed.

(** The number of a generated id is the counter it was made from. *)
Lemma id_number_generated (z : Z) :
  id_number ("node_" ++ string_of_Z z) = Some z.
Proof.
  unfold id_number.
  change (split "_" ("node_" ++ string_of_Z z))
    with ("node" :: split "_" (string_of_Z z)).
  rewrite split_no_sep by apply string_of_Z_no_underscore.
  apply parseInt_string_of_Z.
Qed.

(** *** The table of nodes under every sequence of actions *)

Lemma In_has_key {A : Type} (k : string) (l : list (string * A)) :
  In k (map fst l) -> has_key k l = true.
Proof.
  unfold has_key. induction l as [|[k' a] r IH]; simpl; [contradiction|].
  intros [->|H]; [now rewrite String.eqb_refl|].
  destruct (String.eqb k k'); [reflexivity|now apply IH].
Qed.

Lemma In_replace_prop {A : Type} (k : string) (a : A) (l : list (string * A))
  (e : string * A) :
  In e (replace_prop k a l) -> In e l \/ e = (k, a).
Proof.
  induction l as [|[k' a'] r IH]; simpl; [contradiction|].
  destruct (String.eqb k k') eqn:E.
  - apply String.eqb_eq in E. subst k'. intros [<-|H]; auto.
  - intros [<-|H]; auto. destruct (IH H); auto.
Qed.

Lemma has_key_app {A : Type} (k k' : string) (a : A) (l : list (string * A)) :
  has_key k (l ++ [(k', a)]) = has_key k l || String.eqb k k'.
Proof.
  unfold has_key. induction l as [|[j b] r IH]; simpl.
  - destruct (String.eqb k k'); reflexivity.
  - destruct (String.eqb k j); [reflexivity|exact IH].
Qed.

Lemma has_key_replace_prop {A : Type} (k k' : string) (a : A)
  (l : list (string * A)) :
  has_key k (replace_prop k' a l) = has_key k l.
Proof. apply assoc_keys. apply map_fst_replace_prop. Qed.

Lemma allocate_id_ahead (o : Options) (counter : Z) :
  (counter <= snd (allocate_id o counter))%Z
  /\ (forall n, id_number (fst (allocate_id o counter)) = Some n ->
        (n < snd (allocate_id o counter))%Z)
  /\ fst (allocate_id o counter) <> "".
Proof.
  unfold allocate_id, id_number.
  destruct (truthy_string (o_id o)) as [id|] eqn:Eid.
  - assert (Hne : id <> "").
    { unfold truthy_string in Eid. destruct (o_id o) as [s|]; [|discriminate].
      destruct (String.eqb s "") eqn:E; [discriminate|].
      injection Eid as <-. now apply String.eqb_neq in E. }
    destruct (parseInt_string (nth 1 (split "_" id) "undefined")) as [n|] eqn:En;
      cbn [fst snd]; rewrite ?En.
    + repeat split; [| |exact Hne].
      * destruct (counter <=? n)%Z eqn:E; [apply Z.leb_le in E|]; lia.
      * intros m Hm; injection Hm as Hm; subst m. destruct (counter <=? n)%Z eqn:E;
          [|apply Z.leb_gt in E]; lia.
    + repeat split; [lia|discriminate|exact Hne].
  - destruct (parseInt_string
                (nth 1 (split "_" ("node_" ++ string_of_Z counter)) "undefined"))
      as [n|] eqn:En; cbn [fst snd]; rewrite ?En.
    + repeat split; [| |discriminate].
      * destruct (counter + 1 <=? n)%Z eqn:E; [apply Z.leb_le in E|]; lia.
      * intros m Hm; injection Hm as Hm; subst m. destruct (counter + 1 <=? n)%Z eqn:E;
          [|apply Z.leb_gt in E]; lia.
    + repeat split; [lia|discriminate|discriminate].
Qed.

Lemma table_invariant_nodes_set (ed : Editor) (id : string) (nd : NodeData)
  (counter : Z) :
  table_invariant ed ->
  el_id nd = id -> id <> "" -> parentId nd <> Some "" ->
  isContainer nd = existsb (String.eqb (ntype nd)) layoutNodeTypes ->
  (nodeCounter ed <= counter)%Z ->
  (forall n, id_number id = Some n -> (n < counter)%Z) ->
  table_invariant (nodes_set id nd (set_nodeCounter counter ed)).
Proof.
  intros (Hdup & Hent & Hcnt) Hid Hne Hpar Hcon Hle Hnum.
  unfold nodes_set, table_invariant. simpl.
  destruct (has_key id (nodes ed)) eqn:Ek.
  - split; [now rewrite map_fst_replace_prop|]. split.
    + intros k x [Hin|Heq]%In_replace_prop; [now apply Hent|].
      injection Heq as -> ->. auto.
    + intros k n Hk Hn. unfold has_node in Hk. simpl in Hk.
      rewrite has_key_replace_prop in Hk.
      specialize (Hcnt k n Hk Hn). lia.
  - split.
    + rewrite map_app. simpl. apply NoDup_app; [exact Hdup|repeat constructor; auto|].
      intros k Hk [<-|[]]. apply In_has_key in Hk. congruence.
    + split.
      * intros k x [Hin|[Heq|[]]]%in_app_or; [now apply Hent|].
        injection Heq as <- <-. auto.
      * intros k n Hk Hn. unfold has_node in Hk. simpl in Hk.
        rewrite has_key_app in Hk. apply orb_true_iff in Hk as [Hk|Hk].
        -- specialize (Hcnt k n Hk Hn). lia.
        -- apply String.eqb_eq in Hk. subst k. now apply Hnum.
Qed.

Lemma table_invariant_counter (ed : Editor) (counter : Z) :
  table_invariant ed -> (nodeCounter ed <= counter)%Z ->
  table_invariant (set_nodeCounter counter ed).
Proof.
  intros (Hdup & Hent & Hcnt) Hle. split; [exact Hdup|]. split; [exact Hent|].
  intros id n Hk Hn. specialize (Hcnt id n Hk Hn). simpl. lia.
Qed.

Lemma table_invariant_same (a b : Editor) :
  layout_of b = layout_of a ->
  nodeCounter b = nodeCounter a ->
  table_invariant a -> table_invariant b.
Proof.
  intros Hl Hc (Hdup & Hent & Hcnt).
  assert (Hkeys : map fst (nodes b) = map fst (nodes a)).
  { unfold layout_of in Hl. apply (f_equal (map fst)) in Hl.
    rewrite !map_map in Hl. exact Hl. }
  split; [now rewrite Hkeys|]. split.
  - intros id nd Hin.
    assert (Hin' : In (id, fixed_part nd) (layout_of a)).
    { rewrite <- Hl. unfold layout_of.
      apply (in_map (fun e => (fst e, fixed_part (snd e)))) in Hin. exact Hin. }
    unfold layout_of in Hin'. apply in_map_iff in Hin' as ([k x] & Heq & Hx).
    simpl in Heq.
    injection Heq as -> E1 Eleft Etop Ewidth Eheight E4 Eprop Ecode E3 Echildren E2.
    destruct (Hent id x Hx) as (Hx1 & Hx2 & Hx3 & Hx4).
    rewrite <- E1, <- E2, <- E3, <- E4. auto.
  - intros id n Hk Hn. rewrite Hc. apply (Hcnt id n); [|exact Hn].
    unfold has_node in *. now rewrite (assoc_keys id (nodes a) (nodes b)).
Qed.

Lemma table_invariant_history (ed : Editor) (h : History) :
  table_invariant ed -> table_invariant (set_history h ed).
Proof. intros H. exact H. Qed.

Lemma recordState_table_invariant (ed : Editor) :
  table_invariant ed -> table_invariant (recordState ed).
Proof. intros H. rewrite recordState_graph. exact H. Qed.

Lemma forEach_preserves {A : Type} (P : Editor -> Prop) (l : list A)
  (body : A -> Editor -> Editor * Completion) :
  (forall a e, In a l -> P e -> P (fst (body a e))) ->
  forall e, P e -> P (fst (forEach l body e)).
Proof.
  induction l as [|a r IH]; intros Hbody e He; [exact He|].
  simpl. pose proof (Hbody a e (or_introl eq_refl) He) as H1.
  destruct (body a e) as [e' [| | |]]; simpl in *; try exact H1.
  apply IH; [|exact H1]. intros b x Hb. apply Hbody. now right.
Qed.

Section Table.

Context {host : Host}.

Lemma createNode_table_invariant (type : string) (x y : Z) (o : Options)
  (ed : Editor) :
  table_invariant ed -> table_invariant (fst (createNode type x y o ed)).
Proof.
  intros H. unfold createNode.
  destruct (negb (creation_followed o (nodeCounter ed)));
    [first [assumption | reflexivity]|].
  destruct (allocate_id_ahead o (nodeCounter ed)) as (Hle & Hnum & Hne).
  destruct (allocate_id o (nodeCounter ed)) as [nodeId counter]. simpl in *.
  assert (Hpar : truthy_string (o_parentId o) <> Some "").
  { unfold truthy_string. destruct (o_parentId o) as [s|]; [|discriminate].
    destruct (String.eqb s "") eqn:E; [discriminate|].
    apply String.eqb_neq in E. congruence. }
  assert (Hset : forall content,
            table_invariant
              (nodes_set nodeId
                 (mkNodeData nodeId x y
                    (match truthy_string (o_width o) with Some w => w | None => "" end)
                    (match truthy_string (o_height o) with Some h => h | None => "" end)
                    (fst content) (snd content) type []
                    (if String.eqb type "text"
                     then option_or (o_properties o) defaultTextProperties
                     else VObj [])
                    (if String.eqb type "text"
                     then option_or (o_codeBlockProperties o)
                            defaultCodeBlockProperties
                     else VObj [])
                    (existsb (String.eqb type) layoutNodeTypes)
                    (match o_children o with Some cs => cs | None => [] end)
                    (truthy_string (o_parentId o)))
                 (set_nodeCounter counter ed))).
  { intros content. apply table_invariant_nodes_set; auto. }
  destruct (nodeCreators type) as [t|name|]; cbn [fst].
  - destruct (o_fromSerialization o); [apply (Hset (t o))|].
    apply recordState_table_invariant, (Hset (t o)).
  - destruct (String.eqb name "__proto__" || String.eqb name "__defineGetter__"
              || String.eqb name "__defineSetter__"); [|apply (Hset ([], None))].
    now apply table_invariant_counter.
  - apply (Hset ([], None)).
Qed.

Lemma processNodeData_table_invariant (fuel : nat) (id : string) (ed : Editor) :
  table_invariant ed -> table_invariant (fst (processNodeData fuel id ed)).
Proof.
  destruct (processNodeData_frame fuel id ed) as (_ & _ & _ & Hc & _ & _ & _ & Hl).
  now apply table_invariant_same.
Qed.

Lemma table_invariant_empty (ed : Editor) (counter : Z) :
  table_invariant (set_nodeCounter counter (set_nodes [] ed)).
Proof.
  split; [constructor|]. split; [intros id nd []|].
  intros id n Hk. discriminate Hk.
Qed.

Lemma load_document_table_invariant (fuel : nat) (doc : SessionDoc)
  (ed : Editor) :
  table_invariant (fst (load_document fuel doc ed)).
Proof.
  unfold load_document.
  match goal with
  | |- context [match d_nodes doc with
                | Some _ => _
                | None => (?e2, _)
                end] =>
      assert (H2 : table_invariant e2)
        by (apply (table_invariant_empty
                     (set_view
                        (match d_canvasOffset doc with
                         | Some off => off
                         | None => (Some (num_of_Z 0), Some (num_of_Z 0))
                         end)
                        (number_or (d_scale doc) (num_of_Z 1))
                        (set_connections [] ed))))
  end.
  destruct (d_nodes doc) as [nss|]; [|exact H2].
  match goal with
  | |- context [forEach nss ?body ?start] =>
      assert (H3 : table_invariant (fst (forEach nss body start)))
        by (apply forEach_preserves; [|exact H2];
            intros ns e _ He; now apply createNode_table_invariant);
      destruct (forEach nss body start) as [ed3 c]
  end.
  simpl in H3. destruct c; simpl; try exact H3.
  apply forEach_preserves; [|exact H3].
  intros entry e _ He. now apply processNodeData_table_invariant.
Qed.

Lemma deserialize_table_invariant (fuel : nat) (text : JSONText) (ed : Editor) :
  table_invariant ed -> table_invariant (fst (deserialize fuel text ed)).
Proof.
  intros H. unfold deserialize. destruct text as [m| |doc]; simpl.
  - exact H.
  - split; [constructor|]. split; [intros id nd []|].
    intros id n Hk. discriminate Hk.
  - pose proof (load_document_table_invariant fuel doc (set_isRestoring true ed))
      as Hl.
    destruct (load_document fuel doc (set_isRestoring true ed)) as [e [| | |]];
      exact Hl.
Qed.

Lemma perform_table_invariant (fuel : nat) (a : Action) (ed : Editor) :
  table_invariant ed -> table_invariant (perform fuel a ed).
Proof.
  intros H. destruct a; simpl.
  - now apply createNode_table_invariant.
  - unfold startConnection. destruct (s_isOutput socket); exact H.
  - unfold completeConnection.
    destruct (connectionStart ed) as [start|]; [|exact H].
    destruct (negb (s_isInput socket)); [exact H|].
    destruct (String.eqb (ep_node start) (s_node socket)); [exact H|].
    match goal with
    | |- context [processNodeData fuel ?id ?e] =>
        assert (Hp : table_invariant (fst (processNodeData fuel id e)))
          by (apply processNodeData_table_invariant,
                recordState_table_invariant; exact H);
        destruct (processNodeData fuel id e) as [e3 [| | |]]
    end; exact Hp.
  - unfold deleteConnection. cbv zeta.
    destruct (nth_error (connections ed) index) as [c|].
    + apply processNodeData_table_invariant, recordState_table_invariant.
      exact H.
    + apply recordState_table_invariant. exact H.
  - unfold editContent. destruct (nodes_get ed id) as [nd|] eqn:Hget; [|exact H].
    destruct (nth_error (controls nd) i) as [c|]; [|exact H].
    assert (He : table_invariant
              (set_nodes
                 (replace_prop id
                    (set_controls (set_nth_value i s (controls nd)) nd)
                    (nodes ed)) ed)).
    { apply table_invariant_same with (a := ed); [|reflexivity|exact H].
      unfold layout_of. simpl.
      now apply layout_replace_prop with (nd := nd). }
    destruct (listens c); [|exact He].
    now apply processNodeData_table_invariant.
  - now apply recordState_table_invariant.
  - unfold undo.
    destruct (List.length (undoStack (history ed)) <=? 1); [exact H|].
    destruct (last (map Some (undoStack (history ed))) None); [|exact H].
    destruct (last (map Some (removelast (undoStack (history ed)))) None);
      [|exact H].
    now apply deserialize_table_invariant.
  - unfold redo.
    destruct (last (map Some (redoStack (history ed))) None); [|exact H].
    now apply deserialize_table_invariant.
  - unfold clearCanvas. apply recordState_table_invariant.
    split; [constructor|]. split; [intros id nd []|].
    intros id n Hk. discriminate Hk.
  - unfold loadShowcase.
    assert (Hc : table_invariant (clearCanvas ed)).
    { unfold clearCanvas. apply recordState_table_invariant.
      split; [constructor|]. split; [intros id nd []|].
      intros id n Hk. discriminate Hk. }
    pose proof (deserialize_table_invariant fuel jsonString (clearCanvas ed) Hc)
      as Hd.
    destruct (deserialize fuel jsonString (clearCanvas ed)) as [e [| | |]];
      simpl in *; try exact Hd.
    now apply recordState_table_invariant.
  - unfold loadSession.
    pose proof (deserialize_table_invariant fuel content ed H) as Hd.
    destruct (deserialize fuel content ed) as [e [| | |]]; exact Hd.
Qed.

Lemma perform_all_table_invariant (fuel : nat) (actions : list Action) :
  forall ed, table_invariant ed -> table_invariant (perform_all fuel actions ed).
Proof.
  induction actions as [|a r IH]; intros ed H; [exact H|].
  simpl. apply IH. now apply perform_table_invariant.
Qed.

Lemma initialEditor_table_invariant : table_invariant initialEditor.
Proof.
  split; [constructor|]. split; [intros id nd []|].
  intros id n Hk. discriminate Hk.
Qed.

(** X7.  Generated ids are fresh.  In every state that a sequence of
    actions reaches from the editor as the constructor leaves it (loaded
    session files may carry any ids and any counter), as long as the
    actions and the creation are followed, which takes a counter that is
    a safe integer: [createNode] called without an id makes the id
    [node_<counter>], which no node of the table has, and adds its node
    at the end of the table: the nodes that were there stay as they are,
    under their ids and in their order. *)
Theorem generated_ids_are_fresh (fuel : nat) (actions : list Action)
  (type : string) (x y : Z) (o : Options) :
  truthy_string (o_id o) = None ->
  followed fuel actions initialEditor ->
  let ed := perform_all fuel actions initialEditor in
  let id := ("node_" ++ string_of_Z (nodeCounter ed))%string in
  snd (createNode type x y o ed) <> Astray ->
  safe_integer (nodeCounter ed) = true
  /\ fst (allocate_id o (nodeCounter ed)) = id
  /\ has_node ed id = false
  /\ (snd (createNode type x y o ed) = Normal ->
      exists nd, nodes (fst (createNode type x y o ed)) = nodes ed ++ [(id, nd)]).
Proof.
  intros Ho _ ed id.
  pose proof (perform_all_table_invariant fuel actions initialEditor
                initialEditor_table_invariant) as (Hdup & Hent & Hcnt).
  fold ed in Hdup, Hent, Hcnt.
  assert (Hid : fst (allocate_id o (nodeCounter ed)) = id).
  { unfold allocate_id. rewrite Ho. fold id.
    destruct (parseInt_string (nth 1 (split "_" id) "undefined")); reflexivity. }
  assert (Hfresh : has_node ed id = false).
  { destruct (has_node ed id) eqn:E; [|reflexivity].
    pose proof (Hcnt id (nodeCounter ed) E (id_number_generated (nodeCounter ed))).
    lia. }
  unfold createNode.
  destruct (creation_followed o (nodeCounter ed)) eqn:Hguard;
    cbn [negb]; cbv iota; [|intros Ha; now elim Ha].
  intros _. unfold creation_followed in Hguard.
  apply andb_true_iff in Hguard as [Hguard _].
  apply andb_true_iff in Hguard as [Hguard _].
  apply andb_true_iff in Hguard as [Hexact _].
  unfold exact_ids in Hexact. apply andb_true_iff in Hexact as [Hsafe _].
  split; [exact Hsafe|]. split; [exact Hid|]. split; [exact Hfresh|].
  destruct (allocate_id o (nodeCounter ed)) as [nodeId counter]. simpl in Hid.
  subst nodeId.
  destruct (nodeCreators type) as [t|name|]; simpl.
  - intros _. eexists.
    destruct (o_fromSerialization o); [|rewrite recordState_graph];
      unfold nodes_set; simpl; unfold has_node in Hfresh; rewrite Hfresh;
      reflexivity.
  - destruct (String.eqb name "__proto__" || String.eqb name "__defineGetter__"
              || String.eqb name "__defineSetter__"); discriminate.
  - discriminate.
Qed.

End Table.

(** ** What a snapshot restores *)

Lemma skeleton_fixed_part (nd : NodeData) :
  skeleton (fixed_part nd) = skeleton nd.
Proof. reflexivity. Qed.

Lemma skeleton_table_layout (a b : Editor) :
  layout_of b = layout_of a -> skeleton_table b = skeleton_table a.
Proof.
  intros H. unfold skeleton_table.
  assert (E : forall ed, map (fun e => (fst e, skeleton (snd e))) (nodes ed)
                         = map (fun e => (fst e, skeleton (snd e))) (layout_of ed)).
  { intros ed. unfold layout_of. rewrite map_map. reflexivity. }
  rewrite !E. now rewrite H.
Qed.

Lemma truthy_string_nonempty (s : string) :
  s <> "" -> truthy_string (Some s) = Some s.
Proof.
  intros H. unfold truthy_string. apply String.eqb_neq in H. now rewrite H.
Qed.

Lemma truthy_string_width (s : string) :
  match truthy_string (Some s) with Some w => w | None => "" end = s.
Proof.
  unfold truthy_string. destruct (String.eqb s "") eqn:E; [|reflexivity].
  apply String.eqb_eq in E. now subst.
Qed.

Lemma truthy_string_parent (p : option string) :
  p <> Some "" -> truthy_string p = p.
Proof.
  intros H. destruct p as [s|]; [|reflexivity].
  apply truthy_string_nonempty. congruence.
Qed.

Section Restore.

Context {host : Host}.

Lemma has_template_creator (type : string) :
  has_template type = true -> exists t, nodeCreators type = Own t.
Proof.
  unfold has_template, nodeCreators. intros H.
  destruct (existsb (String.eqb type) coreTypes); [eauto|].
  cbn [orb] in H. rewrite H. eauto.
Qed.

(** Creating again, from its serialized form, a node whose id is new to
    the table and whose number lies below the counter. *)
Lemma plain_node_followed (counter : Z) (id : string) (nd : NodeData) :
  id <> "" ->
  safe_integer counter = true ->
  plain_node (id, nd) = true ->
  creation_followed (options_of (serialize_node (id, nd))) counter = true.
Proof.
  intros Hne Hsafe Hplain. unfold plain_node in Hplain. cbn [fst snd] in Hplain.
  apply andb_true_iff in Hplain as [Hplain Hnum].
  apply andb_true_iff in Hplain as [Hplain Hh].
  apply andb_true_iff in Hplain as [Hc Hw].
  unfold creation_followed, exact_ids.
  cbn [options_of serialize_node o_id o_content o_width o_height ns_id
       ns_content ns_width ns_height].
  rewrite Hsafe, Hc, Hw, Hh, (truthy_string_nonempty id Hne).
  fold (id_number id). rewrite Hnum. reflexivity.
Qed.

Lemma createNode_restores (e : Editor) (id : string) (nd : NodeData) :
  id <> "" ->
  has_template (ntype nd) = true ->
  (forall n, id_number id = Some n -> (n < nodeCounter e)%Z) ->
  has_key id (nodes e) = false ->
  safe_integer (nodeCounter e) = true ->
  plain_node (id, nd) = true ->
  createNode (ntype nd) (el_left nd) (el_top nd)
    (options_of (serialize_node (id, nd))) e
  = (set_nodes (nodes e ++ [(id, recreate (id, nd))]) e, Normal).
Proof.
  intros Hne Htpl Hnum Hnew Hsafe Hplain.
  destruct (has_template_creator _ Htpl) as [t Ht].
  unfold createNode.
  rewrite (plain_node_followed (nodeCounter e) id nd Hne Hsafe Hplain).
  cbn [negb].
  assert (Ha : allocate_id (options_of (serialize_node (id, nd))) (nodeCounter e)
               = (id, nodeCounter e)).
  { unfold allocate_id. simpl o_id. rewrite truthy_string_nonempty by exact Hne.
    fold (id_number id). destruct (id_number id) as [n|] eqn:En; [|reflexivity].
    specialize (Hnum n eq_refl). apply Z.leb_gt in Hnum. now rewrite Hnum. }
  rewrite Ha, Ht. unfold recreate. cbn [fst snd]. rewrite Ht.
  cbn [options_of serialize_node o_fromSerialization].
  unfold nodes_set. cbn [nodes set_nodeCounter set_nodes]. rewrite Hnew.
  destruct e; reflexivity.
Qed.

Lemma skeleton_recreate (id : string) (nd : NodeData) :
  el_id nd = id -> parentId nd <> Some "" ->
  isContainer nd = existsb (String.eqb (ntype nd)) layoutNodeTypes ->
  skeleton (recreate (id, nd)) = skeleton nd.
Proof.
  intros Hid Hpar Hcon. unfold skeleton, recreate, options_of.
  cbn [fst snd el_id el_left el_top el_width el_height ntype isContainer children
       parentId o_width o_height o_children o_parentId ns_width ns_height
       ns_parentId ns_children serialize_node].
  rewrite !truthy_string_width, truthy_string_parent by exact Hpar.
  now rewrite Hid, Hcon.
Qed.

Lemma forEach_restores (l : list (string * NodeData)) :
  forall e : Editor,
    NoDup (map fst l) ->
    (forall id nd, In (id, nd) l ->
       id <> ""
       /\ has_template (ntype nd) = true
       /\ (forall n, id_number id = Some n -> (n < nodeCounter e)%Z)
       /\ has_key id (nodes e) = false
       /\ plain_node (id, nd) = true) ->
    safe_integer (nodeCounter e) = true ->
    forEach (map serialize_node l)
      (fun ns => createNode (ns_type ns) (ns_x ns) (ns_y ns) (options_of ns)) e
    = (set_nodes (nodes e ++ map (fun x => (fst x, recreate x)) l) e, Normal).
Proof.
  induction l as [|[id nd] r IH]; intros e Hdup Hall Hsafe.
  - simpl. rewrite app_nil_r. now destruct e.
  - destruct (Hall id nd (or_introl eq_refl))
      as (Hne & Htpl & Hnum & Hnew & Hplain).
    cbn [map forEach].
    change (ns_type (serialize_node (id, nd))) with (ntype nd).
    change (ns_x (serialize_node (id, nd))) with (el_left nd).
    change (ns_y (serialize_node (id, nd))) with (el_top nd).
    rewrite (createNode_restores e id nd Hne Htpl Hnum Hnew Hsafe Hplain).
    cbn [map fst] in Hdup. apply NoDup_cons_iff in Hdup as [Hnotin Hdup'].
    rewrite (IH (set_nodes (nodes e ++ [(id, recreate (id, nd))]) e) Hdup').
    + cbn [nodes set_nodes fst]. rewrite <- app_assoc. now destruct e.
    + intros k x Hin.
      destruct (Hall k x (or_intror Hin)) as (H2 & H5 & H6 & H7 & H8).
      split; [exact H2|]. split; [exact H5|]. split; [exact H6|].
      split; [|exact H8].
      cbn [nodes set_nodes]. rewrite has_key_app, H7. simpl.
      apply String.eqb_neq. intros ->. apply Hnotin.
      apply (in_map fst) in Hin. exact Hin.
    + exact Hsafe.
Qed.

Lemma skeleton_table_recreate (l : list (string * NodeData)) :
  (forall id nd, In (id, nd) l ->
     el_id nd = id /\ id <> "" /\ parentId nd <> Some ""
     /\ isContainer nd = existsb (String.eqb (ntype nd)) layoutNodeTypes) ->
  map (fun x => (fst x, skeleton (snd x))) (map (fun x => (fst x, recreate x)) l)
  = map (fun x => (fst x, skeleton (snd x))) l.
Proof.
  intros H. rewrite map_map. apply map_ext_in. intros [id nd] Hin.
  destruct (H id nd Hin) as (H1 & _ & H3 & H4). cbn [fst snd].
  now rewrite skeleton_recreate.
Qed.

(** The table that the first loop of [load_document] builds from the
    snapshot of an editor. *)
Lemma load_document_builds (fuel : nat) (ed ed0 : Editor) :
  table_invariant ed ->
  all_templates ed ->
  plain_snapshot ed ->
  exists start,
    nodes start = map (fun x => (fst x, recreate x)) (nodes ed)
    /\ connections start = connections ed
    /\ canvasOffset start = json_offset (canvasOffset ed)
    /\ scale start = number_or (json_number (scale ed)) (num_of_Z 1)
    /\ nodeCounter start = nodeCounter ed
    /\ load_document fuel (serialize ed) ed0
       = forEach (nodes start)
           (fun entry => processNodeData fuel (el_id (snd entry))) start.
Proof.
  intros (Hdup & Hent & Hcnt) Htpl (Hsafe & Hplain).
  unfold load_document. cbn [serialize d_nodes d_connections d_canvasOffset
                               d_scale d_nodeCounter].
  match goal with
  | |- context [forEach (map serialize_node (nodes ed)) ?body ?start] =>
      rewrite (forEach_restores (nodes ed) start Hdup)
  end.
  - cbv beta iota zeta.
    match goal with
    | |- exists s, _ /\ _ /\ _ /\ _ /\ _ /\ forEach _ _ ?e = _ => exists e
    end.
    split; [now destruct ed0|]. repeat split.
  - intros id nd Hin. destruct (Hent id nd Hin) as (H1 & H2 & H3 & H4).
    split; [exact H2|]. split; [now apply (Htpl id nd)|].
    split; [|split; [reflexivity|]].
    + intros n Hn. apply (Hcnt id n); [|exact Hn].
      unfold has_node. apply In_has_key. apply (in_map fst) in Hin. exact Hin.
    + rewrite forallb_forall in Hplain. now apply Hplain.
  - exact Hsafe.
Qed.

(** The graph that [load_document] makes of the snapshot of an editor
    whose table is well formed and whose node types have templates. *)
Lemma load_document_restores (fuel : nat) (ed ed0 : Editor) :
  table_invariant ed ->
  all_templates ed ->
  plain_snapshot ed ->
  skeleton_table (fst (load_document fuel (serialize ed) ed0))
  = skeleton_table ed
  /\ connections (fst (load_document fuel (serialize ed) ed0)) = connections ed
  /\ canvasOffset (fst (load_document fuel (serialize ed) ed0))
     = json_offset (canvasOffset ed)
  /\ scale (fst (load_document fuel (serialize ed) ed0))
     = number_or (json_number (scale ed)) (num_of_Z 1)
  /\ nodeCounter (fst (load_document fuel (serialize ed) ed0)) = nodeCounter ed.
Proof.
  intros Hinv Htpl Hplain.
  destruct (load_document_builds fuel ed ed0 Hinv Htpl Hplain)
    as (start & Hn & Hc & Ho & Hs & Hk & Hload).
  rewrite Hload.
  assert (Hframe :
    let final := fst (forEach (nodes start)
                        (fun entry => processNodeData fuel (el_id (snd entry)))
                        start) in
    layout_of final = layout_of start
    /\ connections final = connections start
    /\ canvasOffset final = canvasOffset start
    /\ scale final = scale start
    /\ nodeCounter final = nodeCounter start).
  { apply (forEach_invariant
             (fun a b => layout_of b = layout_of a
                         /\ connections b = connections a
                         /\ canvasOffset b = canvasOffset a
                         /\ scale b = scale a
                         /\ nodeCounter b = nodeCounter a)).
    - intros x. auto.
    - intros a b c (A1 & A2 & A3 & A4 & A5) (B1 & B2 & B3 & B4 & B5).
      repeat split; congruence.
    - intros entry x _.
      destruct (processNodeData_frame fuel (el_id (snd entry)) x)
        as (F1 & F2 & F3 & F4 & _ & _ & _ & F8). auto. }
  destruct Hframe as (F1 & F2 & F3 & F4 & F5).
  split; [|split; [congruence|split; [congruence|split; congruence]]].
  rewrite (skeleton_table_layout _ _ F1). unfold skeleton_table. rewrite Hn.
  apply skeleton_table_recreate. destruct Hinv as (_ & Hent & _). exact Hent.
Qed.

(** What [deserialize] adds to [load_document] touches neither the
    graph nor the view. *)
Lemma deserialize_graph (fuel : nat) (doc : SessionDoc) (ed0 : Editor) :
  nodes (fst (deserialize fuel (Document doc) ed0))
  = nodes (fst (load_document fuel doc (set_isRestoring true ed0)))
  /\ connections (fst (deserialize fuel (Document doc) ed0))
     = connections (fst (load_document fuel doc (set_isRestoring true ed0)))
  /\ canvasOffset (fst (deserialize fuel (Document doc) ed0))
     = canvasOffset (fst (load_document fuel doc (set_isRestoring true ed0)))
  /\ scale (fst (deserialize fuel (Document doc) ed0))
     = scale (fst (load_document fuel doc (set_isRestoring true ed0)))
  /\ nodeCounter (fst (deserialize fuel (Document doc) ed0))
     = nodeCounter (fst (load_document fuel doc (set_isRestoring true ed0))).
Proof.
  unfold deserialize.
  destruct (load_document fuel doc (set_isRestoring true ed0)) as [e [| | |]];
    repeat split.
Qed.

Lemma deserialize_restores (fuel : nat) (ed ed0 : Editor) :
  table_invariant ed ->
  all_templates ed ->
  plain_snapshot ed ->
  skeleton_table (fst (deserialize fuel (Document (serialize ed)) ed0))
  = skeleton_table ed
  /\ connections (fst (deserialize fuel (Document (serialize ed)) ed0))
     = connections ed
  /\ canvasOffset (fst (deserialize fuel (Document (serialize ed)) ed0))
     = json_offset (canvasOffset ed)
  /\ nodeCounter (fst (deserialize fuel (Document (serialize ed)) ed0))
     = nodeCounter ed.
Proof.
  intros Hinv Htpl Hplain.
  destruct (load_document_restores fuel ed (set_isRestoring true ed0) Hinv Htpl
              Hplain) as (L1 & L2 & L3 & _ & L5).
  destruct (deserialize_graph fuel (serialize ed) ed0) as (D1 & D2 & D3 & _ & D5).
  unfold skeleton_table in *. rewrite D1, D2, D3, D5. auto.
Qed.

Lemma deserialize_returns (fuel : nat) (text : JSONText) (ed : Editor) :
  snd (deserialize fuel text ed) <> Astray ->
  snd (deserialize fuel text ed) = Normal.
Proof.
  unfold deserialize. destruct text as [m| |doc]; simpl; auto.
  destruct (load_document fuel doc (set_isRestoring true ed)) as [e [| | |]];
    simpl; congruence.
Qed.

(** X8.  What a snapshot restores.  For an editor whose table of nodes
    is well formed, whose node types all have templates, and whose
    control values, sizes and counter are plain, loading its own
    snapshot, over any editor, in a run that does not go astray, brings
    back every node under its id and in its place in the table, with its
    type, position, size, children and parent, and brings back the
    connections, the node counter, the canvas offset (a coordinate that
    is not finite comes back as [null]) and a scale that is a number
    other than zero.  The call returns (a processor that throws while the
    loaded graph is evaluated is reported by an alert, the graph being
    complete by then), and it leaves the stacks of the history as they
    were.  (The values of the controls are not part of this: some
    templates do not read them back.) *)
Theorem deserialize_serialize_skeleton (fuel : nat) (ed ed0 : Editor) :
  table_invariant ed ->
  all_templates ed ->
  plain_snapshot ed ->
  snd (deserialize fuel (Document (serialize ed)) ed0) <> Astray ->
  skeleton_table (fst (deserialize fuel (Document (serialize ed)) ed0))
  = skeleton_table ed
  /\ connections (fst (deserialize fuel (Document (serialize ed)) ed0))
     = connections ed
  /\ canvasOffset (fst (deserialize fuel (Document (serialize ed)) ed0))
     = json_offset (canvasOffset ed)
  /\ nodeCounter (fst (deserialize fuel (Document (serialize ed)) ed0))
     = nodeCounter ed
  /\ (forall q, scale ed = Fin q -> Qeq_bool q 0 = false ->
        scale (fst (deserialize fuel (Document (serialize ed)) ed0)) = Fin q)
  /\ snd (deserialize fuel (Document (serialize ed)) ed0) = Normal
  /\ undoStack (history (fst (deserialize fuel (Document (serialize ed)) ed0)))
     = undoStack (history ed0)
  /\ redoStack (history (fst (deserialize fuel (Document (serialize ed)) ed0)))
     = redoStack (history ed0).
Proof.
  intros Hinv Htpl Hplain Hfollowed.
  destruct (load_document_restores fuel ed (set_isRestoring true ed0) Hinv Htpl
              Hplain) as (L1 & L2 & L3 & L4 & L5).
  destruct (deserialize_graph fuel (serialize ed) ed0) as (D1 & D2 & D3 & D4 & D5).
  split; [unfold skeleton_table in *; now rewrite D1|].
  split; [now rewrite D2|]. split; [now rewrite D3|]. split; [now rewrite D5|].
  split.
  { intros q Hq Hnz. rewrite D4, L4, Hq. unfold number_or, json_number.
    simpl. now rewrite Hnz. }
  split; [now apply deserialize_returns|].
  rewrite deserialize_history. split; reflexivity.
Qed.

(** X9.  Undo brings back the graph of the snapshot below the top: when
    the undo stack ends with the snapshot of an editor [prev] (well
    formed table, node types with templates, plain values) and one more
    snapshot, [undo], in a run that does not go astray, leaves the nodes
    of [prev] in the table, under their ids and in their order, each
    with its type, position, size, children and parent, and leaves the
    connections, the canvas offset (a coordinate that is not finite as
    [null]) and the node counter of [prev]; the top snapshot moves to
    the redo stack. *)
Theorem undo_restores_skeleton (fuel : nat) (ed prev : Editor)
  (below : list SessionDoc) (top : SessionDoc) :
  undoStack (history ed) = below ++ [serialize prev; top] ->
  table_invariant prev ->
  all_templates prev ->
  plain_snapshot prev ->
  snd (undo fuel ed) <> Astray ->
  skeleton_table (fst (undo fuel ed)) = skeleton_table prev
  /\ connections (fst (undo fuel ed)) = connections prev
  /\ canvasOffset (fst (undo fuel ed)) = json_offset (canvasOffset prev)
  /\ nodeCounter (fst (undo fuel ed)) = nodeCounter prev
  /\ undoStack (history (fst (undo fuel ed))) = below ++ [serialize prev]
  /\ redoStack (history (fst (undo fuel ed))) = redoStack (history ed) ++ [top].
Proof.
  intros Hstack Hinv Htpl Hplain _.
  destruct (undo_stacks fuel ed below (serialize prev) top Hstack) as [Hu Hr].
  repeat (split; [|try assumption]); try assumption.
  all: unfold undo; rewrite Hstack.
  all: assert (Hlen : (List.length (below ++ [serialize prev; top]) <=? 1) = false)
         by (apply Nat.leb_gt; rewrite length_app; simpl; lia); rewrite Hlen.
  all: replace (below ++ [serialize prev; top])
         with ((below ++ [serialize prev]) ++ [top])
         by (rewrite <- app_assoc; reflexivity).
  all: rewrite last_map_Some_app, removelast_last, last_map_Some_app.
  all: apply deserialize_restores; assumption.
Qed.

(** X16.  Undo followed by redo brings the graph back.  When the top of
    the undo stack is the snapshot of an editor [cur] (well formed table,
    node types with templates, plain values) and a snapshot lies below
    it, [undo] and then [redo], in runs that do not go astray, leave both
    stacks as they were and leave the nodes of [cur] in the table, under
    their ids and in their order, each with its type, position, size,
    children and parent, together with the connections, the canvas
    offset (a coordinate that is not finite as [null]) and the node
    counter of [cur]. *)
Theorem undo_redo_restores_skeleton (fuel : nat) (ed cur : Editor)
  (below : list SessionDoc) (under : SessionDoc) :
  undoStack (history ed) = below ++ [under; serialize cur] ->
  table_invariant cur ->
  all_templates cur ->
  plain_snapshot cur ->
  snd (undo fuel ed) <> Astray ->
  snd (redo fuel (fst (undo fuel ed))) <> Astray ->
  undoStack (history (fst (redo fuel (fst (undo fuel ed)))))
  = undoStack (history ed)
  /\ redoStack (history (fst (redo fuel (fst (undo fuel ed)))))
     = redoStack (history ed)
  /\ skeleton_table (fst (redo fuel (fst (undo fuel ed)))) = skeleton_table cur
  /\ connections (fst (redo fuel (fst (undo fuel ed)))) = connections cur
  /\ canvasOffset (fst (redo fuel (fst (undo fuel ed))))
     = json_offset (canvasOffset cur)
  /\ nodeCounter (fst (redo fuel (fst (undo fuel ed)))) = nodeCounter cur.
Proof.
  intros Hstack Hinv Htpl Hplain _ _.
  destruct (undo_stacks fuel ed below under (serialize cur) Hstack) as [Hu Hr].
  destruct (redo_stacks fuel (fst (undo fuel ed)) (redoStack (history ed))
              (serialize cur) Hr) as [Hu' Hr'].
  split; [rewrite Hu', Hu, Hstack, <- app_assoc; reflexivity|].
  split; [exact Hr'|].
  set (e1 := fst (undo fuel ed)) in *.
  assert (E : redo fuel e1
              = deserialize fuel (Document (serialize cur))
                  (set_history
                     (mkHistory (undoStack (history e1) ++ [serialize cur])
                        (removelast (redoStack (history e1)))
                        (maxHistory (history e1)) (isRestoring (history e1)))
                     e1))
    by (unfold redo; rewrite Hr, last_map_Some_app; reflexivity).
  rewrite E. apply deserialize_restores; assumption.
Qed.

End Restore.

(** ** The data processors *)

Lemma subsequence_filter {A : Type} (p : A -> bool) (l : list A) :
  subsequence (filter p l) l.
Proof.
  induction l as [|x r IH]; simpl; [constructor|].
  destruct (p x); now constructor.
Qed.

Lemma subsequence_refl {A : Type} (l : list A) : subsequence l l.
Proof. induction l; now constructor. Qed.

Lemma subsequence_nil {A : Type} (l : list A) : subsequence [] l.
Proof. induction l; now constructor. Qed.

Lemma array_filter_kept (f : value -> Called value) (rows kept : list value) :
  array_filter f rows = Returns kept -> subsequence kept rows.
Proof.
  revert kept. induction rows as [|x r IH]; intros kept H; simpl in *.
  - injection H as <-. constructor.
  - destruct (f x) as [v| |]; try discriminate.
    destruct (array_filter f r) as [r'| |]; try discriminate.
    injection H as <-. destruct (truthy v); constructor; now apply IH.
Qed.

Lemma catch_evaluation_output (e : value) (nd : NodeData) :
  assoc "data_out" (outputs (fst (catch_evaluation e nd))) = Some (VArr []).
Proof.
  unfold catch_evaluation, set_status.
  destruct (get e "message") as [message|m];
    [destruct (toString message) as [t|m]|]; simpl;
    try destruct (status nd); simpl; apply assoc_set_prop_same.
Qed.

Section DataProcessors.

Context {host : Host}.

(** X10.  The filter node neither invents nor reorders rows.  With its
    input wired to an array, and unless the condition goes astray, the
    output [data_out] that [processFilterNode] leaves is a subsequence of
    the input rows, be it that the processor returns or that it throws:
    all of the rows when the condition is empty, and, when the function
    made of the condition returns on every row, exactly the rows on
    which it returns a truthy value, in their order, the status line
    giving the two counts. *)
Theorem processFilterNode_subsequence (ed : Editor) (nd : NodeData)
  (conn : Connection) (rows : list value) (cond : Control) (s0 : string) :
  find_input ed nd "data_in" = Some conn ->
  source_output ed conn = Ok (VArr rows) ->
  querySelector (fun c => is_textarea c && has_param "condition" c) nd
  = Some cond ->
  status nd = Some s0 ->
  (snd (processFilterNode ed nd) <> Strayed ->
   exists kept,
     assoc "data_out" (outputs (fst (processFilterNode ed nd)))
     = Some (VArr kept)
     /\ subsequence kept rows)
  /\ (cvalue cond = "" ->
      snd (processFilterNode ed nd) = Returned
      /\ assoc "data_out" (outputs (fst (processFilterNode ed nd)))
         = Some (VArr rows))
  /\ (forall f,
        cvalue cond <> "" ->
        newFunction "row" ("return " ++ cvalue cond) = Ok f ->
        (forall r, In r rows -> returns_on f r) ->
        snd (processFilterNode ed nd) = Returned
        /\ assoc "data_out" (outputs (fst (processFilterNode ed nd)))
           = Some (VArr (filter (passes f) rows))
        /\ status (fst (processFilterNode ed nd))
           = Some ("Filtered " ++ string_of_nat (List.length rows)
                   ++ " rows to "
                   ++ string_of_nat (List.length (filter (passes f) rows))
                   ++ ".")%string).
Proof.
  intros Hin Hsrc Hcond Hs.
  destruct (String.eqb (cvalue cond) "") eqn:Hempty.
  - apply String.eqb_eq in Hempty.
    assert (E : processFilterNode ed nd
                = (set_status_text (Some "") (set_output "data_out" (VArr rows) nd),
                   Returned)).
    { unfold processFilterNode. rewrite Hin, Hsrc, Hcond, Hempty.
      unfold set_status. simpl. now rewrite Hs. }
    rewrite E. simpl.
    split; [intros _; exists rows; split;
            [apply assoc_set_prop_same|apply subsequence_refl]|].
    split; [intros _; split; [reflexivity|apply assoc_set_prop_same]|].
    intros f Hne. congruence.
  - rewrite (processFilterNode_evaluates ed nd conn rows cond s0
               Hin Hsrc Hcond Hs Hempty).
    apply String.eqb_neq in Hempty.
    split; [|split; [congruence|]].
    + destruct (newFunction "row" ("return " ++ cvalue cond)) as [f|m].
      * destruct (array_filter f rows) as [kept|e|] eqn:Hk.
        -- intros _. exists kept. split; [apply assoc_set_prop_same|].
           now apply (array_filter_kept f).
        -- intros _. exists []. split; [apply catch_evaluation_output|].
           apply subsequence_nil.
        -- intros H. now elim H.
      * intros _. exists []. split; [apply catch_evaluation_output|].
        apply subsequence_nil.
    + intros f _ Hf Hret. rewrite Hf, (array_filter_returns f rows Hret).
      split; [reflexivity|]. split; [apply assoc_set_prop_same|reflexivity].
Qed.

Lemma array_map_returns (f : value -> Called value) (rows : list value) :
  (forall r, In r rows -> returns_on f r) ->
  exists out, array_map f rows = Returns out
              /\ Forall2 (fun r o => f r = Returns o) rows out.
Proof.
  induction rows as [|x r IH]; intros H; simpl.
  - exists []. split; [reflexivity|constructor].
  - destruct (H x (or_introl eq_refl)) as [v Hv]. rewrite Hv.
    destruct IH as (out & Ho & Hall); [intros y Hy; apply H; now right|].
    rewrite Ho. exists (v :: out). split; [reflexivity|]. now constructor.
Qed.

Lemma array_map_throws (f : value -> Called value)
  (before after : list value) (row e : value) :
  (forall r : value, In r before -> returns_on f r) ->
  f row = Throws e ->
  array_map f (before ++ row :: after) = Throws e.
Proof.
  intros H Hrow. induction before as [|x before IH]; simpl.
  - now rewrite Hrow.
  - destruct (H x (or_introl eq_refl)) as [v Hv]. rewrite Hv.
    rewrite IH by (intros r Hr; apply H; now right). reflexivity.
Qed.

Lemma array_map_strays (f : value -> Called value)
  (before after : list value) (row : value) :
  (forall r : value, In r before -> returns_on f r) ->
  f row = Strays ->
  array_map f (before ++ row :: after) = Strays.
Proof.
  intros H Hrow. induction before as [|x before IH]; simpl.
  - now rewrite Hrow.
  - destruct (H x (or_introl eq_refl)) as [v Hv]. rewrite Hv.
    rewrite IH by (intros r Hr; apply H; now right). reflexivity.
Qed.

(** The loop of [map] returns on every row, or it stops at the first row
    on which the function throws or strays. *)
Lemma array_map_cases (f : value -> Called value) (rows : list value) :
  (forall r : value, In r rows -> returns_on f r)
  \/ (exists (before after : list value) (row : value),
        rows = before ++ row :: after
        /\ (forall r : value, In r before -> returns_on f r)
        /\ ((exists e : value, f row = Throws e) \/ f row = Strays)).
Proof.
  induction rows as [|x rows IH]; [left; intros r []|].
  destruct (f x) as [v| |] eqn:Hx.
  - destruct IH as [IH|(before & after & row & -> & Hb & Hrow)].
    + left. intros r [<-|Hr]; [now exists v|now apply IH].
    + right. exists (x :: before), after, row. split; [reflexivity|].
      split; [intros r [<-|Hr]; [now exists v|now apply Hb]|exact Hrow].
  - right. exists [], rows, x. split; [reflexivity|]. split; [intros r []|].
    left. now exists thrown.
  - right. exists [], rows, x. split; [reflexivity|]. split; [intros r []|].
    now right.
Qed.

Lemma processTransformNode_evaluates (ed : Editor) (nd : NodeData)
  (conn : Connection) (rows : list value) (logic : Control) (s0 : string) :
  find_input ed nd "data_in" = Some conn ->
  source_output ed conn = Ok (VArr rows) ->
  querySelector (fun c => is_textarea c && has_param "logic" c) nd
  = Some logic ->
  status nd = Some s0 ->
  processTransformNode ed nd
  = match newFunction "row" (cvalue logic) with
    | Raise m => catch_evaluation (error m) nd
    | Ok f =>
        match array_map f rows with
        | Returns mapped =>
            (set_status_text
               (Some ("Transformed " ++ string_of_nat (List.length rows)
                      ++ " rows.")%string)
               (set_output "data_out" (VArr mapped) nd), Returned)
        | Throws e => catch_evaluation e nd
        | Strays => (nd, Strayed)
        end
    end.
Proof.
  intros Hin Hsrc Hc Hs. unfold processTransformNode.
  rewrite Hin, Hsrc, Hc.
  destruct (newFunction "row" (cvalue logic)) as [f|m]; [|reflexivity].
  destruct (array_map f rows) as [mapped|e|]; try reflexivity.
  unfold set_status. simpl. rewrite Hs. reflexivity.
Qed.

(** X11.  The transform node maps or fails as a whole.  Its input is
    wired to an array.  When the function made of the logic text returns
    on every row, the processor returns, the output [data_out] holds, row
    for row and in the same order, what the function returned, and the
    status line gives the count.  When the text does not compile or the
    function throws on some row, the output is the empty array: no
    partial result is published; the status line is then the message of
    the exception and the processor returns, unless that message cannot
    be read, as that of [null]: then the [TypeError] of reading it leaves
    the processor and the status line stays as it was.  The processor
    goes astray exactly when the function does. *)
Theorem processTransformNode_all_or_nothing (ed : Editor) (nd : NodeData)
  (conn : Connection) (rows : list value) (logic : Control) (s0 : string) :
  find_input ed nd "data_in" = Some conn ->
  source_output ed conn = Ok (VArr rows) ->
  querySelector (fun c => is_textarea c && has_param "logic" c) nd
  = Some logic ->
  status nd = Some s0 ->
  (forall f,
     newFunction "row" (cvalue logic) = Ok f ->
     (forall r, In r rows -> returns_on f r) ->
     snd (processTransformNode ed nd) = Returned
     /\ exists out,
          assoc "data_out" (outputs (fst (processTransformNode ed nd)))
          = Some (VArr out)
          /\ Forall2 (fun r o => f r = Returns o) rows out
          /\ status (fst (processTransformNode ed nd))
             = Some ("Transformed " ++ string_of_nat (List.length rows)
                     ++ " rows.")%string)
  /\ (forall e,
        fails_with (cvalue logic) rows e ->
        assoc "data_out" (outputs (fst (processTransformNode ed nd)))
        = Some (VArr [])
        /\ match message_of e with
           | Ok s =>
               snd (processTransformNode ed nd) = Returned
               /\ status (fst (processTransformNode ed nd))
                  = Some ("Error: " ++ s)%string
           | Raise m =>
               snd (processTransformNode ed nd) = Thrown m
               /\ status (fst (processTransformNode ed nd)) = Some s0
           end)
  /\ (snd (processTransformNode ed nd) = Strayed
      <-> strays_on (cvalue logic) rows).
Proof.
  intros Hin Hsrc Hlogic Hs.
  rewrite (processTransformNode_evaluates ed nd conn rows logic s0
             Hin Hsrc Hlogic Hs).
  split; [|split].
  - intros f Hf Hret. rewrite Hf.
    destruct (array_map_returns f rows Hret) as (out & Ho & Hall). rewrite Ho.
    split; [reflexivity|]. exists out.
    split; [apply assoc_set_prop_same|]. split; [exact Hall|reflexivity].
  - intros e [(m & Hm & ->)|(f & before & after & row & Hf & -> & Hb & Hrow)].
    + rewrite Hm. apply (catch_evaluation_spec (error m) nd s0 Hs).
    + rewrite Hf, (array_map_throws f before after row e Hb Hrow).
      apply (catch_evaluation_spec e nd s0 Hs).
  - split.
    + destruct (newFunction "row" (cvalue logic)) as [f|m] eqn:Hf.
      * destruct (array_map_cases f rows)
          as [Hall|(before & after & row & -> & Hb & [(e & He)|He])].
        -- destruct (array_map_returns f rows Hall) as (out & Ho & _).
           rewrite Ho. discriminate.
        -- rewrite (array_map_throws f before after row e Hb He).
           pose proof (catch_evaluation_spec e nd s0 Hs) as [_ Hm'].
           destruct (message_of e); destruct Hm' as [Hm' _]; rewrite Hm';
             discriminate.
        -- intros _. exists f, before, after, row. now repeat split.
      * pose proof (catch_evaluation_spec (error m) nd s0 Hs) as [_ Hm'].
        destruct (message_of (error m)); destruct Hm' as [Hm' _]; rewrite Hm';
          discriminate.
    + intros (f & before & after & row & Hf & -> & Hb & Hrow).
      rewrite Hf, (array_map_strays f before after row Hb Hrow).
      reflexivity.
Qed.


(** X15.  The JSON node contains its errors.  With its input wired,
    [processJsonNode] returns whatever the input is.  In the mode
    [parse], a text that [JSON.parse] accepts becomes the output with
    the status [Success], and a text that it rejects leaves the empty
    object as output and the error message in the status line; in the
    other mode the output is what [JSON.stringify] makes of the input,
    with the status [Success]. *)
Theorem processJsonNode_outcomes (ed : Editor) (nd : NodeData)
  (conn : Connection) (sel : Control) (s0 : string) (v : value) :
  querySelector (fun c => is_select c && has_param "operation" c) nd = Some sel ->
  find_input ed nd "data_in" = Some conn ->
  source_output ed conn = Ok v ->
  status nd = Some s0 ->
  snd (processJsonNode ed nd) = Returned
  /\ (forall text parsed,
        cvalue sel = "parse" ->
        toString v = Ok text ->
        JSON_parse text = Ok parsed ->
        assoc "data_out" (outputs (fst (processJsonNode ed nd))) = Some parsed
        /\ status (fst (processJsonNode ed nd)) = Some "Success")
  /\ (forall text e,
        cvalue sel = "parse" ->
        toString v = Ok text ->
        JSON_parse text = Raise e ->
        assoc "data_out" (outputs (fst (processJsonNode ed nd))) = Some (VObj [])
        /\ status (fst (processJsonNode ed nd)) = Some ("Error: " ++ e)%string)
  /\ (cvalue sel <> "parse" ->
      assoc "data_out" (outputs (fst (processJsonNode ed nd)))
      = Some (JSON_stringify v)
      /\ status (fst (processJsonNode ed nd)) = Some "Success").
Proof.
  intros Hsel Hin Hsrc Hs.
  destruct (processJsonNode_contains_errors ed nd conn sel s0 v Hsel Hin Hsrc Hs)
    as [Hret Herr].
  split; [exact Hret|]. split; [|split].
  - intros text parsed Hop Ht Hp. unfold processJsonNode.
    rewrite Hsel, Hin, Hsrc, Hop, Ht, Hp. cbn [String.eqb Ascii.eqb Bool.eqb].
    erewrite set_status_normal; [|exact Hs].
    split; [apply assoc_set_prop_same|reflexivity].
  - intros text e Hop Ht Hp. apply (Herr text e); try assumption.
    rewrite Hop. reflexivity.
  - intros Hop. apply String.eqb_neq in Hop. unfold processJsonNode.
    rewrite Hsel, Hin, Hsrc, Hop.
    erewrite set_status_normal; [|exact Hs].
    split; [apply assoc_set_prop_same|reflexivity].
Qed.

End DataProcessors.

(** *** The CSV parser *)

Lemma csv_row_other (headers : list string) :
  forall (i : nat) (values : list string) (row : list (string * value))
         (k : string),
    ~ In k headers ->
    assoc k (csv_row headers i values row) = assoc k row.
Proof.
  induction headers as [|h hs IH]; intros i values row k Hk; [reflexivity|].
  simpl. rewrite IH by (intros H; apply Hk; now right).
  destruct (String.eqb h "__proto__"); [reflexivity|].
  apply assoc_set_prop_other. apply String.eqb_neq. intros ->.
  apply Hk. now left.
Qed.

Lemma csv_row_field (headers : list string) :
  forall (i : nat) (values : list string) (row : list (string * value))
         (j : nat) (h : string),
    NoDup headers ->
    ~ In "__proto__" headers ->
    nth_error headers j = Some h ->
    assoc h (csv_row headers i values row)
    = Some (match nth_error values (i + j) with
            | Some s => VStr s
            | None => VUndefined
            end).
Proof.
  induction headers as [|h0 hs IH]; intros i values row j h Hdup Hproto Hj.
  - destruct j; discriminate.
  - apply NoDup_cons_iff in Hdup as [Hnotin Hdup].
    assert (Hp0 : String.eqb h0 "__proto__" = false).
    { apply String.eqb_neq. intros ->. apply Hproto. now left. }
    simpl. rewrite Hp0. destruct j as [|j]; simpl in Hj.
    + injection Hj as ->. rewrite csv_row_other by exact Hnotin.
      rewrite Nat.add_0_r. apply assoc_set_prop_same.
    + rewrite (IH (S i) values _ j h Hdup); [|intros H; apply Hproto; now right
                                             |exact Hj].
      now rewrite Nat.add_succ_r.
Qed.

Section Csv.

Context {host : Host}.

(** X12.  What the CSV parser makes of a text.  With its input wired to
    a text whose trimmed form has a header line and at least one more
    line, the header names being distinct and none of them [__proto__],
    [processCsvNode] returns and publishes one row for each line after
    the header, in their order; the row of a line files under header
    number [j] the trimmed field number [j] of the line, [undefined]
    when the line has no such field, and has no property besides the
    headers (fields beyond the last header are dropped). *)
Theorem processCsvNode_rows_of_lines (ed : Editor) (nd : NodeData)
  (conn : Connection) (text header line : string) (more : list string) :
  find_input ed nd "csv_in" = Some conn ->
  source_output ed conn = Ok (VStr text) ->
  split newline (trim text) = header :: line :: more ->
  NoDup (map trim (split "," header)) ->
  ~ In "__proto__" (map trim (split "," header)) ->
  snd (processCsvNode ed nd) = Returned
  /\ exists rows,
       assoc "data_out" (outputs (fst (processCsvNode ed nd))) = Some (VArr rows)
       /\ List.length rows = S (List.length more)
       /\ forall i l,
            nth_error (line :: more) i = Some l ->
            exists props,
              nth_error rows i = Some (VObj props)
              /\ (forall j h,
                    nth_error (map trim (split "," header)) j = Some h ->
                    assoc h props = Some (csv_field l j))
              /\ (forall k, ~ In k (map trim (split "," header)) ->
                            assoc k props = None).
Proof.
  intros Hin Hsrc Hlines Hdup Hproto.
  unfold processCsvNode. rewrite Hin, Hsrc.
  assert (Hor : or_else (VStr text) (VStr "") = VStr text).
  { unfold or_else. simpl. destruct (String.eqb text "") eqn:E; [|reflexivity].
    apply String.eqb_eq in E. now subst. }
  rewrite Hor, Hlines. split; [reflexivity|].
  eexists. split; [apply assoc_set_prop_same|].
  split; [now rewrite length_map|].
  intros i l Hl. eexists. split.
  - rewrite nth_error_map, Hl. reflexivity.
  - split.
    + intros j h Hj. unfold csv_field.
      now rewrite (csv_row_field _ 0 _ [] j h Hdup Hproto Hj).
    + intros k Hk. now rewrite csv_row_other.
Qed.

(** X13.  The CSV parser has no guard on its input.  When the value it
    is wired to is truthy and not a text (the rows of another parser, a
    parsed JSON object, a number), [processCsvNode] throws the TypeError
    of [csvText.trim], and [processNodeData] on a CSV node so wired ends
    with that exception at once: the node keeps its data and the nodes
    wired after it are not visited. *)
Theorem processCsvNode_throws_on_non_text (fuel : nat) (ed : Editor)
  (id : string) (nd : NodeData) (conn : Connection) (v : value) :
  nodes_get ed id = Some nd ->
  ntype nd = "csv" ->
  find_input ed nd "csv_in" = Some conn ->
  source_output ed conn = Ok v ->
  truthy v = true ->
  (forall s, v <> VStr s) ->
  processCsvNode ed nd = (nd, Thrown "csvText.trim is not a function")
  /\ snd (processNodeData (S fuel) id ed)
     = Throw "csvText.trim is not a function"
  /\ nodes (fst (processNodeData (S fuel) id ed)) = nodes ed
  /\ visited (S fuel) id ed = [id].
Proof.
  intros Hget Htype Hin Hsrc Htruthy Hnot.
  assert (Hp : processCsvNode ed nd
               = (nd, Thrown "csvText.trim is not a function")).
  { unfold processCsvNode. rewrite Hin, Hsrc. unfold or_else. rewrite Htruthy.
    destruct v; try reflexivity. exfalso. now apply (Hnot s). }
  assert (Hnodes : replace_prop id nd (nodes ed) = nodes ed).
  { unfold nodes_get in Hget. clear - Hget.
    induction (nodes ed) as [|[k a] r IH]; [reflexivity|]. simpl in *.
    destruct (String.eqb id k); [now injection Hget as ->|].
    now rewrite IH. }
  assert (Hrun : run_processor ed id nd
                 = (ed, Throw "csvText.trim is not a function")).
  { unfold run_processor. rewrite Htype.
    change (nodeProcessors "csv") with (Own processCsvNode).
    cbv iota beta. rewrite Hp, Hnodes. now destruct ed. }
  split; [exact Hp|]. simpl. rewrite Hget, Hrun. auto.
Qed.

End Csv.

(** *** The aggregate processor *)













Section Aggregate.

Context {host : Host}.


End Aggregate.

(** ** Wiring and unwiring *)



Section Unwire.

Context {host : Host}.



End Unwire.

(** ** Recording *)

Lemma Qeq_bool_refl (q : Q) : Qeq_bool q q = true.
Proof. apply Qeq_bool_iff. reflexivity. Qed.

Lemma num_eqb_refl (n : number) : num_eqb n n = true.
Proof. destruct n as [|[|]|q]; try reflexivity. apply Qeq_bool_refl. Qed.

Lemma value_nested_ind (P : value -> Prop) :
  P VUndefined -> P VNull ->
  (forall b, P (VBool b)) -> (forall n, P (VNum n)) -> (forall s, P (VStr s)) ->
  (forall l, Forall P l -> P (VArr l)) ->
  (forall props, Forall (fun kv => P (snd kv)) props -> P (VObj props)) ->
  (forall name, P (VBuiltin name)) ->
  forall v, P v.
Proof.
  intros HU HN HB HNum HS HA HO HBu. fix rec 1.
  intros [ | | b | n | s | l | props | name];
    [exact HU|exact HN|apply HB|apply HNum|apply HS| | |apply HBu].
  - apply HA. induction l as [|x r IH]; constructor; [apply rec|exact IH].
  - apply HO. induction props as [|[k x] r IH]; constructor; [apply rec|exact IH].
Qed.

Lemma value_eqb_refl (v : value) : value_eqb v v = true.
Proof.
  induction v as [ | | b | n | s | l IH | props IH | name] using value_nested_ind;
    try reflexivity; try apply Bool.eqb_reflx; try apply num_eqb_refl;
    try apply String.eqb_refl.
  - simpl. induction IH as [|x r Hx _ IHr]; [reflexivity|].
    now rewrite Hx, IHr.
  - simpl. induction IH as [|[k x] r Hx _ IHr]; [reflexivity|].
    simpl in Hx. now rewrite String.eqb_refl, Hx, IHr.
Qed.

Lemma option_eqb_refl {A : Type} (eqb : A -> A -> bool) (a : option A) :
  (forall x, eqb x x = true) -> option_eqb eqb a a = true.
Proof. intros H. destruct a; simpl; auto. Qed.

Lemma list_eqb_refl {A : Type} (eqb : A -> A -> bool) (l : list A) :
  (forall x, eqb x x = true) -> list_eqb eqb l l = true.
Proof. intros H. induction l; simpl; [reflexivity|]. now rewrite H, IHl. Qed.

Lemma doc_eqb_refl (d : SessionDoc) : doc_eqb d d = true.
Proof.
  assert (Hcontent : forall c, content_eqb c c = true).
  { intros [k [s|b]]; unfold content_eqb; simpl; rewrite String.eqb_refl;
      [apply String.eqb_refl|apply Bool.eqb_reflx]. }
  assert (Hnode : forall n, nodeState_eqb n n = true).
  { intros n. unfold nodeState_eqb.
    rewrite !(option_eqb_refl String.eqb) by apply String.eqb_refl.
    rewrite String.eqb_refl, !Z.eqb_refl.
    rewrite (list_eqb_refl content_eqb) by exact Hcontent.
    rewrite !(option_eqb_refl value_eqb) by apply value_eqb_refl.
    rewrite (option_eqb_refl (list_eqb String.eqb))
      by (intros l; apply list_eqb_refl, String.eqb_refl).
    reflexivity. }
  assert (Hconn : forall c, connection_eqb c c = true).
  { intros c. unfold connection_eqb, endpoint_eqb.
    now rewrite !String.eqb_refl. }
  unfold doc_eqb.
  rewrite (option_eqb_refl (list_eqb nodeState_eqb))
    by (intros l; now apply list_eqb_refl).
  rewrite (option_eqb_refl (list_eqb connection_eqb))
    by (intros l; now apply list_eqb_refl).
  rewrite (option_eqb_refl offset_eqb)
    by (intros o; unfold offset_eqb;
        now rewrite !(option_eqb_refl num_eqb) by apply num_eqb_refl).
  rewrite (option_eqb_refl num_eqb) by apply num_eqb_refl.
  rewrite (option_eqb_refl Z.eqb) by apply Z.eqb_refl.
  reflexivity.
Qed.

Lemma serialize_recordState (ed : Editor) :
  serialize (recordState ed) = serialize ed.
Proof. rewrite recordState_graph. reflexivity. Qed.

(** X18.  Recording is idempotent: a state recorded twice in a row is
    on the undo stack once.  [recordState] compares the snapshot with
    the top of the undo stack, so a second call right after the first
    changes nothing, neither the stacks nor the graph, whatever the
    editor and the size of its history. *)
Theorem recordState_idempotent (ed : Editor) :
  recordState (recordState ed) = recordState ed.
Proof.
  unfold recordState at 1. rewrite serialize_recordState.
  destruct (recordState_maxHistory ed) as [Hmax Hres].
  rewrite Hres.
  destruct (isRestoring (history ed)) eqn:Hr; [reflexivity|].
  unfold recordState. rewrite Hr.
  assert (Hpushed :
    match
      last (map Some (undoStack (push_undo (serialize ed) (history ed)))) None
    with
    | Some top =>
        if doc_eqb top (serialize ed)
        then set_history (push_undo (serialize ed) (history ed)) ed
        else set_history
               (push_undo (serialize ed)
                  (history (set_history (push_undo (serialize ed) (history ed)) ed)))
               (set_history (push_undo (serialize ed) (history ed)) ed)
    | None =>
        set_history
          (push_undo (serialize ed)
             (history (set_history (push_undo (serialize ed) (history ed)) ed)))
          (set_history (push_undo (serialize ed) (history ed)) ed)
    end = set_history (push_undo (serialize ed) (history ed)) ed).
  { unfold push_undo at 1. cbn [undoStack].
    destruct (maxHistory (history ed)
              <? List.length (undoStack (history ed) ++ [serialize ed])) eqn:E.
    - destruct (undoStack (history ed)) as [|x r] eqn:Es.
      + (* the history keeps no entry at all *)
        cbn [app tl map last]. cbn [app List.length] in E.
        unfold push_undo. cbn [history set_history undoStack maxHistory isRestoring].
        rewrite Es. cbn [app List.length tl]. rewrite E.
        cbn [app List.length tl]. rewrite E. reflexivity.
      + rewrite last_map_Some_tl by discriminate.
        now rewrite doc_eqb_refl.
    - rewrite last_map_Some_app. now rewrite doc_eqb_refl. }
  destruct (last (map Some (undoStack (history ed))) None) as [top|] eqn:Et.
  - destruct (doc_eqb top (serialize ed)) eqn:Ed.
    + now rewrite Et, Ed.
    + exact Hpushed.
  - exact Hpushed.
Qed.

Section Loading.

Context {host : Host}.

(** X19.  Loading a session file starts the history afresh.  Whatever
    the file holds and however the evaluation of the loaded graph ends,
    be it with an exception or in a recursion without end, as long as
    the load does not go astray: the undo stack holds one snapshot, that
    of the editor as the load leaves it, and the redo stack is empty, so
    that [undo] and [redo] right after a load change nothing.  This is
    so even for a text that does not parse: the graph stays as it was
    and an alert is shown, and the history that was there is gone all
    the same. *)
Theorem loadSession_resets_history (fuel fuel' : nat) (content : JSONText)
  (ed : Editor) :
  snd (loadSession fuel content ed) <> Astray ->
  snd (loadSession fuel content ed) = Normal
  /\ undoStack (history (fst (loadSession fuel content ed)))
     = [serialize (fst (loadSession fuel content ed))]
  /\ redoStack (history (fst (loadSession fuel content ed))) = []
  /\ undo fuel' (fst (loadSession fuel content ed))
     = (fst (loadSession fuel content ed), Normal)
  /\ redo fuel' (fst (loadSession fuel content ed))
     = (fst (loadSession fuel content ed), Normal)
  /\ (forall message,
        content = Malformed message ->
        nodes (fst (loadSession fuel content ed)) = nodes ed
        /\ connections (fst (loadSession fuel content ed)) = connections ed
        /\ alerts (fst (loadSession fuel content ed)) = alerts ed ++ [loadError]).
Proof.
  assert (Hcases : snd (deserialize fuel content ed) = Normal
                   \/ snd (deserialize fuel content ed) = Astray).
  { unfold deserialize. destruct content as [m| |doc]; simpl; auto.
    destruct (load_document fuel doc (set_isRestoring true ed)) as [e [| | |]];
      simpl; auto. }
  unfold loadSession.
  destruct (deserialize fuel content ed) as [e c] eqn:Hd. simpl in Hcases.
  destruct Hcases as [->| ->]; [|intros H; now elim H].
  intros _. cbn [fst snd].
  split; [reflexivity|]. split; [reflexivity|]. split; [reflexivity|].
  split; [reflexivity|]. split; [reflexivity|].
  intros message ->. unfold deserialize in Hd. cbn in Hd.
  injection Hd as <-. repeat split.
Qed.

End Loading.

(** ** The parameters of a node across a snapshot *)

Lemma quiet_not_external (type : string) :
  quiet type = true -> existsb (String.eqb type) externalTypes = false.
Proof.
  intros Hq. apply existsb_exists in Hq as (s & Hin & Hs).
  apply String.eqb_eq in Hs. subst s.
  simpl in Hin.
  repeat match goal with
         | H : _ \/ _ |- _ => destruct H as [H|H]
         end; try contradiction; subst; reflexivity.
Qed.

Section Params.

Context {host : Host}.

Ltac controls_tac :=
  unfold catch_evaluation, set_status, write_textarea, and_then; cbv zeta;
  break_match; reflexivity.

Lemma processor_controls (p : Processor) (ed : Editor) (nd : NodeData) :
  quiet (ntype nd) = true ->
  nodeProcessors (ntype nd) = Own p ->
  controls (fst (p ed nd)) = controls nd.
Proof.
  intros Hq. unfold nodeProcessors.
  rewrite (quiet_not_external _ Hq).
  apply existsb_exists in Hq as (s & Hin & Hs).
  apply String.eqb_eq in Hs. rewrite Hs. clear Hs.
  simpl in Hin.
  repeat match goal with
         | H : _ \/ _ |- _ => destruct H as [H|H]
         end; try contradiction; subst s; simpl;
  try discriminate; intros H; injection H as <-.
  - unfold processImportNode. controls_tac.
  - unfold processCsvNode. controls_tac.
  - unfold processJsonNode, and_then. controls_tac.
  - unfold processXmlNode, and_then. controls_tac.
  - unfold processSplitNode, and_then. controls_tac.
  - unfold processFilterNode. controls_tac.
  - unfold processTransformNode. controls_tac.
  - unfold processMergeNode. controls_tac.
  - unfold processAggregateNode. controls_tac.
Qed.

Lemma processor_params_part (p : Processor) (ed : Editor) (nd : NodeData) :
  nodeProcessors (ntype nd) = Own p ->
  params_part (fst (p ed nd)) = params_part nd.
Proof.
  intros Hp.
  assert (Hn : ntype (fst (p ed nd)) = ntype nd).
  { change (ntype (fixed_part (fst (p ed nd))) = ntype (fixed_part nd)).
    now rewrite (processor_fixed_part (ntype nd) p ed nd Hp). }
  unfold params_part. rewrite Hn.
  destruct (quiet (ntype nd)) eqn:Hq; [|reflexivity].
  now rewrite (processor_controls p ed nd Hq Hp).
Qed.

End Params.

Lemma params_replace_prop (id : string) (nd nd' : NodeData)
  (l : list (string * NodeData)) :
  assoc id l = Some nd ->
  params_part nd' = params_part nd ->
  map (fun e => (fst e, params_part (snd e))) (replace_prop id nd' l)
  = map (fun e => (fst e, params_part (snd e))) l.
Proof.
  intros Hget Hfix. induction l as [|[k a] r IH]; [reflexivity|].
  simpl in *. destruct (String.eqb id k).
  - injection Hget as ->. simpl. now rewrite Hfix.
  - simpl. now rewrite IH.
Qed.

Lemma params_of_get (a b : Editor) (id : string) (nd : NodeData) :
  params_of b = params_of a ->
  nodes_get a id = Some nd ->
  exists nd', nodes_get b id = Some nd' /\ params_part nd' = params_part nd.
Proof.
  unfold params_of, nodes_get.
  generalize (nodes a) (nodes b). clear a b.
  induction l as [|[k x] r IH]; intros [|[k' y] r'] Heq Hget; try discriminate.
  simpl in *. injection Heq as Hk Hty Hcs Hr. subst k'.
  destruct (String.eqb id k).
  - injection Hget as <-. exists y. split; [reflexivity|].
    unfold params_part. now rewrite Hcs, Hty.
  - apply IH; [exact Hr|exact Hget].
Qed.

Section ParamsEngine.

Context {host : Host}.

Lemma run_processor_params (ed : Editor) (id : string) (nd : NodeData) :
  nodes_get ed id = Some nd ->
  params_of (fst (run_processor ed id nd)) = params_of ed.
Proof.
  intros Hget. unfold run_processor.
  destruct (nodeProcessors (ntype nd)) as [p|name|] eqn:Hp; try reflexivity.
  pose proof (processor_params_part p ed nd Hp) as Hfix.
  destruct (p ed nd) as [nd' o]. simpl in *.
  unfold params_of. simpl. now apply params_replace_prop with (nd := nd).
Qed.

(** A propagation leaves the controls of the quiet nodes alone. *)
Lemma processNodeData_params (fuel : nat) :
  forall (id : string) (ed : Editor),
    params_of (fst (processNodeData fuel id ed)) = params_of ed.
Proof.
  induction fuel as [|f IH]; intros id ed; [reflexivity|].
  simpl. destruct (nodes_get ed id) as [nd|] eqn:Hget; [|reflexivity].
  pose proof (run_processor_params ed id nd Hget) as Hrun.
  destruct (run_processor ed id nd) as [ed1 [| | |]]; simpl in Hrun; try exact Hrun.
  rewrite <- Hrun.
  apply (forEach_invariant (fun a b => params_of b = params_of a)).
  - reflexivity.
  - intros a b c Hab Hbc. now rewrite Hbc.
  - intros c e _. destruct (String.eqb (ep_node (c_from c)) id); [apply IH|reflexivity].
Qed.

End ParamsEngine.

(** The template of a quiet type, filled in with the values that its own
    controls serialize to, gives the same controls again. *)
Lemma coreTemplate_again (type : string) (o o' : Options) :
  quiet type = true ->
  o_content o' = serialize_content (fst (coreTemplate type o)) [] ->
  fst (coreTemplate type o') = fst (coreTemplate type o).
Proof.
  intros Hq. apply existsb_exists in Hq as (s & Hin & Hs).
  apply String.eqb_eq in Hs. subst s. simpl in Hin.
  repeat match goal with
         | H : _ \/ _ |- _ => destruct H as [H|H]
         end; try contradiction; subst type;
  unfold coreTemplate; cbn [String.eqb Ascii.eqb Bool.eqb fst];
  try reflexivity.
  - (* import *)
    generalize (first_nonempty (option_text o "data_out") (option_text o "text")).
    intros v Hc. unfold option_text. rewrite Hc. simpl. unfold first_nonempty.
    destruct (String.eqb v "") eqn:E; [|reflexivity].
    apply String.eqb_eq in E. now subst v.
  - (* json *)
    intros Hc. unfold option_is at 1. rewrite Hc.
    destruct (option_is o "operation" "stringify"); reflexivity.
  - (* filter *)
    intros Hc. unfold option_text at 1. now rewrite Hc.
  - (* transform *)
    assert (Hv : String.eqb (first_nonempty (option_text o "logic") defaultLogic) ""
                 = false).
    { unfold first_nonempty.
      destruct (String.eqb (option_text o "logic") "") eqn:E; [reflexivity|exact E]. }
    revert Hv.
    generalize (first_nonempty (option_text o "logic") defaultLogic).
    intros v Hv Hc. unfold option_text. rewrite Hc. simpl. unfold first_nonempty.
    now rewrite Hv.
  - (* merge *)
    intros Hc. unfold option_text at 1. now rewrite Hc.
  - (* aggregate *)
    intros Hc. unfold option_text at 1 2, option_is at 1 2. rewrite Hc.
    destruct (option_is o "aggFunc" "count"); [reflexivity|].
    destruct (option_is o "aggFunc" "avg"); reflexivity.
Qed.

Lemma assoc_map_entry {A B : Type} (f : string * A -> B) (id : string) (a : A)
  (l : list (string * A)) :
  assoc id l = Some a ->
  assoc id (map (fun x => (fst x, f x)) l) = Some (f (id, a)).
Proof.
  induction l as [|[k x] r IH]; [discriminate|].
  simpl. destruct (String.eqb id k) eqn:E; [|exact IH].
  apply String.eqb_eq in E. subst k. now intros [= ->].
Qed.

Section ParamsRoundTrip.

Context {host : Host}.

Lemma recreate_controls (id : string) (nd : NodeData) (o : Options) :
  quiet (ntype nd) = true ->
  controls nd = fst (coreTemplate (ntype nd) o) ->
  params_part (recreate (id, nd)) = params_part nd.
Proof.
  intros Hq Hc. unfold params_part, recreate. cbn [fst snd ntype controls].
  rewrite Hq. f_equal.
  assert (Hcore : nodeCreators (ntype nd) = Own (coreTemplate (ntype nd))).
  { unfold nodeCreators.
    replace (existsb (String.eqb (ntype nd)) coreTypes) with true; [reflexivity|].
    symmetry. apply existsb_exists in Hq as (s & Hin & Hs).
    apply existsb_exists. exists s. split; [|exact Hs].
    simpl in Hin. simpl. tauto. }
  rewrite Hcore, Hc. apply coreTemplate_again; [exact Hq|].
  cbn [options_of serialize_node o_content ns_content]. now rewrite Hc.
Qed.

(** X20.  The parameters of a node survive a snapshot, when they are
    plain.  In an editor whose table of nodes is well formed, whose node
    types all have templates and whose control values, sizes and counter
    are plain (the values free of the characters to which the HTML
    parser gives a meaning: ampersand, left angle bracket, double quote,
    carriage return, null, a line feed in front, and in an input field
    any line feed), take a node of a type other than text and export,
    among the core types, whose controls hold values that its template
    can give them (a text for a condition, a key or a column name; a
    function among the options of its select box; a transformation
    logic that is not empty).  Loading the snapshot of the editor, over
    any editor, in a run that does not go astray and however the
    propagation that follows the load ends, gives under the same id a
    node of the same type with the same controls. *)
Theorem deserialize_serialize_parameters (fuel : nat) (ed ed0 : Editor)
  (id : string) (nd : NodeData) (o : Options) :
  table_invariant ed ->
  all_templates ed ->
  plain_snapshot ed ->
  snd (deserialize fuel (Document (serialize ed)) ed0) <> Astray ->
  nodes_get ed id = Some nd ->
  quiet (ntype nd) = true ->
  controls nd = fst (coreTemplate (ntype nd) o) ->
  exists nd',
    nodes_get (fst (deserialize fuel (Document (serialize ed)) ed0)) id = Some nd'
    /\ ntype nd' = ntype nd
    /\ controls nd' = controls nd.
Proof.
  intros Hinv Htpl Hplain _ Hget Hq Hc.
  destruct (load_document_builds fuel ed (set_isRestoring true ed0) Hinv Htpl
              Hplain) as (start & Hn & _ & _ & _ & _ & Hload).
  destruct (deserialize_graph fuel (serialize ed) ed0) as (D1 & _).
  unfold nodes_get. rewrite D1, Hload.
  assert (Hstart : nodes_get start id = Some (recreate (id, nd))).
  { unfold nodes_get. rewrite Hn. now apply assoc_map_entry. }
  assert (Hpar :
    params_of (fst (forEach (nodes start)
                      (fun entry => processNodeData fuel (el_id (snd entry)))
                      start))
    = params_of start).
  { apply (forEach_invariant (fun a b => params_of b = params_of a)).
    - reflexivity.
    - intros a b c Hab Hbc. now rewrite Hbc.
    - intros entry e _. apply processNodeData_params. }
  destruct (params_of_get _ _ id _ Hpar Hstart) as (nd' & Hget' & Hpp).
  exists nd'. split; [exact Hget'|].
  rewrite (recreate_controls id nd o Hq Hc) in Hpp.
  unfold params_part in Hpp. injection Hpp as Hty Hcs.
  split; [exact Hty|]. now rewrite Hty, Hq in Hcs.
Qed.

End ParamsRoundTrip.

(** ** The state that a propagation reaches *)

Lemma reachable_target (ed : Editor) (a b : string) :
  reachable ed a b -> has_node ed b = true.
Proof.
  induction 1 as [a H|a b c _ _ IH]; [exact H|exact IH].
Qed.

Lemma reachable_snoc (ed : Editor) (a b c : string) :
  reachable ed a b -> edge ed b c -> reachable ed a c.
Proof.
  induction 1 as [a H|a x b He _ IH]; intros Hbc.
  - apply reach_next with c; [exact Hbc|].
    apply reach_here. now destruct Hbc as (_ & Hc & _).
  - apply reach_next with x; [exact He|now apply IH].
Qed.

Section Visits.

Context {host : Host}.

Lemma trace_each_reachable (ed : Editor) (f : nat) (a : string) :
  (forall b cur n, only_nodes ed cur ->
     In n (visited f b cur) -> reachable ed b n) ->
  has_node ed a = true ->
  forall (cs : list Connection) (e : Editor),
    only_nodes ed e ->
    (forall c, In c cs -> In c (connections ed)) ->
    forall n, In n (trace_each (visited f) (processNodeData f) a cs e) ->
              reachable ed a n.
Proof.
  intros IH Ha. induction cs as [|c r IHr]; intros e He Hsub n Hin;
    [contradiction|].
  simpl in Hin. destruct (String.eqb (ep_node (c_from c)) a) eqn:E.
  - apply String.eqb_eq in E. apply in_app_or in Hin as [Hin|Hin].
    + pose proof (IH _ _ _ He Hin) as Hr.
      apply reach_next with (ep_node (c_to c)); [|exact Hr].
      split; [exact Ha|]. split; [now apply reachable_has_node with n|].
      exists c. split; [apply Hsub; now left|now split].
    + pose proof (processNodeData_only_nodes f (ep_node (c_to c)) e) as Hon.
      destruct (processNodeData f (ep_node (c_to c)) e) as [e' [| | |]];
        try contradiction.
      apply (IHr e'); [|intros x Hx; apply Hsub; now right|exact Hin].
      eapply only_nodes_trans; [exact He|exact Hon].
  - apply (IHr e); [exact He|intros x Hx; apply Hsub; now right|exact Hin].
Qed.

(** A propagation runs on no node that cannot be reached. *)
Lemma visited_reachable (ed : Editor) :
  forall (f : nat) (a : string) (cur : Editor) (n : string),
    only_nodes ed cur ->
    In n (visited f a cur) -> reachable ed a n.
Proof.
  induction f as [|f IH]; intros a cur n Hon Hin; [contradiction|].
  simpl in Hin. destruct (nodes_get cur a) as [nd|] eqn:Hget; [|contradiction].
  assert (Ha : has_node ed a = true).
  { rewrite <- (only_nodes_has_node _ _ a Hon). unfold has_node, has_key.
    unfold nodes_get in Hget. now rewrite Hget. }
  destruct Hin as [<-|Hin]; [now apply reach_here|].
  pose proof (run_processor_only_nodes cur a nd) as Hon1.
  destruct (run_processor cur a nd) as [ed1 [| | |]]; try contradiction.
  assert (Hon' : only_nodes ed ed1) by (eapply only_nodes_trans; eassumption).
  apply (trace_each_reachable ed f a IH Ha (connections ed1) ed1 Hon');
    [|exact Hin].
  intros c Hc. now rewrite <- (only_nodes_connections _ _ Hon').
Qed.

Lemma last_run_transfer (ed e1 e2 : Editor) (n : string) :
  last_run ed e1 n ->
  nodes_get e2 n = nodes_get e1 n ->
  (forall s, wired_into ed s n -> nodes_get e2 s = nodes_get e1 s) ->
  last_run ed e2 n.
Proof.
  intros (e & nd & Hon & Hget & Hnorm & Hfin & Hsrc) Hn Hs.
  exists e, nd. split; [exact Hon|]. split; [exact Hget|].
  split; [exact Hnorm|]. split; [now rewrite Hn|].
  intros s Hw. rewrite (Hs s Hw). now apply Hsrc.
Qed.

Lemma last_run_has_node (ed final : Editor) (n : string) :
  last_run ed final n -> has_node ed n = true.
Proof.
  intros (e & nd & Hon & Hget & _).
  rewrite <- (only_nodes_has_node _ _ n Hon). unfold has_node, has_key.
  unfold nodes_get in Hget. now rewrite Hget.
Qed.

(** One call of the loop of [processNodeData]: the nodes that were up to
    date stay so, or are brought up to date again. *)
Lemma processNodeData_keeps_last_run (ed : Editor) (f : nat) (b : string)
  (e : Editor) :
  (forall n, reachable ed b n -> last_run ed (fst (processNodeData f b e)) n) ->
  only_nodes ed e ->
  snd (processNodeData f b e) = Normal ->
  forall n, last_run ed e n -> last_run ed (fst (processNodeData f b e)) n.
Proof.
  intros IH He Hnorm n Hlast.
  destruct (in_dec string_dec n (visited f b e)) as [Hin|Hout].
  - apply IH. now apply (visited_reachable ed f b e).
  - assert (Hnot : ~ reachable ed b n).
    { intros Hr. apply Hout. now apply (processNodeData_visits ed f b e). }
    apply (last_run_transfer ed e).
    + exact Hlast.
    + now apply (processNodeData_local ed).
    + intros s (c & Hc & Hfrom & Hto). apply (processNodeData_local ed); [exact He|].
      intros Hr. apply Hnot. apply reachable_snoc with s; [exact Hr|].
      split; [now apply reachable_target with b|].
      split; [now apply last_run_has_node with e|].
      exists c. now split.
Qed.

Lemma forEach_last_run (ed : Editor) (f : nat) (a : string) :
  (forall b cur, only_nodes ed cur ->
     snd (processNodeData f b cur) = Normal ->
     forall n, reachable ed b n ->
               last_run ed (fst (processNodeData f b cur)) n) ->
  forall (cs : list Connection) (e : Editor),
    only_nodes ed e ->
    snd (forEach cs
           (fun c ed' =>
              if String.eqb (ep_node (c_from c)) a
              then processNodeData f (ep_node (c_to c)) ed'
              else (ed', Normal)) e) = Normal ->
    forall n,
      last_run ed e n
      \/ (exists c, In c cs /\ ep_node (c_from c) = a
                    /\ reachable ed (ep_node (c_to c)) n) ->
      last_run ed
        (fst (forEach cs
                (fun c ed' =>
                   if String.eqb (ep_node (c_from c)) a
                   then processNodeData f (ep_node (c_to c)) ed'
                   else (ed', Normal)) e)) n.
Proof.
  intros IH. induction cs as [|c r IHr]; intros e He Hnorm n Hn.
  - simpl. destruct Hn as [H|(c & [] & _)]. exact H.
  - simpl in *. destruct (String.eqb (ep_node (c_from c)) a) eqn:E.
    + pose proof (processNodeData_only_nodes f (ep_node (c_to c)) e) as Hon.
      pose proof (IH (ep_node (c_to c)) e He) as IHc.
      pose proof (processNodeData_keeps_last_run ed f (ep_node (c_to c)) e)
        as Hkeep.
      destruct (processNodeData f (ep_node (c_to c)) e) as [e1 [| | |]];
        simpl in *; try discriminate.
      specialize (IHc eq_refl). specialize (Hkeep IHc He eq_refl).
      apply IHr; [eapply only_nodes_trans; eassumption|exact Hnorm|].
      destruct Hn as [H|(c' & [<-|Hin] & Hfrom & Hr)].
      * left. now apply Hkeep.
      * left. now apply IHc.
      * right. now exists c'.
    + apply IHr; [exact He|exact Hnorm|].
      destruct Hn as [H|(c' & [<-|Hin] & Hfrom & Hr)].
      * now left.
      * apply String.eqb_neq in E. contradiction.
      * right. now exists c'.
Qed.

(** A propagation that completes leaves every node it could reach up to
    date with the nodes wired into it. *)
Lemma processNodeData_last_run (ed : Editor) :
  forall (f : nat) (a : string) (cur : Editor),
    only_nodes ed cur ->
    snd (processNodeData f a cur) = Normal ->
    forall n, reachable ed a n ->
              last_run ed (fst (processNodeData f a cur)) n.
Proof.
  induction f as [|f IH]; intros a cur Hon Hnorm n Hreach; [discriminate|].
  assert (Hself : ~ wired_into ed a a).
  { intros (c & Hc & Hfrom & Hto).
    apply (processNodeData_on_cycle ed (S f) a cur Hon); [|exact Hnorm].
    assert (He : edge ed a a).
    { split; [now apply reachable_has_node with n|].
      split; [now apply reachable_has_node with n|]. now exists c. }
    exists a. split; [apply reach_here; now destruct He|now apply path_one]. }
  simpl in *.
  assert (Ha : has_node cur a = true).
  { rewrite (only_nodes_has_node _ _ a Hon). now apply reachable_has_node with n. }
  destruct (has_node_get cur a Ha) as [nd Hget]. rewrite Hget in *.
  pose proof (run_processor_only_nodes cur a nd) as Hon1.
  pose proof (run_processor_get_other cur a) as Hother.
  assert (Hroot : forall ed1, fst (run_processor cur a nd) = ed1 ->
                              snd (run_processor cur a nd) = Normal ->
                              last_run ed ed1 a).
  { intros ed1 H1 H2. exists cur, nd. split; [exact Hon|]. split; [exact Hget|].
    split; [exact H2|]. split; [now rewrite H1|].
    intros s Hw. rewrite <- H1. symmetry. apply Hother.
    apply String.eqb_neq. intros ->. now apply Hself. }
  destruct (run_processor cur a nd) as [ed1 [| | |]]; simpl in *; try discriminate.
  assert (Hon' : only_nodes ed ed1) by (eapply only_nodes_trans; eassumption).
  apply (forEach_last_run ed f a IH (connections ed1) ed1 Hon' Hnorm).
  inversion Hreach as [x Hx|x b y He Hby]; subst.
  - left. now apply Hroot.
  - right. destruct He as (_ & _ & c & Hc & Hfrom & Hto). exists c.
    rewrite (only_nodes_connections _ _ Hon'). subst b. now split.
Qed.

End Visits.

(** ** What a processor reads of the graph *)

Lemma find_input_same (e e' : Editor) (nd : NodeData) (sock : string) :
  same_inputs e e' nd -> find_input e nd sock = find_input e' nd sock.
Proof. intros [Hc _]. unfold find_input. now rewrite Hc. Qed.

Lemma source_output_same (e e' : Editor) (nd : NodeData) (sock : string)
  (c : Connection) :
  same_inputs e e' nd ->
  find_input e' nd sock = Some c ->
  source_output e c = source_output e' c.
Proof.
  intros [_ Hs] Hf. unfold find_input in Hf. apply find_some in Hf as [Hin Ht].
  unfold targets in Ht. apply andb_prop in Ht as [Ht _].
  apply String.eqb_eq in Ht. unfold source_output. now rewrite (Hs c Hin Ht).
Qed.

Section Reads.

Context {host : Host}.

Lemma core_processor_cases (type : string) (p : Processor) :
  existsb (String.eqb type) externalTypes = false ->
  nodeProcessors type = Own p ->
  In p [ processTextNode; processImportNode; processExportNode;
         processCsvNode; processJsonNode; processXmlNode; processFilterNode;
         processTransformNode; processMergeNode; processSplitNode;
         processAggregateNode ].
Proof.
  intros Hext. unfold nodeProcessors. rewrite Hext. simpl assoc.
  repeat match goal with
         | |- context [String.eqb type ?s] => destruct (String.eqb type s)
         end;
  try (intros H; injection H as <-; simpl; tauto).
  destruct (inherited type); discriminate.
Qed.

Ltac reads_tac e e' nd Hs :=
  repeat match goal with
         | |- context [find_input e nd ?s] =>
             rewrite (find_input_same e e' nd s Hs);
             let E := fresh "E" in
             destruct (find_input e' nd s) eqn:E;
             [rewrite ?(source_output_same e e' nd s _ Hs E)|]
         end;
  reflexivity.

(** A processor of a core type reads nothing of the graph but the
    connections and the data of the nodes wired into its node. *)
Lemma core_processor_reads_inputs (type : string) (p : Processor)
  (e e' : Editor) (nd : NodeData) :
  existsb (String.eqb type) externalTypes = false ->
  nodeProcessors type = Own p ->
  same_inputs e e' nd ->
  p e nd = p e' nd.
Proof.
  intros Hext Hp Hs.
  pose proof (core_processor_cases type p Hext Hp) as Hin. simpl in Hin.
  repeat match goal with
         | H : _ \/ _ |- _ => destruct H as [H|H]
         end; try contradiction; subst p.
  - unfold processTextNode. reads_tac e e' nd Hs.
  - reflexivity.
  - unfold processExportNode. reads_tac e e' nd Hs.
  - unfold processCsvNode. reads_tac e e' nd Hs.
  - unfold processJsonNode. reads_tac e e' nd Hs.
  - reflexivity.
  - unfold processFilterNode. reads_tac e e' nd Hs.
  - unfold processTransformNode. reads_tac e e' nd Hs.
  - unfold processMergeNode. reads_tac e e' nd Hs.
  - reflexivity.
  - unfold processAggregateNode. reads_tac e e' nd Hs.
Qed.

End Reads.

(** ** Running a processor again *)

Lemma replace_prop_stable {A : Type} (k : string) (a : A) (l : list (string * A)) :
  assoc k l = Some a -> replace_prop k a l = l.
Proof.
  induction l as [|[j b] l IH]; simpl; [reflexivity|].
  destruct (String.eqb k j) eqn:E.
  - now intros [= ->].
  - intros H. now rewrite IH.
Qed.

Lemma set_prop_stable {A : Type} (k : string) (a : A) (l : list (string * A)) :
  assoc k l = Some a -> set_prop l k a = l.
Proof.
  intros H. unfold set_prop, has_key. rewrite H. now apply replace_prop_stable.
Qed.

Lemma set_prop_twice {A : Type} (k : string) (a : A) (l : list (string * A)) :
  set_prop (set_prop l k a) k a = set_prop l k a.
Proof. apply set_prop_stable. apply assoc_set_prop_same. Qed.

Lemma find_textarea_set_first (s : string) (cs : list Control) :
  find is_textarea (set_first is_textarea s cs)
  = option_map (set_cvalue s) (find is_textarea cs).
Proof.
  induction cs as [|c r IH]; [reflexivity|].
  simpl. destruct (is_textarea c) eqn:E; simpl.
  - unfold is_textarea in *. simpl. now rewrite E.
  - now rewrite E.
Qed.

Lemma set_first_textarea_twice (s : string) (cs : list Control) :
  set_first is_textarea s (set_first is_textarea s cs)
  = set_first is_textarea s cs.
Proof.
  induction cs as [|c r IH]; [reflexivity|].
  simpl. destruct (is_textarea c) eqn:E; simpl.
  - unfold is_textarea in *. simpl. now rewrite E.
  - now rewrite E, IH.
Qed.

Lemma writes_status_and_output_again (P : Processor) (ed : Editor)
  (nd : NodeData) :
  writes_status_and_output P ->
  snd (P ed nd) = Returned ->
  P ed (fst (P ed nd)) = P ed nd.
Proof.
  intros HP H. destruct (HP ed nd H) as (s & v & Hrun & Hall).
  rewrite Hrun. cbn [fst]. rewrite Hall; try reflexivity; try discriminate.
  unfold set_output. cbn [outputs set_status_text set_outputs].
  now rewrite set_prop_twice.
Qed.

Section Again.

Context {host : Host}.

Ltac split_step H :=
  match type of H with
  | context [match ?x with _ => _ end] =>
      lazymatch x with
      | context [match _ with _ => _ end] => fail
      | _ => let E := fresh "E" in destruct x eqn:E
      end
  end.

Ltac replay :=
  repeat (cbv beta iota;
          cbn [status set_outputs set_status_text outputs el_id controls
               set_output];
          try match goal with
              | H : ?x = _ |- context [?x] => progress rewrite H
              end).

Ltac uniform_tac H :=
  unfold catch_evaluation, error, set_status, and_then, find_input, querySelector in *;
  cbv zeta in *;
  cbn [fst snd status set_outputs set_status_text set_output] in H |- *;
  repeat (split_step H;
          cbn [fst snd status set_outputs set_status_text set_output] in H |- *;
          try match goal with
              | E : status _ = _ |- _ => rewrite ?E in H; rewrite ?E
              end;
          cbv beta iota in H;
          try discriminate H);
  eexists; eexists; (split; [reflexivity|]);
  let nd' := fresh "nd'" in
  let Hid := fresh "Hid" in
  let Hctl := fresh "Hctl" in
  let Hst := fresh "Hst" in
  intros nd' Hid Hctl Hst; rewrite ?Hid, ?Hctl;
  destruct (status nd') eqn:?; [|contradiction];
  replay; reflexivity.

Lemma processJsonNode_writes : writes_status_and_output processJsonNode.
Proof. intros ed nd H. unfold processJsonNode in *. uniform_tac H. Qed.

Lemma processXmlNode_writes : writes_status_and_output processXmlNode.
Proof. intros ed nd H. unfold processXmlNode in *. uniform_tac H. Qed.

Lemma processFilterNode_writes : writes_status_and_output processFilterNode.
Proof. intros ed nd H. unfold processFilterNode in *. uniform_tac H. Qed.

Lemma processTransformNode_writes :
  writes_status_and_output processTransformNode.
Proof. intros ed nd H. unfold processTransformNode in *. uniform_tac H. Qed.

Lemma processMergeNode_writes : writes_status_and_output processMergeNode.
Proof. intros ed nd H. unfold processMergeNode in *. uniform_tac H. Qed.

Lemma processAggregateNode_writes :
  writes_status_and_output processAggregateNode.
Proof. intros ed nd H. unfold processAggregateNode in *. uniform_tac H. Qed.

End Again.

Lemma set_prop_pair_twice {A : Type} (k1 k2 : string) (a1 a2 : A)
  (l : list (string * A)) :
  String.eqb k1 k2 = false ->
  set_prop (set_prop (set_prop (set_prop l k1 a1) k2 a2) k1 a1) k2 a2
  = set_prop (set_prop l k1 a1) k2 a2.
Proof.
  intros H.
  rewrite (set_prop_stable k1 a1 (set_prop (set_prop l k1 a1) k2 a2)).
  - apply set_prop_twice.
  - rewrite assoc_set_prop_other by exact H. apply assoc_set_prop_same.
Qed.

Section AgainDirect.

Context {host : Host}.

Ltac idem_step :=
  match goal with
  | |- context [match ?x with _ => _ end] =>
      lazymatch x with
      | context [match _ with _ => _ end] => fail
      | _ => let E := fresh "E" in destruct x eqn:E
      end
  | H : context [match ?x with _ => _ end] |- _ =>
      lazymatch x with
      | context [match _ with _ => _ end] => fail
      | _ => let E := fresh "E" in destruct x eqn:E
      end
  end.

Ltac idem_norm :=
  cbn [fst snd el_id controls status outputs ntype set_outputs
       set_status_text set_controls] in *;
  rewrite ?find_textarea_set_first;
  repeat match goal with
         | H : ?x = _ |- context [?x] => progress rewrite H
         end;
  cbn [option_map].

Ltac idem_tac :=
  unfold write_textarea in *;
  unfold set_status, and_then, find_input, querySelector, set_output,
    assign_value in *;
  cbv zeta in *;
  repeat (idem_norm; try discriminate; idem_step);
  idem_norm; try discriminate;
  rewrite ?set_prop_twice, ?set_first_textarea_twice; try reflexivity.

Lemma processTextNode_again (ed : Editor) (nd : NodeData) :
  snd (processTextNode ed nd) = Returned ->
  processTextNode ed (fst (processTextNode ed nd)) = processTextNode ed nd.
Proof. intros H. unfold processTextNode in *. idem_tac. Qed.

Lemma processImportNode_again (ed : Editor) (nd : NodeData) :
  snd (processImportNode ed nd) = Returned ->
  processImportNode ed (fst (processImportNode ed nd)) = processImportNode ed nd.
Proof. intros H. unfold processImportNode in *. idem_tac. Qed.

Lemma processExportNode_again (ed : Editor) (nd : NodeData) :
  snd (processExportNode ed nd) = Returned ->
  processExportNode ed (fst (processExportNode ed nd)) = processExportNode ed nd.
Proof. intros H. unfold processExportNode in *. idem_tac. Qed.

Lemma processCsvNode_again (ed : Editor) (nd : NodeData) :
  snd (processCsvNode ed nd) = Returned ->
  processCsvNode ed (fst (processCsvNode ed nd)) = processCsvNode ed nd.
Proof. intros H. unfold processCsvNode in *. idem_tac. Qed.

Lemma processSplitNode_again (ed : Editor) (nd : NodeData) :
  snd (processSplitNode ed nd) = Returned ->
  processSplitNode ed (fst (processSplitNode ed nd)) = processSplitNode ed nd.
Proof.
  intros H. unfold processSplitNode in *. idem_tac.
  now rewrite set_prop_pair_twice.
Qed.

(** A processor of a core type that has returned returns the same node
    when it runs again on what it left. *)
Lemma core_processor_again (p : Processor) (ed : Editor) (nd : NodeData) :
  In p [ processTextNode; processImportNode; processExportNode;
         processCsvNode; processJsonNode; processXmlNode; processFilterNode;
         processTransformNode; processMergeNode; processSplitNode;
         processAggregateNode ] ->
  snd (p ed nd) = Returned ->
  p ed (fst (p ed nd)) = p ed nd.
Proof.
  intros Hin. simpl in Hin.
  repeat match goal with
         | H : _ \/ _ |- _ => destruct H as [H|H]
         end; try contradiction; subst p.
  - apply processTextNode_again.
  - apply processImportNode_again.
  - apply processExportNode_again.
  - apply processCsvNode_again.
  - apply writes_status_and_output_again, processJsonNode_writes.
  - apply writes_status_and_output_again, processXmlNode_writes.
  - apply writes_status_and_output_again, processFilterNode_writes.
  - apply writes_status_and_output_again, processTransformNode_writes.
  - apply writes_status_and_output_again, processMergeNode_writes.
  - apply processSplitNode_again.
  - apply writes_status_and_output_again, processAggregateNode_writes.
Qed.

End AgainDirect.

Lemma assoc_map_eq {A B : Type} (g : A -> B) (id : string) (x : A) :
  forall la lb : list (string * A),
    map (fun e => (fst e, g (snd e))) lb = map (fun e => (fst e, g (snd e))) la ->
    assoc id la = Some x ->
    exists y, assoc id lb = Some y /\ g y = g x.
Proof.
  induction la as [|[k a] r IH]; intros [|[k' b] r'] Heq Hget; try discriminate.
  cbn [map fst snd assoc] in *. injection Heq as Hk Hg Hr. subst k'.
  destruct (String.eqb id k).
  - injection Hget as <-. exists b. split; [reflexivity|exact Hg].
  - apply IH; [exact Hr|exact Hget].
Qed.

Lemma layout_of_get (a b : Editor) (id : string) (nd : NodeData) :
  layout_of b = layout_of a ->
  nodes_get a id = Some nd ->
  exists nd', nodes_get b id = Some nd' /\ fixed_part nd' = fixed_part nd.
Proof. intros Hl Hget. now apply (assoc_map_eq fixed_part id nd (nodes a)). Qed.

Lemma ids_consistent_layout (a b : Editor) :
  layout_of b = layout_of a -> ids_consistent a -> ids_consistent b.
Proof.
  intros Hl Ha id nd Hget.
  destruct (layout_of_get b a id nd (eq_sym Hl) Hget) as (nd' & Hget' & Hfix).
  change (el_id (fixed_part nd) = id). rewrite <- Hfix.
  change (el_id nd' = id). now apply Ha.
Qed.

Section Settles.

Context {host : Host}.

(** X21.  A propagation that completes leaves the nodes it could reach
    settled.  In a graph whose nodes are filed under the ids of their
    elements, after [processNodeData] has returned normally from a node,
    running again the processor of any node that can be reached from it,
    and whose type is not one of the host's, changes nothing and returns:
    every such node holds what its processor makes of the data that the
    nodes wired into it hold at the end, also a node that the
    propagation ran on more than once.  (The functions made of the code
    in filter and transform nodes are functions of their row.) *)
Theorem processNodeData_settles (fuel : nat) (root n : string) (ed : Editor)
  (nd : NodeData) :
  ids_consistent ed ->
  snd (processNodeData fuel root ed) = Normal ->
  reachable ed root n ->
  nodes_get (fst (processNodeData fuel root ed)) n = Some nd ->
  existsb (String.eqb (ntype nd)) externalTypes = false ->
  run_processor (fst (processNodeData fuel root ed)) n nd
  = (fst (processNodeData fuel root ed), Normal).
Proof.
  intros Hids Hnorm Hreach Hget Hext.
  pose proof (processNodeData_only_nodes fuel root ed) as Hon.
  pose proof (ids_consistent_layout ed _ (processNodeData_layout fuel root ed) Hids)
    as Hids'.
  destruct (processNodeData_last_run ed fuel root ed (only_nodes_refl ed)
              Hnorm n Hreach) as (e & nd0 & Hone & Hget0 & Hnorm0 & Hfin & Hsrc).
  set (final := fst (processNodeData fuel root ed)) in *.
  assert (Hkey : has_key n (nodes e) = true).
  { unfold has_key. unfold nodes_get in Hget0. now rewrite Hget0. }
  unfold run_processor in *.
  destruct (nodeProcessors (ntype nd0)) as [p|name|] eqn:Hp.
  - pose proof (processor_fixed_part (ntype nd0) p e nd0 Hp) as Hfix.
    destruct (p e nd0) as [nd1 o] eqn:Hrun. cbn [fst snd] in *.
    destruct o; try discriminate.
    unfold nodes_get in Hfin at 2. cbn [nodes set_nodes] in Hfin.
    rewrite assoc_replace_prop_same in Hfin by exact Hkey.
    rewrite Hget in Hfin. injection Hfin as ->.
    assert (Hty : ntype nd1 = ntype nd0).
    { change (ntype (fixed_part nd1) = ntype (fixed_part nd0)). now rewrite Hfix. }
    rewrite Hty in *. rewrite Hp.
    assert (Hin : same_inputs final e nd1).
    { split.
      - rewrite (only_nodes_connections _ _ Hon).
        now rewrite (only_nodes_connections _ _ Hone).
      - intros c Hc Hto. symmetry. apply Hsrc. exists c.
        rewrite <- (only_nodes_connections _ _ Hone).
        split; [exact Hc|]. split; [reflexivity|].
        rewrite Hto. now apply Hids'. }
    rewrite (core_processor_reads_inputs (ntype nd0) p final e nd1 Hext Hp Hin).
    pose proof (core_processor_again p e nd0
                  (core_processor_cases (ntype nd0) p Hext Hp)) as Hagain.
    rewrite Hrun in Hagain. cbn [fst snd] in Hagain.
    rewrite (Hagain eq_refl).
    unfold nodes_get in Hget. rewrite (replace_prop_stable n nd1 _ Hget).
    now rewrite set_nodes_self.
  - cbn [fst snd] in *. rewrite Hget0 in Hfin. rewrite Hget in Hfin.
    injection Hfin as ->. rewrite Hp. now rewrite Hnorm0.
  - cbn [fst snd] in *. rewrite Hget0 in Hfin. rewrite Hget in Hfin.
    injection Hfin as ->. now rewrite Hp.
Qed.

End Settles.

Section Isolation.

Context {host : Host}.



End Isolation.

(** ** Loading a showcase and the history *)

Lemma push_undo_suffix (h : History) (s : SessionDoc)
  (below suffix : list SessionDoc) :
  undoStack h = below ++ suffix ->
  List.length suffix + 1 <= maxHistory h ->
  exists below', undoStack (push_undo s h) = below' ++ suffix ++ [s].
Proof.
  intros Hs Hmax. unfold push_undo. cbn [undoStack]. rewrite Hs.
  destruct (maxHistory h <? List.length ((below ++ suffix) ++ [s])) eqn:E.
  - apply Nat.ltb_lt in E. rewrite !length_app in E. simpl in E.
    destruct below as [|x below]; [simpl in E; lia|].
    exists below. simpl. now rewrite <- app_assoc.
  - exists below. now rewrite <- app_assoc.
Qed.

Lemma recordState_pushes_suffix (ed : Editor) (below suffix : list SessionDoc)
  (top : SessionDoc) :
  isRestoring (history ed) = false ->
  undoStack (history ed) = below ++ suffix ++ [top] ->
  List.length suffix + 2 <= maxHistory (history ed) ->
  doc_eqb top (serialize ed) = false ->
  exists below',
    undoStack (history (recordState ed))
    = below' ++ suffix ++ [top; serialize ed].
Proof.
  intros Hr Hs Hmax Hne.
  rewrite (recordState_pushes ed Hr).
  - destruct (push_undo_suffix (history ed) (serialize ed) below
                (suffix ++ [top]) Hs) as [below' Hb].
    + rewrite length_app. simpl. lia.
    + exists below'. rewrite Hb. now rewrite <- app_assoc.
  - rewrite Hs, app_assoc, last_map_Some_app. simpl. now rewrite Hne.
Qed.

Section Showcase.

Context {host : Host}.

Lemma undo_deserializes (fuel : nat) (ed : Editor) (below : list SessionDoc)
  (under top : SessionDoc) :
  undoStack (history ed) = below ++ [under; top] ->
  undo fuel ed
  = deserialize fuel (Document under)
      (set_history
         (mkHistory (below ++ [under]) (redoStack (history ed) ++ [top])
            (maxHistory (history ed)) (isRestoring (history ed))) ed).
Proof.
  intros HS. unfold undo. rewrite HS.
  assert (Hlen : (List.length (below ++ [under; top]) <=? 1) = false).
  { apply Nat.leb_gt. rewrite length_app. simpl. lia. }
  rewrite Hlen.
  replace (below ++ [under; top]) with ((below ++ [under]) ++ [top])
    by (rewrite <- app_assoc; reflexivity).
  now rewrite last_map_Some_app, removelast_last, last_map_Some_app.
Qed.

Lemma deserialize_cleared (fuel : nat) (ed e : Editor) :
  nodes (fst (deserialize fuel (Document (serialize (cleared ed))) e)) = []
  /\ connections (fst (deserialize fuel (Document (serialize (cleared ed))) e))
     = [].
Proof.
  destruct (deserialize_graph fuel (serialize (cleared ed)) e) as (D1 & D2 & _).
  rewrite D1, D2. split; reflexivity.
Qed.

(** X24.  Loading a showcase takes two steps of the history.
    [loadShowcase] clears the canvas, which records the empty canvas,
    and records the loaded graph after that.  So, from an editor whose
    state is on top of the undo stack and whose canvas is not empty,
    after a showcase that is not empty has been loaded, one [undo] shows
    the empty canvas, not the graph that was there; a second [undo]
    brings back its nodes, under their ids and in their order, each with
    its type, position, size, children and parent, and its
    connections.  (The graph that was there has a well formed table,
    node types with templates and plain values, and neither the load nor
    the second [undo] goes astray.) *)
Theorem loadShowcase_takes_two_undos (fuel fuel' : nat) (showcase : JSONText)
  (ed : Editor) (below : list SessionDoc) :
  isRestoring (history ed) = false ->
  3 <= maxHistory (history ed) ->
  undoStack (history ed) = below ++ [serialize ed] ->
  doc_eqb (serialize ed) (serialize (cleared ed)) = false ->
  snd (loadShowcase fuel showcase ed) <> Astray ->
  doc_eqb (serialize (cleared ed))
    (serialize (fst (deserialize fuel showcase (clearCanvas ed)))) = false ->
  table_invariant ed ->
  all_templates ed ->
  plain_snapshot ed ->
  let loaded := fst (loadShowcase fuel showcase ed) in
  snd (undo fuel' (fst (undo fuel' loaded))) <> Astray ->
  (exists below',
     undoStack (history loaded)
     = below' ++ [serialize ed; serialize (cleared ed); serialize loaded])
  /\ nodes (fst (undo fuel' loaded)) = []
  /\ connections (fst (undo fuel' loaded)) = []
  /\ skeleton_table (fst (undo fuel' (fst (undo fuel' loaded))))
     = skeleton_table ed
  /\ connections (fst (undo fuel' (fst (undo fuel' loaded)))) = connections ed.
Proof.
  intros Hr Hmax Hstack Hfull Hfollowed Hshow Hinv Htpl Hplain loaded _.
  assert (Hnorm : snd (deserialize fuel showcase (clearCanvas ed)) = Normal).
  { apply deserialize_returns. intros H. apply Hfollowed.
    unfold loadShowcase.
    destruct (deserialize fuel showcase (clearCanvas ed)) as [e c].
    simpl in H. now subst c. }
  destruct (recordState_pushes_suffix (cleared ed) below [] (serialize ed))
    as [b1 Hb1]; try assumption; [simpl; lia|].
  change (recordState (cleared ed)) with (clearCanvas ed) in Hb1.
  cbn [app] in Hb1.
  destruct (recordState_maxHistory (cleared ed)) as [Hm1 Hr1].
  change (recordState (cleared ed)) with (clearCanvas ed) in Hm1, Hr1.
  change (maxHistory (history (cleared ed))) with (maxHistory (history ed)) in Hm1.
  pose proof (deserialize_history fuel showcase (clearCanvas ed)) as Hh.
  assert (Hload : loaded
                  = recordState (fst (deserialize fuel showcase (clearCanvas ed)))).
  { unfold loaded, loadShowcase.
    destruct (deserialize fuel showcase (clearCanvas ed)) as [e c].
    simpl in Hnorm. now subst c. }
  set (e1 := fst (deserialize fuel showcase (clearCanvas ed))) in *.
  assert (Hser : serialize loaded = serialize e1).
  { rewrite Hload. rewrite recordState_graph. reflexivity. }
  destruct (recordState_pushes_suffix e1 b1 [serialize ed]
              (serialize (cleared ed))) as [b2 Hb2].
  - now rewrite Hh.
  - rewrite Hh. cbn [undoStack]. exact Hb1.
  - rewrite Hh. cbn [maxHistory List.length]. rewrite Hm1. lia.
  - exact Hshow.
  - rewrite <- Hload in Hb2. cbn [app] in Hb2. rewrite <- Hser in Hb2.
    split; [now exists b2|].
    assert (Hb2' : undoStack (history loaded)
                   = (b2 ++ [serialize ed])
                     ++ [serialize (cleared ed); serialize loaded]).
    { rewrite Hb2. now rewrite <- app_assoc. }
    rewrite (undo_deserializes fuel' loaded _ _ _ Hb2').
    destruct (undo_stacks fuel' loaded _ _ _ Hb2') as [Hu _].
    rewrite (undo_deserializes fuel' loaded _ _ _ Hb2') in Hu.
    match goal with
    | |- context [deserialize fuel' (Document (serialize (cleared ed))) ?e] =>
        destruct (deserialize_cleared fuel' ed e) as [Hn Hc];
        set (after1 := fst (deserialize fuel'
                              (Document (serialize (cleared ed))) e)) in *
    end.
    split; [exact Hn|]. split; [exact Hc|].
    rewrite <- app_assoc in Hu. cbn [app] in Hu.
    rewrite (undo_deserializes fuel' after1 _ _ _ Hu).
    match goal with
    | |- context [deserialize fuel' (Document (serialize ed)) ?e] =>
        destruct (deserialize_restores fuel' ed e Hinv Htpl Hplain)
          as (R1 & R2 & _)
    end.
    split; [exact R1|exact R2].
Qed.

End Showcase.

(** ** Containers *)

Lemma update_node_get (id x : string) (f : NodeData -> NodeData) (ed : Editor) :
  nodes_get (update_node id f ed) x
  = if String.eqb x id then option_map f (nodes_get ed id) else nodes_get ed x.
Proof.
  unfold update_node. destruct (nodes_get ed id) as [nd|] eqn:Hget.
  - unfold nodes_get in *. cbn [nodes set_nodes].
    destruct (String.eqb x id) eqn:E.
    + apply String.eqb_eq in E. subst x. cbn [option_map].
      apply assoc_replace_prop_same. unfold has_key. now rewrite Hget.
    + now apply assoc_replace_prop_other.
  - destruct (String.eqb x id) eqn:E; [|reflexivity].
    apply String.eqb_eq in E. subst x. now rewrite Hget.
Qed.





Section ContainerLayout.

Context (offsetHeight : NodeData -> Z).



End ContainerLayout.








Section Drop.

Context (offsetHeight : NodeData -> Z).


End Drop.

Lemma In_firstn {A : Type} (x : A) (l : list A) :
  forall n, In x (firstn n l) -> In x l.
Proof.
  induction l as [|a l IH]; intros [|n] H; try contradiction.
  destruct H as [->|H]; [now left|right; now apply (IH n)].
Qed.

Section Column.

Context (offsetHeight : NodeData -> Z).

Lemma stack_same (a b : Editor) (cs : list string) :
  (forall c, In c cs -> nodes_get a c = nodes_get b c) ->
  forall y, stack offsetHeight a cs y = stack offsetHeight b cs y.
Proof.
  induction cs as [|c r IH]; intros H y; [reflexivity|].
  cbn [stack]. rewrite (H c (or_introl eq_refl)).
  destruct (nodes_get b c); apply IH; intros x Hx; apply H; now right.
Qed.

Lemma layout_children_spec (containerId : string) (left top : Z)
  (cs : list string) :
  forall (y : Z) (e : Editor),
    NoDup cs ->
    ~ In containerId cs ->
    (forall c, In c cs -> has_node e c = true) ->
    (exists k, nodes_get e containerId = Some k
               /\ el_left k = left /\ el_top k = top) ->
    let e' := fst (layout_children offsetHeight containerId cs y e) in
    snd (layout_children offsetHeight containerId cs y e)
    = stack offsetHeight e' cs y
    /\ (forall x, ~ In x cs -> nodes_get e' x = nodes_get e x)
    /\ (forall i c, nth_error cs i = Some c ->
          exists old,
            nodes_get e c = Some old
            /\ nodes_get e' c
               = Some (set_position (left + 20)
                         (top + stack offsetHeight e' (firstn i cs) y) old)).
Proof.
  induction cs as [|c r IH]; intros y e Hnd Hnot Hall (k & Hk & Hl & Ht).
  - cbn. split; [reflexivity|]. split; [reflexivity|].
    intros [|i] c H; discriminate.
  - cbn [layout_children].
    destruct (has_node_get e c (Hall c (or_introl eq_refl))) as [child Hc].
    rewrite Hc, Hk, Hl, Ht.
    set (child' := set_position (left + 20) (top + y) child).
    set (e1 := set_nodes (replace_prop c child' (nodes e)) e).
    assert (Hget1 : forall x, nodes_get e1 x
                              = if String.eqb x c then Some child'
                                else nodes_get e x).
    { intros x. unfold e1, nodes_get. cbn [nodes set_nodes].
      destruct (String.eqb x c) eqn:E.
      - apply String.eqb_eq in E. subst x. apply assoc_replace_prop_same.
        unfold has_key. unfold nodes_get in Hc. now rewrite Hc.
      - now apply assoc_replace_prop_other. }
    apply NoDup_cons_iff in Hnd as [Hcr Hnd].
    assert (Hck : c <> containerId) by (intros ->; apply Hnot; now left).
    destruct (IH (y + offsetHeight child' + 10)%Z e1 Hnd) as (I1 & I2 & I3).
    + intros H. apply Hnot. now right.
    + intros x Hx. unfold has_node, has_key.
      fold (nodes_get e1 x). rewrite Hget1.
      destruct (String.eqb x c); [reflexivity|].
      destruct (has_node_get e x (Hall x (or_intror Hx))) as [nd Hx'].
      now rewrite Hx'.
    + exists k. rewrite Hget1.
      assert (E : String.eqb containerId c = false)
        by (apply String.eqb_neq; congruence).
      rewrite E. now split.
    + cbv zeta in I1, I2, I3.
      set (e' := fst (layout_children offsetHeight containerId r
                        (y + offsetHeight child' + 10) e1)) in *.
      assert (Hc' : nodes_get e' c = Some child').
      { rewrite (I2 c Hcr), Hget1. now rewrite String.eqb_refl. }
      split; [|split].
      * cbn [stack]. rewrite Hc'. exact I1.
      * intros x Hx. rewrite I2 by (intros H; apply Hx; now right).
        rewrite Hget1.
        assert (E : String.eqb x c = false).
        { apply String.eqb_neq. intros ->. apply Hx. now left. }
        now rewrite E.
      * intros [|i] x Hx.
        -- injection Hx as <-. exists child. split; [exact Hc|].
           cbn [firstn stack]. exact Hc'.
        -- cbn [nth_error] in Hx. destruct (I3 i x Hx) as (old & Ho & Hn).
           exists old. rewrite Hget1 in Ho.
           assert (E : String.eqb x c = false).
           { apply String.eqb_neq. intros ->. apply Hcr.
             now apply nth_error_In with i. }
           rewrite E in Ho. split; [exact Ho|].
           cbn [firstn stack]. rewrite Hc'. exact Hn.
Qed.

(** X26.  A column stacks its children.  For a column whose children
    are nodes of the table, each listed once and none the column itself,
    [updateLayout] moves every child, and nothing of it but its
    position, to the left edge of the column plus 20 pixels and, from
    the top of the column, to 20 pixels plus the heights of the children
    before it and 10 pixels for each; it gives the column the height of
    that stack, or 100 pixels if the stack is lower, and leaves every
    other node as it was. *)
Theorem updateLayout_stacks_column (containerId : string) (ed : Editor)
  (column : NodeData) :
  nodes_get ed containerId = Some column ->
  isContainer column = true ->
  ntype column = "column" ->
  NoDup (children column) ->
  ~ In containerId (children column) ->
  (forall c, In c (children column) -> has_node ed c = true) ->
  let after := updateLayout offsetHeight containerId ed in
  (forall i c, nth_error (children column) i = Some c ->
     exists old,
       nodes_get ed c = Some old
       /\ nodes_get after c
          = Some (set_position (el_left column + 20)
                    (el_top column
                     + stack offsetHeight after (firstn i (children column)) 20)
                    old))
  /\ nodes_get after containerId
     = Some (set_height
               (string_of_Z
                  (Z.max 100 (stack offsetHeight after (children column) 20))
                ++ "px") column)
  /\ (forall x, x <> containerId -> ~ In x (children column) ->
                nodes_get after x = nodes_get ed x).
Proof.
  intros Hk Hcont Hty Hnd Hnot Hall after.
  unfold after, updateLayout, layoutColumn. rewrite Hk, Hcont, Hty.
  cbn [negb String.eqb Ascii.eqb Bool.eqb].
  destruct (layout_children_spec containerId (el_left column) (el_top column)
              (children column) 20 ed Hnd Hnot Hall) as (S1 & S2 & S3).
  { now exists column. }
  cbv zeta in S1, S2, S3.
  destruct (layout_children offsetHeight containerId (children column) 20 ed)
    as [e1 y1]. cbn [fst snd] in *.
  set (h := (string_of_Z (Z.max 100 y1) ++ "px")%string).
  assert (Hafter : forall x, nodes_get (update_node containerId (set_height h) e1) x
                             = if String.eqb x containerId
                               then Some (set_height h column)
                               else nodes_get e1 x).
  { intros x. rewrite update_node_get, (S2 containerId Hnot), Hk. reflexivity. }
  assert (Hstack : forall cs, (forall c, In c cs -> In c (children column)) ->
                    forall y, stack offsetHeight
                                (update_node containerId (set_height h) e1) cs y
                              = stack offsetHeight e1 cs y).
  { intros cs Hsub. apply stack_same. intros c Hc. rewrite Hafter.
    assert (E : String.eqb c containerId = false).
    { apply String.eqb_neq. intros ->. apply Hnot. now apply Hsub. }
    now rewrite E. }
  split; [|split].
  - intros i c Hc. destruct (S3 i c Hc) as (old & Ho & Hn). exists old.
    split; [exact Ho|]. rewrite Hafter.
    assert (E : String.eqb c containerId = false).
    { apply String.eqb_neq. intros ->. apply Hnot. now apply nth_error_In with i. }
    rewrite E, Hstack; [exact Hn|].
    intros x Hx. now apply (In_firstn x (children column) i).
  - rewrite Hafter, String.eqb_refl, Hstack by auto. unfold h. now rewrite S1.
  - intros x Hx Hout. rewrite Hafter.
    assert (E : String.eqb x containerId = false) by now apply String.eqb_neq.
    rewrite E. now apply S2.
Qed.

End Column.

(** ** The zoom level *)

Lemma Qle_bool_false (p q : Q) : Qle_bool p q = false -> (q <= p)%Q.
Proof.
  intros H. apply Qlt_le_weak. apply Qnot_le_lt. intros Hle.
  apply Qle_bool_iff in Hle. congruence.
Qed.

Lemma clamp_in_range (n : number) :
  n <> NaN -> zoom_in_range (Math_max minZoom (Math_min maxZoom n)).
Proof.
  intros Hn. unfold zoom_in_range, minZoom, maxZoom.
  destruct n as [|s|q]; [congruence| |].
  - destruct s.
    + exists (1 # 5)%Q. split; [reflexivity|]. split; [apply Qle_refl|discriminate].
    + exists (5 # 2)%Q. split; [reflexivity|]. split; [discriminate|apply Qle_refl].
  - unfold Math_min. cbn [num_ltb].
    destruct (Qle_bool (5 # 2) q) eqn:E1; cbn [negb].
    + exists (5 # 2)%Q. split; [reflexivity|]. split; [discriminate|apply Qle_refl].
    + unfold Math_max. cbn [num_ltb].
      destruct (Qle_bool q (1 # 5)) eqn:E2; cbn [negb].
      * exists (1 # 5)%Q. split; [reflexivity|].
        split; [apply Qle_refl|discriminate].
      * exists q. split; [reflexivity|].
        split; now apply Qle_bool_false.
Qed.

Lemma num_mul_fin (p q : Q) : num_mul (Fin p) (Fin q) <> NaN.
Proof. discriminate. Qed.

Lemma num_add_fin (p q : Q) : num_add (Fin p) (Fin q) <> NaN.
Proof. discriminate. Qed.

(** One step of the view from a finite scale. *)
Lemma view_in_range (a : ViewAction) (ed : Editor) (q : Q) :
  scale ed = Fin q -> zoom_in_range (scale (view a ed)).
Proof.
  intros Hs. destruct a as [factor center|deltaY mouse|].
  - cbn [view zoom scale set_view]. rewrite Hs. apply clamp_in_range.
    apply num_mul_fin.
  - cbn [view handleZoom scale set_view]. rewrite Hs. apply clamp_in_range.
    destruct (num_ltb (num_of_Z 0) deltaY); discriminate.
  - exists 1%Q. split; [reflexivity|]. split; discriminate.
Qed.

Lemma view_graph (a : ViewAction) (ed : Editor) :
  nodes (view a ed) = nodes ed
  /\ connections (view a ed) = connections ed
  /\ history (view a ed) = history ed.
Proof. destruct a; repeat split. Qed.

(** X27.  The zoom level stays within its limits.  From an editor whose
    scale is a finite number, whatever it is (a session file may hold
    any), after any sequence, not empty, of zoom steps by a finite
    factor, turns of the wheel and resets, the scale is a number between
    0.2 and 2.5; and no such step touches the nodes, the connections or
    the history. *)
Theorem zoom_stays_in_range (actions : list ViewAction) (a : ViewAction)
  (ed : Editor) (q : Q) :
  scale ed = Fin q ->
  zoom_in_range (scale (fold_left (fun e x => view x e) (a :: actions) ed))
  /\ nodes (fold_left (fun e x => view x e) (a :: actions) ed) = nodes ed
  /\ connections (fold_left (fun e x => view x e) (a :: actions) ed)
     = connections ed
  /\ history (fold_left (fun e x => view x e) (a :: actions) ed) = history ed.
Proof.
  intros Hs. cbn [fold_left].
  pose proof (view_in_range a ed q Hs) as Hr.
  destruct (view_graph a ed) as (G1 & G2 & G3).
  rewrite <- G1, <- G2, <- G3. clear G1 G2 G3 Hs.
  generalize dependent (view a ed). clear ed a q.
  induction actions as [|b r IH]; intros e Hr; [now repeat split|].
  cbn [fold_left]. destruct Hr as (q & Hq & _).
  destruct (IH (view b e) (view_in_range b e q Hq)) as (I1 & I2 & I3 & I4).
  destruct (view_graph b e) as (G1 & G2 & G3).
  rewrite I2, I3, I4, G1, G2, G3. now repeat split.
Qed.

(** ** Drawing a wire *)



Section Wire.

Context {host : Host}.



End Wire.

(** ** The theorems above at concrete inputs *)


(** The session ends with the one wire from the import node. *)
Example wiringSession_connections :
  connections (perform_all (host := scenarioHost) 5 wiringSession initialEditor)
  = [connect "node_2" "data_out" "node_1" "text_in"].
Proof. vm_compute. reflexivity. Qed.


Lemma wiringSession_followed :
  followed (host := scenarioHost) 5 wiringSession initialEditor.
Proof. vm_compute. repeat split; discriminate. Qed.

Lemma generated_ids_are_fresh_witness :
  truthy_string (o_id noOptions) = None
  /\ followed (host := scenarioHost) 5 wiringSession initialEditor
  /\ has_node
       (perform_all (host := scenarioHost) 5 wiringSession initialEditor)
       ("node_"
        ++ string_of_Z
             (nodeCounter
                (perform_all (host := scenarioHost) 5 wiringSession
                   initialEditor)))
     = false.
Proof.
  refine (conj eq_refl
            (conj wiringSession_followed
               (proj1 (proj2 (proj2
                  (generated_ids_are_fresh (host := scenarioHost)
                     5 wiringSession "csv" 0 0 noOptions eq_refl
                     wiringSession_followed _)))))).
  vm_compute. discriminate.
Defined.

(** The id that comes next after the session is [node_3]. *)
Example wiringSession_next_id :
  fst (allocate_id noOptions
         (nodeCounter
            (perform_all (host := scenarioHost) 5 wiringSession initialEditor)))
  = "node_3".
Proof. vm_compute. reflexivity. Qed.





(** The filter node of the scenario before and after its wire is
    deleted. *)
Example deleteConnection_filter_scenario :
  let ed := feeds (VArr flaggedRows) "filter" "data_in"
              [("condition", CStr "row.keep")] in
  option_map (fun nd => (outputs nd, status nd))
    (nodes_get (fst (processNodeData (host := scenarioHost) 2 "node_1" ed))
       "node_1")
  = Some ([("data_out",
            VArr [ VObj [("n", VStr "1"); ("keep", VBool true)];
                   VObj [("n", VStr "3"); ("keep", VBool true)] ])],
          Some "Filtered 3 rows to 2.")
  /\ option_map (fun nd => (outputs nd, status nd))
       (nodes_get (fst (deleteConnection (host := scenarioHost) 2 0
                          (fst (processNodeData (host := scenarioHost) 2
                                  "node_1" ed))))
          "node_1")
     = Some ([("data_out", VArr [])], Some "No input connected.").
Proof. vm_compute. split; reflexivity. Qed.

Lemma textAndImport_table_invariant : table_invariant textAndImport.
Proof.
  unfold textAndImport, oneTextNode, addTextNode.
  apply (createNode_table_invariant (host := scenarioHost)).
  apply (createNode_table_invariant (host := scenarioHost)).
  apply initialEditor_table_invariant.
Qed.

Lemma oneTextNode_table_invariant : table_invariant oneTextNode.
Proof.
  unfold oneTextNode, addTextNode.
  apply (createNode_table_invariant (host := scenarioHost)).
  apply initialEditor_table_invariant.
Qed.

Lemma textAndImport_all_templates : all_templates textAndImport.
Proof.
  intros id nd Hin. vm_compute in Hin.
  destruct Hin as [H|[H|[]]]; injection H as <- <-; reflexivity.
Qed.

Lemma oneTextNode_all_templates : all_templates oneTextNode.
Proof.
  intros id nd Hin. vm_compute in Hin.
  destruct Hin as [H|[]]; injection H as <- <-; reflexivity.
Qed.

Lemma textAndImport_plain : plain_snapshot textAndImport.
Proof. split; vm_compute; reflexivity. Qed.

Lemma oneTextNode_plain : plain_snapshot oneTextNode.
Proof. split; vm_compute; reflexivity. Qed.

Lemma deserialize_serialize_skeleton_witness :
  table_invariant textAndImport
  /\ all_templates textAndImport
  /\ plain_snapshot textAndImport
  /\ snd (deserialize (host := scenarioHost) 5
            (Document (serialize textAndImport)) emptyEditor) = Normal
  /\ skeleton_table
       (fst (deserialize (host := scenarioHost) 5
               (Document (serialize textAndImport)) emptyEditor))
     = skeleton_table textAndImport.
Proof.
  refine (conj textAndImport_table_invariant
           (conj textAndImport_all_templates
              (conj textAndImport_plain
                 (conj _
                    (proj1 (deserialize_serialize_skeleton
                              (host := scenarioHost) 5
                              textAndImport emptyEditor
                              textAndImport_table_invariant
                              textAndImport_all_templates
                              textAndImport_plain _)))))).
  - vm_compute. reflexivity.
  - vm_compute. discriminate.
Defined.

Lemma undo_restores_skeleton_witness :
  undoStack (history textAndImport)
  = [serialize emptyEditor] ++ [serialize oneTextNode; serialize textAndImport]
  /\ table_invariant oneTextNode
  /\ all_templates oneTextNode
  /\ plain_snapshot oneTextNode
  /\ snd (undo (host := scenarioHost) 5 textAndImport) = Normal
  /\ skeleton_table (fst (undo (host := scenarioHost) 5 textAndImport))
     = skeleton_table oneTextNode.
Proof.
  refine (conj _
           (conj oneTextNode_table_invariant
              (conj oneTextNode_all_templates
                 (conj oneTextNode_plain
                    (conj _
                       (proj1 (undo_restores_skeleton (host := scenarioHost) 5
                                 textAndImport oneTextNode
                                 [serialize emptyEditor]
                                 (serialize textAndImport) _
                                 oneTextNode_table_invariant
                                 oneTextNode_all_templates
                                 oneTextNode_plain _)))))));
    vm_compute; first [reflexivity | discriminate].
Defined.

Lemma flaggedRows_returns :
  forall r, In r flaggedRows ->
    returns_on (fun row => called_of_result (get row "keep")) r.
Proof.
  intros row [<-|[<-|[<-|[]]]]; eexists; reflexivity.
Qed.

Lemma processFilterNode_subsequence_witness :
  find_input
    (feeds (VArr flaggedRows) "filter" "data_in" [("condition", CStr "row.keep")])
    (freshNode "filter" "node_1" [("condition", CStr "row.keep")]) "data_in"
  = Some (connect "node_0" "data_out" "node_1" "data_in")
  /\ source_output
       (feeds (VArr flaggedRows) "filter" "data_in"
          [("condition", CStr "row.keep")])
       (connect "node_0" "data_out" "node_1" "data_in")
     = Ok (VArr flaggedRows)
  /\ (forall r, In r flaggedRows ->
        returns_on (fun row => called_of_result (get row "keep")) r)
  /\ assoc "data_out"
       (outputs
          (fst (processFilterNode (host := scenarioHost)
                  (feeds (VArr flaggedRows) "filter" "data_in"
                     [("condition", CStr "row.keep")])
                  (freshNode "filter" "node_1"
                     [("condition", CStr "row.keep")]))))
     = Some (VArr (filter (passes (fun row => called_of_result (get row "keep")))
                     flaggedRows)).
Proof.
  refine (conj eq_refl (conj eq_refl (conj flaggedRows_returns
    (proj1 (proj2 (proj2 (proj2
       (processFilterNode_subsequence (host := scenarioHost)
          (feeds (VArr flaggedRows) "filter" "data_in"
             [("condition", CStr "row.keep")])
          (freshNode "filter" "node_1" [("condition", CStr "row.keep")])
          (connect "node_0" "data_out" "node_1" "data_in")
          flaggedRows
          (param_control Textarea "condition" "row.keep") ""
          eq_refl eq_refl eq_refl eq_refl))
       (fun row => called_of_result (get row "keep")) _ eq_refl
       flaggedRows_returns)))))).
  discriminate.
Defined.

Lemma processTransformNode_all_or_nothing_witness :
  find_input
    (feeds (VArr flaggedRows) "transform" "data_in" [("logic", CStr "return row.keep")])
    (freshNode "transform" "node_1" [("logic", CStr "return row.keep")]) "data_in"
  = Some (connect "node_0" "data_out" "node_1" "data_in")
  /\ (forall r, In r flaggedRows ->
        returns_on (fun row => called_of_result (get row "keep")) r)
  /\ exists out,
       assoc "data_out"
         (outputs
            (fst (processTransformNode (host := scenarioHost)
                    (feeds (VArr flaggedRows) "transform" "data_in"
                       [("logic", CStr "return row.keep")])
                    (freshNode "transform" "node_1"
                       [("logic", CStr "return row.keep")]))))
       = Some (VArr out)
       /\ Forall2 (fun r o => called_of_result (get r "keep") = Returns o)
            flaggedRows out
       /\ status
            (fst (processTransformNode (host := scenarioHost)
                    (feeds (VArr flaggedRows) "transform" "data_in"
                       [("logic", CStr "return row.keep")])
                    (freshNode "transform" "node_1"
                       [("logic", CStr "return row.keep")])))
          = Some ("Transformed " ++ string_of_nat (List.length flaggedRows)
                  ++ " rows.")%string.
Proof.
  refine (conj eq_refl (conj flaggedRows_returns
    (proj2 (proj1
       (processTransformNode_all_or_nothing (host := scenarioHost)
          (feeds (VArr flaggedRows) "transform" "data_in"
             [("logic", CStr "return row.keep")])
          (freshNode "transform" "node_1" [("logic", CStr "return row.keep")])
          (connect "node_0" "data_out" "node_1" "data_in")
          flaggedRows
          (param_control Textarea "logic" "return row.keep") ""
          eq_refl eq_refl eq_refl eq_refl)
       (fun row => called_of_result (get row "keep")) eq_refl
       flaggedRows_returns)))).
Defined.

(** A transformation that writes to its row is not followed. *)
Example processTransformNode_strays :
  snd (processTransformNode (host := scenarioHost)
         (feeds (VArr flaggedRows) "transform" "data_in"
            [("logic", CStr "row.seen = true; return row")])
         (freshNode "transform" "node_1"
            [("logic", CStr "row.seen = true; return row")]))
  = Strayed.
Proof. vm_compute. reflexivity. Qed.

Lemma csvText_headers :
  NoDup (map trim (split "," "a,b"))
  /\ ~ In "__proto__" (map trim (split "," "a,b")).
Proof.
  split.
  - repeat constructor; simpl; intuition discriminate.
  - simpl. intuition discriminate.
Qed.

Lemma processCsvNode_rows_of_lines_witness :
  find_input (feeds (VStr csvText) "csv" "csv_in" [])
    (freshNode "csv" "node_1" []) "csv_in"
  = Some (connect "node_0" "data_out" "node_1" "csv_in")
  /\ split newline (trim csvText) = "a,b" :: "1,2" :: ["3,4"]
  /\ NoDup (map trim (split "," "a,b"))
  /\ ~ In "__proto__" (map trim (split "," "a,b"))
  /\ snd (processCsvNode
            (feeds (VStr csvText) "csv" "csv_in" [])
            (freshNode "csv" "node_1" []))
     = Returned.
Proof.
  refine (conj eq_refl (conj eq_refl (conj (proj1 csvText_headers)
    (conj (proj2 csvText_headers)
      (proj1 (processCsvNode_rows_of_lines
                (feeds (VStr csvText) "csv" "csv_in" [])
                (freshNode "csv" "node_1" [])
                (connect "node_0" "data_out" "node_1" "csv_in")
                csvText "a,b" "1,2" ["3,4"]
                eq_refl eq_refl eq_refl
                (proj1 csvText_headers) (proj2 csvText_headers))))))).
Defined.

Lemma processCsvNode_throws_on_non_text_witness :
  nodes_get (feeds (VArr flaggedRows) "csv" "csv_in" []) "node_1"
  = Some (freshNode "csv" "node_1" [])
  /\ source_output (feeds (VArr flaggedRows) "csv" "csv_in" [])
       (connect "node_0" "data_out" "node_1" "csv_in")
     = Ok (VArr flaggedRows)
  /\ snd (processNodeData (host := scenarioHost) 3 "node_1"
            (feeds (VArr flaggedRows) "csv" "csv_in" []))
     = Throw "csvText.trim is not a function".
Proof.
  refine (conj eq_refl (conj eq_refl
    (proj1 (proj2
       (processCsvNode_throws_on_non_text (host := scenarioHost) 2
          (feeds (VArr flaggedRows) "csv" "csv_in" [])
          "node_1" (freshNode "csv" "node_1" [])
          (connect "node_0" "data_out" "node_1" "csv_in")
          (VArr flaggedRows)
          eq_refl eq_refl eq_refl eq_refl eq_refl _))))).
  discriminate.
Defined.



(** The counts of the scenario: two rows under [x], one under [y]. *)
Example processAggregateNode_count_scenario :
  assoc "data_out"
    (outputs
       (fst (processAggregateNode
               (feeds scenarioRows "aggregate" "data_in"
                  [("groupBy", CStr "cat"); ("aggFunc", CStr "count");
                   ("aggKey", CStr "v")])
               (freshNode "aggregate" "node_1"
                  [("groupBy", CStr "cat"); ("aggFunc", CStr "count");
                   ("aggKey", CStr "v")]))))
  = Some (VArr [ VObj [("cat", VStr "x"); ("count_of_v", VNum (num_of_Z 2))];
                 VObj [("cat", VStr "y"); ("count_of_v", VNum (num_of_Z 1))] ]).
Proof. vm_compute. reflexivity. Qed.

Lemma processJsonNode_outcomes_witness :
  find_input (feeds (VStr "{oops") "json" "data_in" [])
    (freshNode "json" "node_1" []) "data_in"
  = Some (connect "node_0" "data_out" "node_1" "data_in")
  /\ source_output (feeds (VStr "{oops") "json" "data_in" [])
       (connect "node_0" "data_out" "node_1" "data_in")
     = Ok (VStr "{oops")
  /\ JSON_parse (Host := scenarioHost) "{oops" = Raise "Unexpected token"
  /\ assoc "data_out"
       (outputs (fst (processJsonNode (host := scenarioHost)
                        (feeds (VStr "{oops") "json" "data_in" [])
                        (freshNode "json" "node_1" []))))
     = Some (VObj [])
  /\ status (fst (processJsonNode (host := scenarioHost)
                    (feeds (VStr "{oops") "json" "data_in" [])
                    (freshNode "json" "node_1" [])))
     = Some "Error: Unexpected token".
Proof.
  refine (conj eq_refl (conj eq_refl (conj eq_refl
    (proj1 (proj2 (proj2
       (processJsonNode_outcomes (host := scenarioHost)
          (feeds (VStr "{oops") "json" "data_in" [])
          (freshNode "json" "node_1" [])
          (connect "node_0" "data_out" "node_1" "data_in")
          (param_control SelectBox "operation" "parse") "" (VStr "{oops")
          eq_refl eq_refl eq_refl eq_refl)))
       "{oops" "Unexpected token" eq_refl eq_refl eq_refl)))).
Defined.

Lemma undo_redo_restores_skeleton_witness :
  undoStack (history textAndImport)
  = [serialize emptyEditor] ++ [serialize oneTextNode; serialize textAndImport]
  /\ table_invariant textAndImport
  /\ all_templates textAndImport
  /\ plain_snapshot textAndImport
  /\ snd (undo (host := scenarioHost) 5 textAndImport) = Normal
  /\ snd (redo (host := scenarioHost) 5
            (fst (undo (host := scenarioHost) 5 textAndImport))) = Normal
  /\ undoStack
       (history (fst (redo (host := scenarioHost) 5
                        (fst (undo (host := scenarioHost) 5 textAndImport)))))
     = undoStack (history textAndImport).
Proof.
  refine (conj _
           (conj textAndImport_table_invariant
              (conj textAndImport_all_templates
                 (conj textAndImport_plain
                    (conj _ (conj _
                       (proj1 (undo_redo_restores_skeleton
                                 (host := scenarioHost) 5
                                 textAndImport textAndImport
                                 [serialize emptyEditor]
                                 (serialize oneTextNode) _
                                 textAndImport_table_invariant
                                 textAndImport_all_templates
                                 textAndImport_plain _ _))))))));
    vm_compute; first [reflexivity | discriminate].
Defined.


Lemma loadSession_resets_history_witness :
  snd (loadSession (host := scenarioHost) 40 (Document cyclicDoc)
         textAndImport) = Normal
  /\ List.length (undoStack (history textAndImport)) = 3
  /\ undoStack
       (history (fst (loadSession (host := scenarioHost) 40
                        (Document cyclicDoc) textAndImport)))
     = [serialize (fst (loadSession (host := scenarioHost) 40
                          (Document cyclicDoc) textAndImport))].
Proof.
  refine (conj _ (conj _
           (proj1 (proj2 (loadSession_resets_history (host := scenarioHost)
                            40 5 (Document cyclicDoc) textAndImport _)))));
    vm_compute; first [reflexivity | discriminate].
Defined.

Lemma oneFilterNode_table_invariant : table_invariant oneFilterNode.
Proof.
  unfold oneFilterNode.
  apply (createNode_table_invariant (host := scenarioHost)).
  apply initialEditor_table_invariant.
Qed.

Lemma oneFilterNode_all_templates : all_templates oneFilterNode.
Proof.
  intros id nd Hin. vm_compute in Hin.
  destruct Hin as [H|[]]; injection H as <- <-; reflexivity.
Qed.

Lemma oneFilterNode_plain : plain_snapshot oneFilterNode.
Proof. split; vm_compute; reflexivity. Qed.

Lemma deserialize_serialize_parameters_witness :
  table_invariant oneFilterNode
  /\ all_templates oneFilterNode
  /\ plain_snapshot oneFilterNode
  /\ snd (deserialize (host := scenarioHost) 5
            (Document (serialize oneFilterNode)) emptyEditor) = Normal
  /\ nodes_get oneFilterNode "node_0" = Some theFilterNode
  /\ quiet (ntype theFilterNode) = true
  /\ controls theFilterNode = fst (coreTemplate (ntype theFilterNode) filterOptions)
  /\ exists nd',
       nodes_get
         (fst (deserialize (host := scenarioHost) 5
                 (Document (serialize oneFilterNode)) emptyEditor)) "node_0"
       = Some nd'
       /\ ntype nd' = ntype theFilterNode
       /\ controls nd' = controls theFilterNode.
Proof.
  refine (conj oneFilterNode_table_invariant
           (conj oneFilterNode_all_templates
              (conj oneFilterNode_plain
                 (conj _ (conj _ (conj _ (conj _
                    (deserialize_serialize_parameters (host := scenarioHost) 5
                       oneFilterNode emptyEditor "node_0" theFilterNode
                       filterOptions
                       oneFilterNode_table_invariant
                       oneFilterNode_all_templates oneFilterNode_plain
                       _ _ _ _))))))));
    vm_compute; first [reflexivity | discriminate].
Defined.

Example oneFilterNode_condition_restored :
  option_map controls
    (nodes_get
       (fst (deserialize (host := scenarioHost) 5
               (Document (serialize oneFilterNode)) emptyEditor)) "node_0")
  = Some [param_control Textarea "condition" "row.keep"].
Proof. vm_compute. reflexivity. Qed.

Lemma csvScenario_ids_consistent : ids_consistent csvScenario.
Proof.
  intros id nd. unfold nodes_get.
  let ns := eval vm_compute in (nodes csvScenario) in
  change (nodes csvScenario) with ns.
  simpl assoc.
  destruct (String.eqb id "node_0") eqn:E0.
  - apply String.eqb_eq in E0. now intros [= <-].
  - destruct (String.eqb id "node_1") eqn:E1; [|discriminate].
    apply String.eqb_eq in E1. now intros [= <-].
Qed.

Lemma csvScenario_reachable : reachable csvScenario "node_0" "node_1".
Proof.
  apply reach_next with "node_1".
  - split; [reflexivity|]. split; [reflexivity|].
    exists (connect "node_0" "data_out" "node_1" "csv_in").
    split; [now left|now split].
  - now apply reach_here.
Qed.

Lemma processNodeData_settles_witness :
  ids_consistent csvScenario
  /\ snd (processNodeData (host := scenarioHost) 5 "node_0" csvScenario) = Normal
  /\ reachable csvScenario "node_0" "node_1"
  /\ nodes_get (fst (processNodeData (host := scenarioHost) 5 "node_0"
                       csvScenario)) "node_1" = Some parsedCsvNode
  /\ existsb (String.eqb (ntype parsedCsvNode)) externalTypes = false
  /\ run_processor (host := scenarioHost)
       (fst (processNodeData (host := scenarioHost) 5 "node_0" csvScenario))
       "node_1" parsedCsvNode
     = (fst (processNodeData (host := scenarioHost) 5 "node_0" csvScenario),
        Normal).
Proof.
  refine (conj csvScenario_ids_consistent
           (conj _ (conj csvScenario_reachable (conj _ (conj _
              (processNodeData_settles (host := scenarioHost) 5 "node_0"
                 "node_1" csvScenario parsedCsvNode
                 csvScenario_ids_consistent _ csvScenario_reachable _ _))))));
    vm_compute; reflexivity.
Defined.




Lemma loadShowcase_takes_two_undos_witness :
  isRestoring (history textAndImport) = false
  /\ 3 <= maxHistory (history textAndImport)
  /\ undoStack (history textAndImport)
     = [serialize emptyEditor; serialize oneTextNode] ++ [serialize textAndImport]
  /\ doc_eqb (serialize textAndImport) (serialize (cleared textAndImport)) = false
  /\ snd (loadShowcase (host := scenarioHost) 5
            (Document (serialize oneFilterNode)) textAndImport) = Normal
  /\ doc_eqb (serialize (cleared textAndImport))
       (serialize (fst (deserialize (host := scenarioHost) 5
                          (Document (serialize oneFilterNode))
                          (clearCanvas textAndImport)))) = false
  /\ table_invariant textAndImport
  /\ all_templates textAndImport
  /\ plain_snapshot textAndImport
  /\ nodes (fst (undo (host := scenarioHost) 5
                   (fst (loadShowcase (host := scenarioHost) 5
                           (Document (serialize oneFilterNode)) textAndImport))))
     = [].
Proof.
  refine (conj _ (conj _ (conj _ (conj _ (conj _ (conj _
           (conj textAndImport_table_invariant
              (conj textAndImport_all_templates
                 (conj textAndImport_plain
                    (proj1 (proj2
                       (loadShowcase_takes_two_undos (host := scenarioHost) 5 5
                          (Document (serialize oneFilterNode)) textAndImport
                          [serialize emptyEditor; serialize oneTextNode]
                          _ _ _ _ _ _
                          textAndImport_table_invariant
                          textAndImport_all_templates
                          textAndImport_plain _)))))))))))).
  all: try (vm_compute; reflexivity).
  all: try (vm_compute; discriminate).
  all: vm_compute; lia.
Defined.





Example textInColumn_layout :
  option_map (fun nd => (el_left nd, el_top nd, parentId nd))
    (nodes_get textInColumn "node_1")
  = Some (120%Z, 70%Z, Some "node_0")
  /\ option_map (fun nd => (el_height nd, children nd))
       (nodes_get textInColumn "node_0")
     = Some ("110px", ["node_1"]).
Proof. vm_compute. split; reflexivity. Qed.

Lemma theColumn_children : children theColumn = ["node_1"].
Proof. vm_compute. reflexivity. Qed.

Lemma textInColumn_children (c : string) :
  In c (children theColumn) -> has_node textInColumn c = true.
Proof.
  rewrite theColumn_children. intros [<-|[]]. vm_compute. reflexivity.
Qed.

Lemma textInColumn_not_child : ~ In "node_0" (children theColumn).
Proof. rewrite theColumn_children. intros [H|[]]. discriminate H. Qed.

Lemma textInColumn_NoDup : NoDup (children theColumn).
Proof. rewrite theColumn_children. repeat constructor. intros []. Qed.

Lemma updateLayout_stacks_column_witness :
  nodes_get textInColumn "node_0" = Some theColumn
  /\ isContainer theColumn = true
  /\ ntype theColumn = "column"
  /\ NoDup (children theColumn)
  /\ ~ In "node_0" (children theColumn)
  /\ (forall c, In c (children theColumn) -> has_node textInColumn c = true)
  /\ nodes_get (updateLayout eightyHigh "node_0" textInColumn) "node_0"
     = Some (set_height
               (string_of_Z
                  (Z.max 100
                     (stack eightyHigh
                        (updateLayout eightyHigh "node_0" textInColumn)
                        (children theColumn) 20))
                ++ "px") theColumn).
Proof.
  refine (conj _ (conj _ (conj _ (conj textInColumn_NoDup
            (conj textInColumn_not_child (conj textInColumn_children
               (proj1 (proj2
                  (updateLayout_stacks_column eightyHigh "node_0" textInColumn
                     theColumn _ _ _ textInColumn_NoDup textInColumn_not_child
                     textInColumn_children)))))))));
    vm_compute; reflexivity.
Defined.

Lemma zoom_stays_in_range_witness :
  scale initialEditor = Fin 1
  /\ zoom_in_range
       (scale (fold_left (fun e x => view x e)
                 [VZoom (6 # 5) (num_of_Z 400, num_of_Z 300);
                  VWheel (num_of_Z (-100)) (num_of_Z 10, num_of_Z 20);
                  VZoom (6 # 5) (num_of_Z 400, num_of_Z 300)]
                 initialEditor)).
Proof.
  refine (conj _
           (proj1 (zoom_stays_in_range
                     [VWheel (num_of_Z (-100)) (num_of_Z 10, num_of_Z 20);
                      VZoom (6 # 5) (num_of_Z 400, num_of_Z 300)]
                     (VZoom (6 # 5) (num_of_Z 400, num_of_Z 300))
                     initialEditor 1 _)));
    vm_compute; reflexivity.
Defined.

Example zoom_in_three_steps :
  scale (fold_left (fun e x => view x e)
           [VZoom (6 # 5) (num_of_Z 400, num_of_Z 300);
            VWheel (num_of_Z (-100)) (num_of_Z 10, num_of_Z 20);
            VZoom (6 # 5) (num_of_Z 400, num_of_Z 300)]
           initialEditor)
  = Fin (198 # 125).
Proof. vm_compute. reflexivity. Qed.


